(** * Voice-cloning engine: a shallow embedding of [voice_engine.py]

    The file has three parts.

    The first follows the source top to bottom:

    - [F64]: binary64 arithmetic as Python and numpy perform it, on the
      axiom-free IEEE-754 model of the Standard Library ([SpecFloat]);
    - [Py]: the Python built-ins the engine calls ([min], [max], [set],
      [sorted]) and numpy's [sum], [mean] and [stack], with numpy's order
      of summation and the dtypes of its arrays;
    - [Audio]: what [AudioProcessor._estimate_formants] does with the
      peaks scipy hands back;
    - [Combiner]: [VoiceCharacteristics] and [_combine_voice_characteristics];
    - [Scorer]: [_validate_model_quality] over numpy's global generator;
    - [Job]: the values of a job dict, the pickled model, and the language
      of effects in which the worker is written;
    - [Engine]: the registry, the futures, the model directory,
      [get_training_status], [cancel_training], [_estimate_training_time],
      [delete_voice_model], [load_voice_model], [list_voice_models];
    - [Worker]: [start_voice_cloning], [_train_voice_model], and the steps
      by which worker threads and API calls interleave.

    The second part holds the vocabulary of the statements and the sample
    inputs; the third the properties.

    What lies outside the source is taken as given: [librosa] and the file
    system answer through [Worker.Env] and the [model_dir], [disk] fields
    of the state, [uuid4] through the id passed to [start_voice_cloning],
    [datetime.now()] through [clock], numpy's generator through [rng].

    Scalar feature values are Python floats, binary64 numbers with their
    rounding; the MFCC and chroma vectors are numpy arrays with their
    dtype, float32 as [librosa] computes them.  Progress percentages are
    kept as exact rationals: the statements made about them only compare
    them, and rounding to nearest is monotone; the points at which an exact
    value is asserted (10, 20, 35, 70, 85, 95, 100) are computed without
    rounding by the source as well. *)

From Stdlib Require Import ZArith QArith Qround Lia List.
From Stdlib Require Import Floats.SpecFloat.
From Stdlib Require OrdersEx.
From stdpp Require Import gmap strings list sorting pretty.

Set Default Proof Using "Type".
Open Scope Z_scope.

(** ** Exceptions and results *)

(** The exception classes the engine raises or catches.  The payload stands
    for the message ([str(e)] is what the worker stores on a failed job). *)
Inductive exn : Type :=
  | ValueError (msg : string)
  | FileNotFoundError (path : string)
  | TypeError (msg : string)
  | AttributeError (msg : string)
  | KeyError (key : string)
  | OSError (msg : string).

Inductive result (A : Type) : Type :=
  | Ok (a : A)
  | Raise (e : exn).
Arguments Ok {A} a.
Arguments Raise {A} e.

(** ** Binary64 *)

Module F64.
Definition float : Type := spec_float.
Definition prec : Z := 53.
Definition emax : Z := 1024.

Definition add : float -> float -> float := SFadd prec emax.
Definition mul : float -> float -> float := SFmul prec emax.
Definition div : float -> float -> float := SFdiv prec emax.
Definition ltb : float -> float -> bool := SFltb.
Definition leb : float -> float -> bool := SFleb.
Definition eqb : float -> float -> bool := SFeqb.

(** [float(z)] for a Python int. *)
Definition of_Z (z : Z) : float := binary_normalize prec emax z 0 false.

(** A decimal literal [num/den] of the source text: the double nearest to
    the quotient, which is the correctly rounded division of the two
    (exactly representable) integers. *)
Definition lit (num den : Z) : float := div (of_Z num) (of_Z den).

Definition zero : float := S754_zero false.
Definition neg_zero : float := S754_zero true.
Definition one : float := Eval vm_compute in of_Z 1.

(** A positive finite number: what the extractor keeps as a formant
    (it filters with [f > 0] over finite FFT bin frequencies). *)
Definition is_frequency (x : float) : Prop :=
  match x with S754_finite false _ _ => True | _ => False end.

Definition lt (x y : float) : Prop := ltb x y = true.
Definition le (x y : float) : Prop := leb x y = true.
End F64.

(** ** Python and numpy primitives *)

Module Py.
Import F64.

(** [min(a, b)]: the first argument unless the second is smaller. *)
Definition min (a b : float) : float := if ltb b a then b else a.
(** [max(a, b)]: the first argument unless the second is larger. *)
Definition max (a b : float) : float := if ltb a b then b else a.

(** [x in s] for a collection of floats compared with [==]. *)
Definition contains (s : list float) (x : float) : bool :=
  existsb (fun e => eqb e x) s.

(** [set(xs)]: one representative per [==]-class, the first inserted.
    The iteration order of a set is unspecified; the engine sorts the
    result at once, so the model lists the members in insertion order. *)
Definition set (xs : list float) : list float :=
  fold_left (fun s x => if contains s x then s else s ++ [x]) xs [].

(** [sorted(xs)]: a stable sort that only asks [<].  For keys that [<]
    orders totally every stable sort returns this list. *)
Fixpoint insert (x : float) (s : list float) : list float :=
  match s with
  | [] => [x]
  | e :: r => if ltb x e then x :: e :: r else e :: insert x r
  end.
Definition sorted (xs : list float) : list float :=
  fold_left (fun s x => insert x s) xs [].

(** [clamp(x, lo, hi)], as a composition of the two built-ins. *)
Definition clamp (lo hi x : float) : float := max lo (min hi x).

(** [np.sum] over a list of Python floats, which numpy takes to a
    float64 array: the pairwise summation of [numpy/core/src/umath].
    Fewer than eight values are added left to right, starting from
    [-0.0].  Up to 128 values are added into eight accumulators,
    [r[k] += a[i + k]], which are then added as
    [((r0 + r1) + (r2 + r3)) + ((r4 + r5) + (r6 + r7))], and the values
    left over are added to that one by one.  A longer array is cut in two
    at a multiple of eight, and the sums of the halves are added. *)
Definition tree8 (r : list float) : float :=
  match r with
  | [r0; r1; r2; r3; r4; r5; r6; r7] =>
      add (add (add r0 r1) (add r2 r3)) (add (add r4 r5) (add r6 r7))
  | _ => zero                                  (* [r] has eight items *)
  end.

(** [for (i = 8; i < n - n % 8; i += 8) r[k] += a[i + k]], for the given
    number of rounds; what is left of [a] is returned with [r]. *)
Fixpoint accumulate (rounds : nat) (r a : list float) : list float * list float :=
  match rounds with
  | O => (r, a)
  | S rounds => accumulate rounds (zip_with add r (take 8 a)) (drop 8 a)
  end.

Definition block_sum (a : list float) : float :=
  let n := length a in
  let '(r, rest) := accumulate (n / 8 - 1) (take 8 a) (drop 8 a) in
  fold_left add rest (tree8 r).

(** The recursion halves the array; [fuel] bounds its depth, and the
    length of the array is more than enough ([pairwise_sum_fuel]). *)
Fixpoint pairwise_sum (fuel : nat) (a : list float) : float :=
  let n := length a in
  if (n <? 8)%nat then fold_left add a neg_zero
  else if (n <=? 128)%nat then block_sum a
  else match fuel with
       | O => block_sum a
       | S fuel =>
           let n2 := (n / 2 - (n / 2) mod 8)%nat in
           add (pairwise_sum fuel (take n2 a)) (pairwise_sum fuel (drop n2 a))
       end.

Definition np_sum (xs : list float) : float := pairwise_sum (length xs) xs.

(** [np.mean(xs)]: the sum divided by the number of elements. *)
Definition np_mean (xs : list float) : float :=
  div (np_sum xs) (of_Z (Z.of_nat (length xs))).

(** The dtypes of the arrays the engine is given: [librosa] returns
    float32 features for the float32 audio it loads, and an array built
    from Python floats is float64.  The items of a float32 array are
    numbers of binary32, and its arithmetic rounds to binary32. *)
Inductive dtype : Type := float32 | float64.

Definition prec_of (t : dtype) : Z := match t with float32 => 24 | float64 => 53 end.
Definition emax_of (t : dtype) : Z := match t with float32 => 128 | float64 => 1024 end.

Definition add_at (t : dtype) : float -> float -> float := SFadd (prec_of t) (emax_of t).
Definition div_at (t : dtype) : float -> float -> float := SFdiv (prec_of t) (emax_of t).
Definition of_Z_at (t : dtype) (z : Z) : float :=
  binary_normalize (prec_of t) (emax_of t) z 0 false.

(** [x.astype(t)]: the number of [t] nearest to [x]; the same number when
    [t] is the wider type. *)
Definition astype (t : dtype) (x : float) : float :=
  match x with
  | S754_finite s m e => binary_round (prec_of t) (emax_of t) s m e
  | other => other
  end.

(** A one-dimensional and a two-dimensional array. *)
Record ndarray : Type := { dtype_of : dtype; items : list float }.
Record ndarray2 : Type := { dtype2 : dtype; rows : list (list float) }.

(** [np.result_type] of float32 and float64 arrays. *)
Definition result_type (ts : list dtype) : dtype :=
  if existsb (fun t => match t with float64 => true | float32 => false end) ts
  then float64 else float32.

(** The items of [a] in an array of dtype [t], [t] being [a]'s own dtype
    or the wider one. *)
Definition promoted (t : dtype) (a : ndarray) : list float :=
  match dtype_of a, t with
  | float32, float64 => astype float64 <$> items a
  | _, _ => items a
  end.

Definition stacked (arrays : list ndarray) : ndarray2 :=
  let t := result_type (dtype_of <$> arrays) in
  {| dtype2 := t; rows := promoted t <$> arrays |}.

(** [np.stack(arrays)] of one-dimensional arrays. *)
Definition np_stack (arrays : list ndarray) : result ndarray2 :=
  match arrays with
  | [] => Raise (ValueError "need at least one array to stack")
  | a :: rest =>
      if forallb (fun a' => Nat.eqb (length (items a')) (length (items a))) rest
      then Ok (stacked arrays)
      else Raise (ValueError "all input arrays must have the same shape")
  end.

(** [np.mean(m, axis=0)]: a reduction along the first axis adds the rows
    one after the other into a row of sums, in the dtype of [m]; the sums
    are then divided by the row count.  (On a float32 array numpy 1
    divides in float32; numpy 2 divides in float64 and rounds the quotient
    to float32, which gives the same number.) *)
Definition add_row (t : dtype) (acc row : list float) : list float :=
  zip_with (add_at t) acc row.
Definition np_mean_axis0 (m : ndarray2) : ndarray :=
  let t := dtype2 m in
  match rows m with
  | [] => {| dtype_of := t; items := [] |}
  | r :: _ =>
      let sums := fold_left (add_row t) (rows m) (replicate (length r) neg_zero) in
      {| dtype_of := t;
         items := (fun s => div_at t s (of_Z_at t (Z.of_nat (length (rows m))))) <$> sums |}
  end.

(** [a.tolist()]: the items as Python floats. *)
Definition item (t : dtype) (x : float) : float :=
  match t with float64 => x | float32 => astype float64 x end.
Definition tolist (a : ndarray) : list float := item (dtype_of a) <$> items a.
End Py.

(** ** The audio processor *)

Module Audio.
Import F64.

(** The tail of [AudioProcessor._estimate_formants].  [peak_freqs] is
    [freqs[peaks]], the float64 frequencies of the spectral peaks that
    numpy and scipy hand back; the function keeps the four lowest and
    then drops those that are not above zero:
    [sorted(freqs[peaks])[:4]], [[float(f) for f in ... if f > 0]]. *)
Definition _estimate_formants (peak_freqs : list float) : list float :=
  let formant_freqs := take 4 (Py.sorted peak_freqs) in
  List.filter (fun f => ltb (of_Z 0) f) formant_freqs.
End Audio.

(** ** The profile combiner *)

Module Combiner.
Import F64.

Record VoiceCharacteristics : Type := {
  fundamental_frequency : float;
  spectral_centroid : float;
  spectral_rolloff : float;
  zero_crossing_rate : float;
  mfcc_features : Py.ndarray;
  chroma_features : Py.ndarray;
  tempo : float;
  pitch_variance : float;
  formants : list float;
  voice_quality_score : float
}.

(** Values of the dict [_combine_voice_characteristics] returns. *)
Inductive PVal : Type :=
  | PNum (x : float)
  | PVec (v : list float).

(** [[500, 1500, 2500, 3500]]; Python ints, equal to these doubles. *)
Definition default_formants : list float :=
  Eval vm_compute in [of_Z 500; of_Z 1500; of_Z 2500; of_Z 3500].

Definition all_formants (characteristics_list : list VoiceCharacteristics) : list float :=
  concat (formants <$> characteristics_list).

Definition combined_formants (characteristics_list : list VoiceCharacteristics) : list float :=
  match all_formants characteristics_list with
  | [] => default_formants
  | fs => take 4 (Py.sorted (Py.set fs))
  end.

Definition _combine_voice_characteristics
    (characteristics_list : list VoiceCharacteristics) : result (gmap string PVal) :=
  match characteristics_list with
  | [] => Raise (ValueError "No voice characteristics to combine")
  | _ =>
    let mean_of f := PNum (Py.np_mean (f <$> characteristics_list)) in
    let combined : gmap string PVal :=
      <["voice_quality_score" := mean_of voice_quality_score]>
      (<["pitch_variance" := mean_of pitch_variance]>
      (<["tempo" := mean_of tempo]>
      (<["zero_crossing_rate" := mean_of zero_crossing_rate]>
      (<["spectral_rolloff" := mean_of spectral_rolloff]>
      (<["spectral_centroid" := mean_of spectral_centroid]>
      (<["fundamental_frequency" := mean_of fundamental_frequency]> ∅)))))) in
    match Py.np_stack (mfcc_features <$> characteristics_list) with
    | Raise e => Raise e
    | Ok mfcc_stack =>
      match Py.np_stack (chroma_features <$> characteristics_list) with
      | Raise e => Raise e
      | Ok chroma_stack =>
        let combined :=
          <["mfcc_features" := PVec (Py.tolist (Py.np_mean_axis0 mfcc_stack))]> combined in
        let combined :=
          <["chroma_features" := PVec (Py.tolist (Py.np_mean_axis0 chroma_stack))]> combined in
        Ok (<["formants" := PVec (combined_formants characteristics_list)]> combined)
      end
    end
  end.
End Combiner.

(** ** The quality scorer *)

Module Scorer.
Import F64 Combiner.

(** numpy's global generator: the standard-normal variates it will hand
    out, and how many have been taken. *)
Record Rng : Type := { variates : nat -> float; drawn : nat }.

Definition standard_normal (g : Rng) : float * Rng :=
  (variates g (drawn g), {| variates := variates g; drawn := S (drawn g) |}).

(** [np.random.normal(loc, scale)] is [loc + scale * standard_normal()]. *)
Definition np_random_normal (loc scale : float) (g : Rng) : float * Rng :=
  let (z, g') := standard_normal g in (add loc (mul scale z), g').


Definition quality_multipliers : gmap string float :=
  <["premium" := lit 95 100]>
  (<["high" := lit 9 10]>
  (<["standard" := lit 8 10]>
  (<["draft" := lit 7 10]> ∅))).

(** [quality_multipliers.get(quality, 0.8)] *)
Definition multiplier_of (quality : string) : float :=
  default (lit 8 10) (quality_multipliers !! quality).


(** The perturbation of one call: [np.random.normal(0, 0.05)]. *)
Definition perturbation (g : Rng) : float * Rng :=
  np_random_normal (of_Z 0) (lit 5 100) g.

Definition _validate_model_quality
    (characteristics : gmap string PVal) (quality : string) (g : Rng)
    : result float * Rng :=
  let base_quality := default (PNum (lit 5 10)) (characteristics !! "voice_quality_score") in
  let multiplier := multiplier_of quality in
  match base_quality with
  | PVec _ => (Raise (TypeError "can't multiply sequence by non-int of type 'float'"), g)
  | PNum b =>
      let (noise, g') := perturbation g in
      let final_score := Py.min one (add (mul b multiplier) noise) in
      (Ok (Py.max zero final_score), g')
  end.
End Scorer.

(** ** Job records, stored models and the worker's language *)

Module Job.
Import F64 Combiner.

(** Values held by a job dict.  [JTime] is a [datetime] (its ISO text),
    [JErr] the text [str(e)] of a caught exception, [JFuture] the handle
    returned by [executor.submit] (its state lives in the engine). *)
Inductive JVal : Type :=
  | JStr (s : string)
  | JNum (q : Q)
  | JFloat (x : float)
  | JList (l : list string)
  | JTime (iso : string)
  | JErr (e : exn)
  | JFuture.

(** The dict pickled into [<job_id>.pkl]; a key may be missing from a
    file written by something else. *)
Record model_data : Type := {
  md_voice_name : option string;
  md_language : option string;
  md_quality : option string;
  md_characteristics : option (gmap string PVal);
  md_training_duration : option float;
  md_quality_score : option float;
  md_created_at : option string;
  md_model_version : option string
}.

(** What [pickle.load] makes of a file's bytes. *)
Inductive pickled : Type :=
  | Garbage                       (* unpickling raises *)
  | NotADict                      (* an object without [.get] *)
  | ModelDict (d : model_data).

(** [locked]: [unlink] on the file raises (no permission). *)
Record file : Type := { content : pickled; st_size : N; locked : bool }.

(** What [_train_voice_model] returns: the job dict, or
    [{'status': 'cancelled'}]. *)
Inductive outcome : Type := ReturnedJob | ReturnedCancelled.

(** The worker as a program over its job dict.  Each constructor is one
    effect of the source; a continuation receives what the effect
    produced. *)
Inductive W (A : Type) : Type :=
  | Ret (a : A)
  | Throw (e : exn)
  | SetItem (key : string) (v : JVal) (k : W A)            (* job[key] = v *)
  | GetItem (key : string) (k : option JVal -> W A)        (* job[key] *)
  | Now (k : string -> W A)                                (* datetime.now() *)
  | Dump (d : model_data) (k : result unit -> W A)          (* open + pickle.dump *)
  | Score (f : Scorer.Rng -> result float * Scorer.Rng)
          (k : result float -> W A).                       (* uses np.random *)
Arguments Ret {A} a.
Arguments Throw {A} e.
Arguments SetItem {A} key v k.
Arguments GetItem {A} key k.
Arguments Now {A} k.
Arguments Dump {A} d k.
Arguments Score {A} f k.

Fixpoint bind {A B} (m : W A) (f : A -> W B) : W B :=
  match m with
  | Ret a => f a
  | Throw e => Throw e
  | SetItem key v k => SetItem key v (bind k f)
  | GetItem key k => GetItem key (fun r => bind (k r) f)
  | Now k => Now (fun t => bind (k t) f)
  | Dump d k => Dump d (fun r => bind (k r) f)
  | Score g k => Score g (fun r => bind (k r) f)
  end.

(** [try: m except Exception as e: h e] *)
Fixpoint try_except {A} (m : W A) (h : exn -> W A) : W A :=
  match m with
  | Ret a => Ret a
  | Throw e => h e
  | SetItem key v k => SetItem key v (try_except k h)
  | GetItem key k => GetItem key (fun r => try_except (k r) h)
  | Now k => Now (fun t => try_except (k t) h)
  | Dump d k => Dump d (fun r => try_except (k r) h)
  | Score g k => Score g (fun r => try_except (k r) h)
  end.

Definition set_item (key : string) (v : JVal) : W unit := SetItem key v (Ret tt).
Definition get_item (key : string) : W (option JVal) := GetItem key Ret.
Definition now : W string := Now Ret.
Definition lift {A} (r : result A) : W A :=
  match r with Ok a => Ret a | Raise e => Throw e end.
Definition dump (d : model_data) : W unit := Dump d lift.
Definition score (f : Scorer.Rng -> result float * Scorer.Rng) : W float := Score f lift.

#[global] Instance W_ret : MRet W := @Ret.
#[global] Instance W_bind : MBind W := fun A B f m => bind m f.

(** The future of a submitted job, holding the call it will make. *)
Inductive future : Type :=
  | Pending (call : W outcome)
  | Running (rest : W outcome)
  | Finished
  | Cancelled.
End Job.

(** ** The engine: registry, futures, model directory *)

Module Engine.
Import F64 Combiner Job.
Open Scope Q_scope.

(** What the file system does when the worker saves its model.
    [open(model_path, 'wb')] creates the file, or empties the one that is
    there, before [pickle.dump] writes a byte, and nothing removes the file
    when the write then fails. *)
Inductive disk_state : Type :=
  | Writable                     (* the file is opened and written *)
  | Unopenable                   (* [open] raises: no file is touched *)
  | Full (written : N).          (* [pickle.dump] raises, [written] bytes on disk *)

(** The process state.  [training_jobs] is the registry dict.  A worker
    holds its own reference to its job dict
    ([job = self.training_jobs[job_id]]) and goes on writing to it after
    the registry entry is deleted: [detached] keeps the dicts that are no
    longer in the registry. *)
Record state : Type := {
  training_jobs : gmap string (gmap string JVal);
  detached : gmap string (gmap string JVal);
  futures : gmap string future;
  model_dir : gmap string file;            (* [<id>.pkl], by stem *)
  disk : disk_state;                       (* can a model file be written? *)
  rng : Scorer.Rng;                        (* numpy's global generator *)
  clock : nat -> string;                   (* successive [datetime.now()] *)
  ticks : nat
}.

Definition with_jobs (st : state) jobs det : state :=
  {| training_jobs := jobs; detached := det; futures := futures st;
     model_dir := model_dir st; disk := disk st; rng := rng st;
     clock := clock st; ticks := ticks st |}.
Definition with_futures (st : state) fs : state :=
  {| training_jobs := training_jobs st; detached := detached st; futures := fs;
     model_dir := model_dir st; disk := disk st; rng := rng st;
     clock := clock st; ticks := ticks st |}.
Definition with_model_dir (st : state) md : state :=
  {| training_jobs := training_jobs st; detached := detached st; futures := futures st;
     model_dir := md; disk := disk st; rng := rng st;
     clock := clock st; ticks := ticks st |}.
Definition with_rng (st : state) g : state :=
  {| training_jobs := training_jobs st; detached := detached st; futures := futures st;
     model_dir := model_dir st; disk := disk st; rng := g;
     clock := clock st; ticks := ticks st |}.
Definition tick (st : state) : state :=
  {| training_jobs := training_jobs st; detached := detached st; futures := futures st;
     model_dir := model_dir st; disk := disk st; rng := rng st;
     clock := clock st; ticks := S (ticks st) |}.

(** The dict object of a job, in the registry or detached from it. *)
Definition job_object (st : state) (job_id : string) : option (gmap string JVal) :=
  match training_jobs st !! job_id with
  | Some job => Some job
  | None => detached st !! job_id
  end.

(** [job[key] = v] through a reference to the dict object of [job_id]. *)
Definition write_job (st : state) (job_id key : string) (v : JVal) : state :=
  match training_jobs st !! job_id with
  | Some job => with_jobs st (<[job_id := <[key := v]> job]> (training_jobs st)) (detached st)
  | None => with_jobs st (training_jobs st) (alter (insert key v) job_id (detached st))
  end.

(** [Future.cancel()]: only a call that has not started is cancelled. *)
Definition future_cancel (f : future) : future :=
  match f with
  | Pending _ => Cancelled
  | other => other
  end.

(** [get_training_status]: a copy of the job dict, without its future,
    with [created_at] as ISO text.  Only a [datetime] has [isoformat]. *)
Definition get_training_status (job_id : string) (st : state)
    : result (gmap string JVal) :=
  match training_jobs st !! job_id with
  | None => Raise (ValueError ("Job " +:+ job_id +:+ " not found"))
  | Some registered =>
      let job := delete "future" registered in
      match job !! "created_at" with
      | Some (JTime iso) => Ok (<["created_at" := JStr iso]> job)
      | Some _ => Raise (AttributeError "object has no attribute 'isoformat'")
      | None => Ok job
      end
  end.

Definition cancel_training (job_id : string) (st : state) : bool * state :=
  match training_jobs st !! job_id with
  | None => (false, st)
  | Some job =>
      let st :=
        match job !! "future" with
        | Some _ => with_futures st (alter future_cancel job_id (futures st))
        | None => st
        end in
      let st := write_job st job_id "status" (JStr "cancelled") in
      let st := write_job st job_id "progress" (JNum 0) in
      (true, st)
  end.

(** [min(a, b)] on exact numbers. *)
Definition Qltb (a b : Q) : bool := negb (Qle_bool b a).
Definition py_min (a b : Q) : Q := if Qltb b a then b else a.

Definition base_time : gmap string Z :=
  <["premium" := 600%Z]> (<["high" := 300%Z]> (<["standard" := 120%Z]> (<["draft" := 30%Z]> ∅))).

Definition _estimate_training_time (num_files : nat) (quality : string) : Z :=
  let file_multiplier := py_min (inject_Z (Z.of_nat num_files) * (1 # 2)) 3 in
  Qfloor (inject_Z (default 120%Z (base_time !! quality)) * file_multiplier).

(** [del self.training_jobs[job_id]] when the key is there; the dict
    object stays reachable from its worker. *)
Definition forget_job (job_id : string) (st : state) : state :=
  match training_jobs st !! job_id with
  | Some job => with_jobs st (delete job_id (training_jobs st)) (<[job_id := job]> (detached st))
  | None => st
  end.

Definition delete_voice_model (job_id : string) (st : state) : bool * state :=
  match model_dir st !! job_id with
  | Some f =>
      if locked f then (false, st)          (* [unlink] raised: [except] branch *)
      else (true, forget_job job_id (with_model_dir st (delete job_id (model_dir st))))
  | None => (true, forget_job job_id st)
  end.

(** The summary dict built for one model file. *)
Record model_info : Type := {
  mi_id : string;
  mi_name : string;
  mi_language : string;
  mi_quality : string;
  mi_quality_score : float;
  mi_created_at : option string;            (* [None] when the key is missing *)
  mi_file_size : N
}.

Definition load_voice_model (f : file) : result pickled :=
  match content f with
  | Garbage => Raise (ValueError "Invalid voice model")
  | other => Ok other
  end.

(** The body of the [try] in [list_voice_models] for one file. *)
Definition read_model (stem : string) (f : file) : result model_info :=
  match load_voice_model f with
  | Raise e => Raise e
  | Ok NotADict => Raise (AttributeError "object has no attribute 'get'")
  | Ok Garbage => Raise (ValueError "Invalid voice model")
  | Ok (ModelDict d) =>
      Ok {| mi_id := stem;
            mi_name := default "Unknown"%string (md_voice_name d);
            mi_language := default "en-US"%string (md_language d);
            mi_quality := default "standard"%string (md_quality d);
            mi_quality_score := default zero (md_quality_score d);
            mi_created_at := md_created_at d;
            mi_file_size := st_size f |}
  end.

(** The loop of [list_voice_models]: a file whose body raises is skipped. *)
Definition collect_models (files : list (string * file)) : list model_info :=
  omap (fun '(stem, f) =>
          match read_model stem f with Ok mi => Some mi | Raise _ => None end) files.

(** [a < b] on sort keys: two strings compare by code points; [None]
    compares with nothing. *)
Definition key_lt (a b : option string) : result bool :=
  match a, b with
  | Some x, Some y => Ok (String.ltb x y)
  | _, _ => Raise (TypeError "'<' not supported between instances")
  end.

(** [sorted(models, key=..., reverse=True)]: the list is reversed, sorted
    stably in ascending key order, and reversed again.  A comparison that
    raises ends the sort; with two or more elements every element takes
    part in a comparison. *)
Fixpoint insert_by (x : model_info) (s : list model_info) : result (list model_info) :=
  match s with
  | [] => Ok [x]
  | e :: r =>
      match key_lt (mi_created_at x) (mi_created_at e) with
      | Raise err => Raise err
      | Ok true => Ok (x :: e :: r)
      | Ok false =>
          match insert_by x r with
          | Raise err => Raise err
          | Ok r' => Ok (e :: r')
          end
      end
  end.
Definition sorted_by_created_at (xs : list model_info) : result (list model_info) :=
  fold_left (fun acc x => match acc with Raise e => Raise e | Ok s => insert_by x s end)
            xs (Ok []).
Definition sorted_newest_first (xs : list model_info) : result (list model_info) :=
  match sorted_by_created_at (reverse xs) with
  | Raise e => Raise e
  | Ok s => Ok (reverse s)
  end.

(** [list_voice_models] over the files [glob("*.pkl")] yields, in the
    order it yields them. *)
Definition list_models_of (files : list (string * file)) : result (list model_info) :=
  sorted_newest_first (collect_models files).
Definition list_voice_models (st : state) : result (list model_info) :=
  list_models_of (map_to_list (model_dir st)).
End Engine.

(** ** The training worker *)

Module Worker.
Import F64 Combiner Job Engine.
Open Scope Q_scope.

(** What the worker asks of the outside world.  The audio files are taken
    not to change while a job runs. *)
Record Env : Type := {
  path_exists : string -> bool;                       (* os.path.exists *)
  librosa_load : string -> option (N * positive);     (* samples, rate *)
  extract : string -> result VoiceCharacteristics;    (* preprocess + extract *)
  pickle_size : model_data -> N;
  model_dir_name : string
}.

(** [AudioProcessor.load_audio]: any failure becomes a [ValueError]. *)
Definition load_audio (env : Env) (file_path : string) : result (N * positive) :=
  match librosa_load env file_path with
  | Some a => Ok a
  | None => Raise (ValueError "Invalid audio file")
  end.

Definition stages : list (string * Q) :=
  [ ("Analyzing audio quality"%string, 10);
    ("Extracting voice characteristics"%string, 20);
    ("Preprocessing audio data"%string, 35);
    ("Training neural network"%string, 70);
    ("Optimizing voice model"%string, 85);
    ("Validating output quality"%string, 95);
    ("Finalizing model"%string, 100) ].

(** [stages[k][0]] and [stages[k][1]] *)
Definition stage_name (k : nat) : string := fst (nth k stages (""%string, 0)).
Definition stage_mark (k : nat) : Q := snd (nth k stages (""%string, 0)).

Definition training_iterations : gmap string nat :=
  <["premium" := 50%nat]> (<["high" := 30%nat]> (<["standard" := 15%nat]> (<["draft" := 5%nat]> ∅))).

Definition Qnat (n : nat) : Q := inject_Z (Z.of_nat n).

(** Stage 1: every file must exist, load, and last two seconds. *)
Fixpoint analyze (env : Env) (audio_files : list string) (total_audio_duration : float)
    : result float :=
  match audio_files with
  | [] => Ok total_audio_duration
  | file_path :: rest =>
      if negb (path_exists env file_path) then Raise (FileNotFoundError file_path)
      else
        match load_audio env file_path with
        | Raise e => Raise e
        | Ok (samples, sr) =>
            let duration := div (of_Z (Z.of_N samples)) (of_Z (Zpos sr)) in
            let total_audio_duration := add total_audio_duration duration in
            if ltb duration (of_Z 2) then Raise (ValueError "Audio file too short")
            else analyze env rest total_audio_duration
        end
  end.

(** Stage 2: [for i, file_path in enumerate(audio_files)]. *)
Fixpoint extract_all (env : Env) (num_files i : nat) (audio_files : list string)
    (voice_characteristics_list : list VoiceCharacteristics)
    : W (list VoiceCharacteristics) :=
  match audio_files with
  | [] => mret voice_characteristics_list
  | file_path :: rest =>
      _ ← lift (load_audio env file_path);
      characteristics ← lift (extract env file_path);
      let stage_progress :=
        stage_mark 1 + (stage_mark 2 - stage_mark 1) * Qnat (i + 1) / Qnat num_files in
      set_item "progress" (JNum (py_min stage_progress (stage_mark 2)));;
      extract_all env num_files (S i) rest (voice_characteristics_list ++ [characteristics])
  end.

Definition is_cancelled (v : JVal) : bool :=
  match v with JStr s => String.eqb s "cancelled" | _ => false end.

(** Stage 4: [for i in range(iterations)]; the result tells whether the
    loop left the function through [return {'status': 'cancelled'}]. *)
Fixpoint train_iterations (iterations remaining i : nat) : W bool :=
  match remaining with
  | O => mret false
  | S remaining =>
      status ← get_item "status";
      match status with
      | None => Throw (KeyError "status")
      | Some v =>
          if is_cancelled v then mret true
          else
            let iteration_progress :=
              stage_mark 3 + (stage_mark 4 - stage_mark 3) * Qnat i / Qnat iterations in
            set_item "progress" (JNum iteration_progress);;
            set_item "stage_details"
              (JStr ("Training iteration " +:+ pretty (i + 1)%nat +:+ "/" +:+ pretty iterations));;
            train_iterations iterations remaining (S i)
      end
  end.

(** The body of the [try]. *)
Definition train_body (env : Env) (job_id : string) (audio_files : list string)
    (voice_name quality language : string) : W outcome :=
  (* Stage 1: analyze audio quality *)
  set_item "status" (JStr "analyzing");;
  set_item "current_stage" (JStr (stage_name 0));;
  set_item "progress" (JNum (stage_mark 0));;
  total_audio_duration ← lift (analyze env audio_files (of_Z 0));
  (* Stage 2: extract voice characteristics *)
  set_item "current_stage" (JStr (stage_name 1));;
  set_item "progress" (JNum (stage_mark 1));;
  voice_characteristics_list ← extract_all env (length audio_files) 0 audio_files [];
  (* Stage 3: preprocessing *)
  set_item "current_stage" (JStr (stage_name 2));;
  set_item "progress" (JNum (stage_mark 2));;
  combined_characteristics ← lift (_combine_voice_characteristics voice_characteristics_list);
  (* Stage 4: neural network training (simulated) *)
  set_item "status" (JStr "training");;
  set_item "current_stage" (JStr (stage_name 3));;
  let iterations := default 15%nat (training_iterations !! quality) in
  cancelled ← train_iterations iterations iterations 0;
  if (cancelled : bool) then mret ReturnedCancelled
  else
    (* Stage 5: optimization *)
    set_item "current_stage" (JStr (stage_name 4));;
    set_item "progress" (JNum (stage_mark 4));;
    (* Stage 6: validation *)
    set_item "current_stage" (JStr (stage_name 5));;
    set_item "progress" (JNum (stage_mark 5));;
    quality_score ← score (Scorer._validate_model_quality combined_characteristics quality);
    (* Stage 7: finalization *)
    set_item "current_stage" (JStr (stage_name 6));;
    set_item "progress" (JNum (stage_mark 6));;
    created_at ← now;
    dump {| md_voice_name := Some voice_name;
            md_language := Some language;
            md_quality := Some quality;
            md_characteristics := Some combined_characteristics;
            md_training_duration := Some total_audio_duration;
            md_quality_score := Some quality_score;
            md_created_at := Some created_at;
            md_model_version := Some "1.0"%string |};;
    (* Complete job *)
    set_item "status" (JStr "completed");;
    set_item "model_path" (JStr (model_dir_name env +:+ "/" +:+ job_id +:+ ".pkl"));;
    set_item "quality_score" (JFloat quality_score);;
    set_item "total_duration" (JFloat total_audio_duration);;
    completed_at ← now;
    set_item "completed_at" (JTime completed_at);;
    mret ReturnedJob.

(** The [except Exception as e] branch. *)
Definition train_failed (e : exn) : W outcome :=
  set_item "status" (JStr "failed");;
  set_item "error" (JErr e);;
  failed_at ← now;
  set_item "failed_at" (JTime failed_at);;
  mret ReturnedJob.

Definition _train_voice_model (env : Env) (job_id : string) (audio_files : list string)
    (voice_name quality language : string) : W outcome :=
  try_except (train_body env job_id audio_files voice_name quality language) train_failed.

(** [start_voice_cloning], with the id [uuid.uuid4()] produced (taken to
    be an id no job has had).  The three statements (create the record,
    submit, store the future) are taken as one step; the submitted call
    starts at a later step. *)
Definition start_voice_cloning (env : Env) (job_id : string) (audio_files : list string)
    (voice_name quality language : string) (st : state) : string * state :=
  let record : gmap string JVal :=
    <["future" := JFuture]>
    (<["estimated_duration" :=
         JNum (inject_Z (_estimate_training_time (length audio_files) quality))]>
    (<["audio_files" := JList audio_files]>
    (<["created_at" := JTime (clock st (ticks st))]>
    (<["current_stage" := JStr "Preparing for training..."]>
    (<["progress" := JNum 0]>
    (<["status" := JStr "initializing"]>
    (<["language" := JStr language]>
    (<["quality" := JStr quality]>
    (<["voice_name" := JStr voice_name]>
    (<["id" := JStr job_id]> ∅)))))))))) in
  let call := _train_voice_model env job_id audio_files voice_name quality language in
  let st := tick st in
  let st := with_jobs st (<[job_id := record]> (training_jobs st)) (detached st) in
  (job_id, with_futures st (<[job_id := Pending call]> (futures st))).

(** [with open(model_path, 'wb') as f: pickle.dump(model_data, f)]: the
    directory afterwards, and whether the block raised.  A write that
    fails after [open] leaves a file that does not unpickle. *)
Definition write_model (env : Env) (job_id : string) (d : model_data) (st : state)
    : gmap string file * result unit :=
  match disk st with
  | Writable =>
      let f := {| content := ModelDict d; st_size := pickle_size env d; locked := false |} in
      (<[job_id := f]> (model_dir st), Ok tt)
  | Unopenable => (model_dir st, Raise (OSError "cannot write model file"))
  | Full written =>
      let f := {| content := Garbage; st_size := written; locked := false |} in
      (<[job_id := f]> (model_dir st), Raise (OSError "cannot write model file"))
  end.

(** One step of the thread that runs the future of [job_id]. *)
Definition set_future (st : state) (job_id : string) (f : future) : state :=
  with_futures st (<[job_id := f]> (futures st)).

Definition work (env : Env) (job_id : string) (st : state) : state :=
  match futures st !! job_id with
  | Some (Pending call) =>
      (* [job = self.training_jobs[job_id]], outside the [try] *)
      match training_jobs st !! job_id with
      | Some _ => set_future st job_id (Running call)
      | None => set_future st job_id Finished
      end
  | Some (Running p) =>
      match p with
      | Ret _ | Throw _ => set_future st job_id Finished
      | SetItem key v k => set_future (write_job st job_id key v) job_id (Running k)
      | GetItem key k =>
          set_future st job_id (Running (k (job_object st job_id ≫= (.!! key))))
      | Now k => set_future (tick st) job_id (Running (k (clock st (ticks st))))
      | Dump d k =>
          let (files, r) := write_model env job_id d st in
          set_future (with_model_dir st files) job_id (Running (k r))
      | Score f k =>
          let (r, g) := f (rng st) in
          set_future (with_rng st g) job_id (Running (k r))
      end
  | Some Finished | Some Cancelled | None => st
  end.

(** What can happen next: a worker thread advances, or the API layer
    cancels or deletes. *)
Inductive event : Type :=
  | Work (job_id : string)
  | Cancel (job_id : string)
  | Delete (job_id : string).

Definition step (env : Env) (ev : event) (st : state) : state :=
  match ev with
  | Work job_id => work env job_id st
  | Cancel job_id => snd (cancel_training job_id st)
  | Delete job_id => snd (delete_voice_model job_id st)
  end.

(** The states passed through by a schedule, the initial one first. *)
Fixpoint run (env : Env) (schedule : list event) (st : state) : list state :=
  st :: match schedule with
        | [] => []
        | ev :: rest => run env rest (step env ev st)
        end.

(** The successive values of one job's dict. *)
Definition history (env : Env) (job_id : string) (schedule : list event) (st : state)
    : list (gmap string JVal) :=
  omap (fun s => job_object s job_id) (run env schedule st).
End Worker.

(** * The vocabulary of the statements, and sample inputs *)

(** ** Samples, profiles and their formants *)

Section profile_terms.
Import F64 Combiner Scorer.

(** The samples the theorems speak of: 13 MFCC coefficients, 12 chroma
    bins, formants that are positive finite frequencies. *)
Definition fixed_lengths (c : VoiceCharacteristics) : Prop :=
  length (Py.items (mfcc_features c)) = 13%nat
  /\ length (Py.items (chroma_features c)) = 12%nat.

Definition frequency_formants (c : VoiceCharacteristics) : Prop :=
  Forall is_frequency (formants c).

(** Three samples that differ in their quality score only; their
    vectors are float32 arrays, as the extractor builds them. *)
Definition sample (score : float) (fs : list float) : VoiceCharacteristics :=
  {| fundamental_frequency := of_Z 150; spectral_centroid := of_Z 2000;
     spectral_rolloff := of_Z 4000; zero_crossing_rate := lit 5 100;
     mfcc_features :=
       {| Py.dtype_of := Py.float32;
          Py.items := replicate 13 (Py.of_Z_at Py.float32 1) |};
     chroma_features :=
       {| Py.dtype_of := Py.float32;
          Py.items := replicate 12 (Py.div_at Py.float32 (Py.of_Z_at Py.float32 1)
                                                         (Py.of_Z_at Py.float32 2)) |};
     tempo := of_Z 120; pitch_variance := of_Z 10; formants := fs;
     voice_quality_score := score |}.

Definition three_samples : list VoiceCharacteristics :=
  [ sample (lit 1 10) [of_Z 700; of_Z 300];
    sample (lit 2 10) [of_Z 300; of_Z 2400];
    sample (lit 3 10) [] ].

(** The deduplicated, ascending union: strictly ascending (so sorted and
    free of duplicates) with exactly the values of the argument. *)
Definition ascending_distinct (xs u : list float) : Prop :=
  StronglySorted lt u /\ (forall x, x ∈ u <-> x ∈ xs).

(** One column of a stack of rows. *)
Definition column (i : nat) (rows : list (list float)) : list float :=
  (fun r => nth i r zero) <$> rows.

(** The mean of a column of an array of dtype [t]: its values added in
    order, in [t], and the sum divided by their number, in [t]. *)
Definition column_mean (t : Py.dtype) (xs : list float) : float :=
  Py.div_at t (fold_left (Py.add_at t) xs neg_zero) (Py.of_Z_at t (Z.of_nat (length xs))).

(** Component [i] of the mean of the arrays: the mean of their [i]-th
    items, taken at the common dtype of the arrays, as a Python float. *)
Definition component_mean (i : nat) (arrays : list Py.ndarray) : float :=
  let t := Py.result_type (Py.dtype_of <$> arrays) in
  Py.item t (column_mean t (column i (Py.promoted t <$> arrays))).

(** The scores 0.1, 0.2, ..., 0.8. *)
Definition eight_scores : list float :=
  (fun k => lit k 10) <$> [1; 2; 3; 4; 5; 6; 7; 8]%Z.

(** Arrays of one length: what [np.stack] asks for. *)
Definition same_shape (arrays : list Py.ndarray) : Prop :=
  exists n, Forall (fun a => length (Py.items a) = n) arrays.

(** The reading of C7. *)
Definition order_independent : Prop :=
  forall l l' : list VoiceCharacteristics,
    l <> [] -> l ≡ₚ l' ->
    _combine_voice_characteristics l' = _combine_voice_characteristics l.

Definition quality_of (r : result (gmap string PVal)) : option PVal :=
  match r with Ok p => p !! "voice_quality_score" | Raise _ => None end.


(** A profile with quality 0.9, and a generator about to hand out 1.0 and
    then -1.0 for ever. *)
Definition sample_profile : gmap string PVal :=
  {[ "voice_quality_score"%string := PNum (lit 9 10) ]}.

Definition sample_rng : Rng :=
  {| variates := fun n => match n with O => of_Z 1 | _ => of_Z (-1) end; drawn := 0 |}.
End profile_terms.

(** ** Registry and model directory *)

Section registry_terms.
Import Job Engine.
Open Scope Q_scope.

(** An engine that holds nothing, and engines that hold one job. *)
Definition idle_rng : Scorer.Rng :=
  {| Scorer.variates := fun _ => F64.zero; Scorer.drawn := 0 |}.

Definition empty_engine : state :=
  {| training_jobs := ∅; detached := ∅; futures := ∅; model_dir := ∅;
     disk := Writable; rng := idle_rng; clock := fun n => pretty n; ticks := 0 |}.

Definition registry_with (job_id : string) (job : gmap string JVal) : state :=
  {| training_jobs := {[ job_id := job ]}; detached := ∅; futures := ∅;
     model_dir := ∅; disk := Writable; rng := idle_rng;
     clock := fun n => pretty n; ticks := 0 |}.

(** A record half way through its analysis, and one of a finished job. *)
Definition analyzing_job : gmap string JVal :=
  <["progress" := JNum 10]> (<["status" := JStr "analyzing"]> ∅).

Definition completed_job : gmap string JVal :=
  <["progress" := JNum 100]> (<["status" := JStr "completed"]> ∅).

(** The record [cancel_training] leaves for a registered job. *)
Definition cancelled_record (job : gmap string JVal) : gmap string JVal :=
  <["progress" := JNum 0]> (<["status" := JStr "cancelled"]> job).

(** The reading of C4: after the call the record is the old one with only
    [status] replaced. *)
Definition cancel_flips_status_only : Prop :=
  forall job_id st job,
    training_jobs st !! job_id = Some job ->
    training_jobs (snd (cancel_training job_id st)) !! job_id
    = Some (<["status" := JStr "cancelled"]> job).

Definition terminal (s : string) : Prop :=
  s = "completed"%string \/ s = "failed"%string \/ s = "cancelled"%string.

(** The reading of C5 for terminal jobs: the call returns false and leaves
    the state alone. *)
Definition cancel_refuses_terminal : Prop :=
  forall job_id st job s,
    training_jobs st !! job_id = Some job ->
    job !! "status" = Some (JStr s) -> terminal s ->
    cancel_training job_id st = (false, st).

(** The reading of C9 for an unknown id. *)
Definition delete_unknown_is_false : Prop :=
  forall job_id st,
    model_dir st !! job_id = None -> training_jobs st !! job_id = None ->
    fst (delete_voice_model job_id st) = false.

(** A summary that carries its date; the order of a listing. *)
Definition dated (mi : model_info) : Prop := is_Some (mi_created_at mi).

(** [x] is listed before [y]: it is not older. *)
Definition not_older (x y : model_info) : Prop :=
  match mi_created_at x, mi_created_at y with
  | Some a, Some b => String.leb b a = true
  | _, _ => False
  end.

Definition not_newer (x y : model_info) : Prop := not_older y x.

(** Two model files that both load; the first was pickled without a
    [created_at] key. *)
Definition undated_model : model_data :=
  {| md_voice_name := Some "Alice"%string; md_language := Some "en-US"%string;
     md_quality := Some "standard"%string; md_characteristics := None;
     md_training_duration := None; md_quality_score := Some F64.one;
     md_created_at := None; md_model_version := Some "1.0"%string |}.

Definition dated_model : model_data :=
  {| md_voice_name := Some "Bob"%string; md_language := Some "en-US"%string;
     md_quality := Some "standard"%string; md_characteristics := None;
     md_training_duration := None; md_quality_score := Some F64.one;
     md_created_at := Some "2024-01-01T00:00:00"%string;
     md_model_version := Some "1.0"%string |}.

Definition two_model_files : list (string * file) :=
  [ ("a"%string, {| content := ModelDict undated_model; st_size := 100; locked := false |});
    ("b"%string, {| content := ModelDict dated_model; st_size := 100; locked := false |}) ].

Definition two_model_engine : state :=
  {| training_jobs := ∅; detached := ∅; futures := ∅;
     model_dir := list_to_map two_model_files;
     disk := Writable; rng := idle_rng; clock := fun n => pretty n; ticks := 0 |}.
End registry_terms.

(** ** The job record under the worker *)

Section worker_terms.
Import Job Engine Worker.
Open Scope Q_scope.

(** What the logic tracks of a job dict: the three entries the claims are
    about, and how many rows of the stage table the record has shown so
    far, in order. *)
Record view : Type := {
  v_status : string;
  v_stage : string;
  v_progress : Q;
  v_passed : nat
}.

(** The record shows a row of the table: its label is the current stage
    and its mark the progress. *)
Definition shows (row : string * Q) (stage : string) (progress : Q) : bool :=
  String.eqb (fst row) stage && Qeq_bool (snd row) progress.

Definition next_row (passed : nat) : string * Q := nth passed stages (""%string, 0).

Definition observe (status stage : string) (progress : Q) (passed : nat) : view :=
  {| v_status := status; v_stage := stage; v_progress := progress;
     v_passed := if shows (next_row passed) stage progress then S passed else passed |}.

(** The view after [job[key] = v]; [None] for a value of the wrong type. *)
Definition write_view (key : string) (v : JVal) (s : view) : option view :=
  if String.eqb key "status" then
    match v with
    | JStr x => Some {| v_status := x; v_stage := v_stage s;
                        v_progress := v_progress s; v_passed := v_passed s |}
    | _ => None
    end
  else if String.eqb key "current_stage" then
    match v with
    | JStr x => Some (observe (v_status s) x (v_progress s) (v_passed s))
    | _ => None
    end
  else if String.eqb key "progress" then
    match v with
    | JNum q => Some (observe (v_status s) (v_stage s) q (v_passed s))
    | _ => None
    end
  else Some s.

Definition agrees (job : gmap string JVal) (s : view) : Prop :=
  job !! "status" = Some (JStr (v_status s))
  /\ job !! "current_stage" = Some (JStr (v_stage s))
  /\ job !! "progress" = Some (JNum (v_progress s)).

(** The statuses under which the worker leaves progress at 100. *)
Definition finalizing (status : string) : Prop :=
  status = "training"%string \/ status = "completed"%string \/ status = "failed"%string.

Definition good (s : view) : Prop :=
  (v_progress s == 100 -> finalizing (v_status s))
  /\ (v_status s = "completed"%string -> v_passed s = 7%nat).

(** What every write of the worker guarantees. *)
Definition guarantee (s s' : view) : Prop :=
  v_progress s <= v_progress s' /\ good s'.

(** [wp w Φ Ψ s]: from a record seen as [s], every write of [w] keeps the
    guarantee, [Φ] holds where [w] returns and [Ψ] where it raises, whatever
    the reads, the clock, the disk and the generator answer. *)
Fixpoint wp {A} (w : W A) (Φ : A -> view -> Prop) (Ψ : exn -> view -> Prop)
    (s : view) : Prop :=
  match w with
  | Ret a => Φ a s
  | Throw e => Ψ e s
  | SetItem key v k =>
      exists s', write_view key v s = Some s' /\ guarantee s s' /\ wp k Φ Ψ s'
  | GetItem _ k => forall r, wp (k r) Φ Ψ s
  | Now k => forall t, wp (k t) Φ Ψ s
  | Dump _ k => forall r, wp (k r) Φ Ψ s
  | Score _ k => forall r, wp (k r) Φ Ψ s
  end.

Definition top {A} : A -> view -> Prop := fun _ _ => True.

Definition initial_view : view :=
  {| v_status := "initializing"; v_stage := "Preparing for training...";
     v_progress := 0; v_passed := 0 |}.

Definition status_of (job : gmap string JVal) : option string :=
  match job !! "status" with Some (JStr x) => Some x | _ => None end.

Definition stage_of (job : gmap string JVal) : option string :=
  match job !! "current_stage" with Some (JStr x) => Some x | _ => None end.

Definition progress_of (job : gmap string JVal) : option Q :=
  match job !! "progress" with Some (JNum q) => Some q | _ => None end.

(** The successive progress values of a history. *)
Definition progresses (h : list (gmap string JVal)) : list Q := omap progress_of h.

Fixpoint nondecreasing (qs : list Q) : Prop :=
  match qs with
  | a :: r => match r with b :: _ => a <= b | [] => True end /\ nondecreasing r
  | [] => True
  end.

(** Progress is 100 only under these statuses. *)
Definition full_only_when (allowed : string -> Prop) (job : gmap string JVal) : Prop :=
  exists status q,
    status_of job = Some status /\ progress_of job = Some q
    /\ (q == 100 -> allowed status).

(** The record shows a row of the stage table. *)
Definition record_shows (row : string * Q) (job : gmap string JVal) : bool :=
  match stage_of job, progress_of job with
  | Some stage, Some q => shows row stage q
  | _, _ => false
  end.

(** The history shows the rows one after the other, in the order of the
    table. *)
Fixpoint passes (rows : list (string * Q)) (h : list (gmap string JVal)) : bool :=
  match h with
  | [] => match rows with [] => true | _ => false end
  | job :: h' =>
      match rows with
      | [] => true
      | row :: rest => if record_shows row job then passes rest h' else passes rows h'
      end
  end.

Definition ends_completed (h : list (gmap string JVal)) : Prop :=
  last h ≫= status_of = Some "completed"%string.

(** The record of [job_id] is seen as [s], and what is left of its worker
    keeps the guarantee from there. *)
Definition tracked (job_id : string) (st : state) (s : view) : Prop :=
  (exists job, job_object st job_id = Some job /\ agrees job s)
  /\ good s
  /\ match futures st !! job_id with
     | Some (Pending w) | Some (Running w) => wp w top top s
     | _ => True
     end.

Definition view_step (s s' : view) : Prop :=
  v_progress s <= v_progress s'
  /\ (v_passed s' = v_passed s
      \/ (v_passed s' = S (v_passed s)
          /\ shows (next_row (v_passed s)) (v_stage s') (v_progress s') = true)).

(** An environment with two five-second recordings. *)
Definition studio : Env :=
  {| path_exists := fun _ => true;
     librosa_load := fun _ => Some (110250%N, 22050%positive);
     extract := fun _ => Ok (sample (F64.lit 9 10) [F64.of_Z 300; F64.of_Z 700]);
     pickle_size := fun _ => 1000%N;
     model_dir_name := "models" |}.

Definition two_files : list string := ["a.wav"; "b.wav"]%string.

Definition submitted : state :=
  snd (start_voice_cloning studio "job" two_files "Alice" "draft" "en-US" empty_engine).

(** The two halves of C3, over every schedule of worker steps and API
    calls. *)
Definition progress_never_decreases : Prop :=
  forall env job_id audio_files voice_name quality language st schedule,
    nondecreasing
      (progresses
         (history env job_id schedule
            (snd (start_voice_cloning env job_id audio_files voice_name quality language st)))).

Definition full_only_when_completed : Prop :=
  forall env job_id audio_files voice_name quality language st schedule,
    Forall (full_only_when (fun status => status = "completed"%string))
      (history env job_id schedule
         (snd (start_voice_cloning env job_id audio_files voice_name quality language st))).

(** The table as the specification lists it. *)
Definition listed_stage_table : list (string * Q) :=
  [ ("Analyzing audio quality"%string, 10);
    ("Extracting voice characteristics"%string, 35);
    ("Preprocessing audio data"%string, 35);
    ("Training neural network"%string, 70);
    ("Optimizing voice model"%string, 85);
    ("Validating output quality"%string, 95);
    ("Finalizing model"%string, 100) ].
End worker_terms.

(** ** Shapes of profiles and of floats *)

Section shape_terms.
Import F64 Combiner Scorer.

(** The keys of a combined profile. *)
Definition profile_keys : gset string :=
  list_to_set
    [ "fundamental_frequency"; "spectral_centroid"; "spectral_rolloff";
      "zero_crossing_rate"; "tempo"; "pitch_variance"; "voice_quality_score";
      "mfcc_features"; "chroma_features"; "formants" ]%string.

(** The generator after one more draw. *)
Definition advance (g : Rng) : Rng :=
  {| variates := variates g; drawn := S (drawn g) |}.

(** Neither a NaN nor an infinity. *)
Definition finite (x : float) : Prop :=
  match x with S754_zero _ | S754_finite _ _ _ => True | _ => False end.
End shape_terms.

(** ** A directory with one model *)

Section listing_terms.
Import Job Engine.

(** An engine whose directory holds the one dated model. *)
Definition one_model_engine : state :=
  {| training_jobs := ∅; detached := ∅; futures := ∅;
     model_dir := {[ "b"%string :=
                       {| content := ModelDict dated_model; st_size := 100; locked := false |} ]};
     disk := Writable; rng := idle_rng; clock := fun n => pretty n; ticks := 0 |}.
End listing_terms.

(** ** Events and the states they lead to *)

Section isolation_terms.
Import Job Engine Worker.

(** The job an event is about. *)
Definition event_job (ev : event) : string :=
  match ev with Work j | Cancel j | Delete j => j end.
End isolation_terms.

Section liveness_terms.
Import F64 Combiner Job Engine Worker.

(** The worker [w] returns or raises after at most [n] effects, whatever
    the effects answer. *)
Fixpoint halts_within {A} (w : W A) (n : nat) : Prop :=
  match w with
  | Ret _ | Throw _ => True
  | SetItem _ _ k => match n with O => False | S n' => halts_within k n' end
  | GetItem _ k => match n with O => False | S n' => forall r, halts_within (k r) n' end
  | Now k => match n with O => False | S n' => forall t, halts_within (k t) n' end
  | Dump _ k => match n with O => False | S n' => forall r, halts_within (k r) n' end
  | Score _ k => match n with O => False | S n' => forall r, halts_within (k r) n' end
  end.

(** The future has ended, or ends within [n] steps of its thread. *)
Definition due (f : option future) (n : nat) : Prop :=
  match f with
  | Some (Pending w) => exists m, halts_within w m /\ (m + 2 <= n)%nat
  | Some (Running w) => exists m, halts_within w m /\ (m + 1 <= n)%nat
  | Some Finished | Some Cancelled => True
  | None => False
  end.

(** How many steps of the schedule belong to the thread of [job_id]. *)
Definition works (job_id : string) (schedule : list event) : nat :=
  length (List.filter (fun ev => match ev with
                                 | Work j => String.eqb j job_id
                                 | _ => false
                                 end) schedule).

(** The state a schedule leads to. *)
Definition final (env : Env) (schedule : list event) (st : state) : state :=
  fold_left (fun s ev => step env ev s) schedule st.

Definition ended (job_id : string) (st : state) : Prop :=
  futures st !! job_id = Some Finished \/ futures st !! job_id = Some Cancelled.
End liveness_terms.

(** ** The job record over a whole run *)

Section ledger_terms.
Import F64 Combiner Job Engine Worker.
Open Scope Q_scope.

(** The entries of a job dict that the statements about whole runs speak
    of, and what the worker has done to [<job_id>.pkl] so far:
    [l_stored], the model it has written, or [l_torn], the number of
    bytes a write that failed has left there. *)
Record ledger : Type := {
  l_status : string;
  l_progress : Q;
  l_error : option exn;
  l_model_path : option string;
  l_quality_score : option float;
  l_total_duration : option float;
  l_stored : option model_data;
  l_torn : option N
}.

(** The ledger after [job[key] = v]; [None] for a value of the wrong
    type. *)
Definition note (key : string) (v : JVal) (s : ledger) : option ledger :=
  if String.eqb key "status" then
    match v with
    | JStr x => Some {| l_status := x; l_progress := l_progress s; l_error := l_error s;
                        l_model_path := l_model_path s;
                        l_quality_score := l_quality_score s;
                        l_total_duration := l_total_duration s; l_stored := l_stored s;
                        l_torn := l_torn s |}
    | _ => None
    end
  else if String.eqb key "progress" then
    match v with
    | JNum q => Some {| l_status := l_status s; l_progress := q; l_error := l_error s;
                        l_model_path := l_model_path s;
                        l_quality_score := l_quality_score s;
                        l_total_duration := l_total_duration s; l_stored := l_stored s;
                        l_torn := l_torn s |}
    | _ => None
    end
  else if String.eqb key "error" then
    match v with
    | JErr e => Some {| l_status := l_status s; l_progress := l_progress s;
                        l_error := Some e; l_model_path := l_model_path s;
                        l_quality_score := l_quality_score s;
                        l_total_duration := l_total_duration s; l_stored := l_stored s;
                        l_torn := l_torn s |}
    | _ => None
    end
  else if String.eqb key "model_path" then
    match v with
    | JStr x => Some {| l_status := l_status s; l_progress := l_progress s;
                        l_error := l_error s; l_model_path := Some x;
                        l_quality_score := l_quality_score s;
                        l_total_duration := l_total_duration s; l_stored := l_stored s;
                        l_torn := l_torn s |}
    | _ => None
    end
  else if String.eqb key "quality_score" then
    match v with
    | JFloat x => Some {| l_status := l_status s; l_progress := l_progress s;
                          l_error := l_error s; l_model_path := l_model_path s;
                          l_quality_score := Some x;
                          l_total_duration := l_total_duration s; l_stored := l_stored s;
                          l_torn := l_torn s |}
    | _ => None
    end
  else if String.eqb key "total_duration" then
    match v with
    | JFloat x => Some {| l_status := l_status s; l_progress := l_progress s;
                          l_error := l_error s; l_model_path := l_model_path s;
                          l_quality_score := l_quality_score s;
                          l_total_duration := Some x; l_stored := l_stored s;
                          l_torn := l_torn s |}
    | _ => None
    end
  else Some s.

(** The ledger after [pickle.dump(d, f)] went through, and after a write
    that failed with [written] bytes on disk. *)
Definition store (d : model_data) (s : ledger) : ledger :=
  {| l_status := l_status s; l_progress := l_progress s; l_error := l_error s;
     l_model_path := l_model_path s; l_quality_score := l_quality_score s;
     l_total_duration := l_total_duration s; l_stored := Some d; l_torn := None |}.

Definition tear (written : N) (s : ledger) : ledger :=
  {| l_status := l_status s; l_progress := l_progress s; l_error := l_error s;
     l_model_path := l_model_path s; l_quality_score := l_quality_score s;
     l_total_duration := l_total_duration s; l_stored := None; l_torn := Some written |}.

(** The dict holds what the ledger says, and lacks the keys the ledger
    has no value for. *)
Definition keeps (job : gmap string JVal) (s : ledger) : Prop :=
  job !! "status" = Some (JStr (l_status s))
  /\ job !! "progress" = Some (JNum (l_progress s))
  /\ job !! "error" = JErr <$> l_error s
  /\ job !! "model_path" = JStr <$> l_model_path s
  /\ job !! "quality_score" = JFloat <$> l_quality_score s
  /\ job !! "total_duration" = JFloat <$> l_total_duration s.

(** [wpl dk Inv w Φ Ψ s]: run alone on a record that reads as [s], on a
    disk that behaves as [dk], the worker [w] keeps [Inv] at every write,
    ends in [Φ] where it returns and in [Ψ] where it raises, whatever the
    clock and the generator answer.  A read of [status] returns what the
    ledger holds. *)
Fixpoint wpl {A} (dk : disk_state) (Inv : ledger -> Prop) (w : W A)
    (Φ : A -> ledger -> Prop) (Ψ : exn -> ledger -> Prop) (s : ledger) : Prop :=
  match w with
  | Ret a => Φ a s
  | Throw e => Ψ e s
  | SetItem key v k =>
      exists s', note key v s = Some s' /\ Inv s' /\ wpl dk Inv k Φ Ψ s'
  | GetItem key k =>
      forall r, (key = "status"%string -> r = Some (JStr (l_status s))) ->
                wpl dk Inv (k r) Φ Ψ s
  | Now k => forall t, wpl dk Inv (k t) Φ Ψ s
  | Dump d k =>
      match dk with
      | Writable => Inv (store d s) /\ wpl dk Inv (k (Ok tt)) Φ Ψ (store d s)
      | Unopenable => wpl dk Inv (k (Raise (OSError "cannot write model file"))) Φ Ψ s
      | Full written =>
          Inv (tear written s)
          /\ wpl dk Inv (k (Raise (OSError "cannot write model file"))) Φ Ψ (tear written s)
      end
  | Score f k => forall g, wpl dk Inv (k (fst (f g))) Φ Ψ s
  end.

Definition never {A} : A -> ledger -> Prop := fun _ _ => False.

Definition initial_ledger : ledger :=
  {| l_status := "initializing"; l_progress := 0; l_error := None;
     l_model_path := None; l_quality_score := None; l_total_duration := None;
     l_stored := None; l_torn := None |}.

(** The file a successful dump leaves, and the one a write that failed
    after [written] bytes leaves. *)
Definition stored_file (env : Env) (d : model_data) : file :=
  {| content := ModelDict d; st_size := pickle_size env d; locked := false |}.

Definition torn_file (written : N) : file :=
  {| content := Garbage; st_size := written; locked := false |}.

(** The entry of the directory for a job whose ledger is [s], [before]
    being the entry the directory had when the job was submitted. *)
Definition left_on_disk (env : Env) (before : option file) (s : ledger) : option file :=
  match l_stored s, l_torn s with
  | Some d, _ => Some (stored_file env d)
  | None, Some written => Some (torn_file written)
  | None, None => before
  end.

(** The job [job_id] is registered, its record reads as [s], its model
    file is the one it has written (or [before] when it has written
    none), and what is left of its worker keeps [Inv] and ends in [Φ]. *)
Definition followed (env : Env) (Inv : ledger -> Prop) (Φ : outcome -> ledger -> Prop)
    (before : option file) (job_id : string) (st : state) (s : ledger) : Prop :=
  (exists job, training_jobs st !! job_id = Some job /\ keeps job s)
  /\ Inv s
  /\ model_dir st !! job_id = left_on_disk env before s
  /\ match futures st !! job_id with
     | Some (Pending w) | Some (Running w) => wpl (disk st) Inv w Φ never s
     | Some Finished => exists o, Φ o s
     | _ => False
     end.

(** A schedule that neither cancels nor deletes the job. *)
Definition undisturbed (job_id : string) (schedule : list event) : Prop :=
  (Cancel job_id ∉ schedule) /\ (Delete job_id ∉ schedule).
End ledger_terms.

(** ** How a job ends *)

Section ending_terms.
Import F64 Combiner Job Engine Worker.
Open Scope Q_scope.
Context (env : Env) (job_id : string) (audio_files : list string)
        (voice_name quality language : string).

(** A ledger with a status and a progress and nothing else. *)
Definition plain (status : string) (q : Q) : ledger :=
  {| l_status := status; l_progress := q; l_error := None; l_model_path := None;
     l_quality_score := None; l_total_duration := None; l_stored := None;
     l_torn := None |}.

(** The ledger of a job at the end of its saving stage whose model file
    could not be written. *)
Definition unsaved (status : string) (e : option exn) (torn : option N) : ledger :=
  {| l_status := status; l_progress := 100; l_error := e; l_model_path := None;
     l_quality_score := None; l_total_duration := None; l_stored := None;
     l_torn := torn |}.

(** The bytes a write leaves when it fails on such a disk. *)
Definition torn_by (dk : disk_state) : option N :=
  match dk with Full written => Some written | _ => None end.

(** The model is the one of this job, with a score in [0, 1]. *)
Definition written (d : model_data) : Prop :=
  md_voice_name d = Some voice_name
  /\ md_language d = Some language
  /\ md_quality d = Some quality
  /\ md_model_version d = Some "1.0"%string
  /\ is_Some (md_created_at d)
  /\ is_Some (md_characteristics d)
  /\ is_Some (md_training_duration d)
  /\ exists x, md_quality_score d = Some x /\ le zero x /\ le x one.

(** What holds of the record of an undisturbed job at every moment. *)
Definition coherent (s : ledger) : Prop :=
  l_status s ∈ ["initializing"; "analyzing"; "training"; "completed"; "failed"]%string
  /\ 0 <= l_progress s /\ l_progress s <= 100
  /\ (l_status s = "initializing"%string -> l_progress s == 0)
  /\ (l_status s = "analyzing"%string ->
      l_progress s == 0 \/ (10 <= l_progress s /\ l_progress s <= 35))
  /\ (l_status s = "training"%string -> 35 <= l_progress s)
  /\ (l_status s = "completed"%string -> l_progress s == 100 /\ is_Some (l_stored s))
  /\ (is_Some (l_stored s) ->
      l_progress s == 100
      /\ (l_status s = "training"%string \/ l_status s = "completed"%string))
  /\ (is_Some (l_error s) -> l_status s = "failed"%string)
  /\ (forall d, l_stored s = Some d -> written d)
  /\ (is_Some (l_torn s) ->
      l_stored s = None /\ l_progress s == 100
      /\ (l_status s = "training"%string \/ l_status s = "failed"%string)).

(** [extract] answers for every file, in order. *)
Definition extracts (files : list string) (cs : list VoiceCharacteristics) : Prop :=
  Forall2 (fun f c => extract env f = Ok c) files cs.

Definition failed_with (e : exn) (q : Q) (torn : option N) (s : ledger) : Prop :=
  l_status s = "failed"%string /\ l_error s = Some e /\ l_progress s == q
  /\ l_stored s = None /\ l_torn s = torn.

Definition completed_with (total : float) (p : gmap string PVal) (s : ledger) : Prop :=
  l_status s = "completed"%string /\ l_progress s == 100 /\ l_error s = None
  /\ l_torn s = None
  /\ l_total_duration s = Some total
  /\ l_model_path s = Some (model_dir_name env +:+ "/" +:+ job_id +:+ ".pkl")
  /\ exists x created g,
       fst (Scorer._validate_model_quality p quality g) = Ok x
       /\ l_quality_score s = Some x
       /\ l_stored s
          = Some {| md_voice_name := Some voice_name; md_language := Some language;
                    md_quality := Some quality; md_characteristics := Some p;
                    md_training_duration := Some total; md_quality_score := Some x;
                    md_created_at := Some created;
                    md_model_version := Some "1.0"%string |}.

(** What holds of the record when the worker has returned. *)
Definition ending (dk : disk_state) (o : outcome) (s : ledger) : Prop :=
  o = ReturnedJob
  /\ (l_status s = "completed"%string \/ l_status s = "failed"%string)
  /\ (l_status s = "failed"%string ->
      is_Some (l_error s) /\ l_stored s = None
      /\ (l_torn s = None \/ l_torn s = torn_by dk))
  /\ (forall e, analyze env audio_files (of_Z 0) = Raise e -> failed_with e 10 None s)
  /\ (forall total cs,
        analyze env audio_files (of_Z 0) = Ok total -> extracts audio_files cs ->
        match _combine_voice_characteristics cs with
        | Raise e => failed_with e 35 None s
        | Ok p =>
            match dk with
            | Writable => completed_with total p s
            | _ => failed_with (OSError "cannot write model file") 100 (torn_by dk) s
            end
        end)
  /\ (l_status s = "completed"%string ->
      exists total cs p,
        analyze env audio_files (of_Z 0) = Ok total
        /\ extracts audio_files cs
        /\ _combine_voice_characteristics cs = Ok p
        /\ dk = Writable
        /\ completed_with total p s).
End ending_terms.

Section run_terms.
Import F64 Combiner Job Engine Worker.
Open Scope Q_scope.

(** The worker of [job_id] has returned. *)
Definition finished (job_id : string) (st : state) : Prop :=
  futures st !! job_id = Some Finished.

(** An environment in which no file exists. *)
Definition empty_room : Env :=
  {| path_exists := fun _ => false;
     librosa_load := fun _ => None;
     extract := fun _ => Raise (ValueError "Invalid audio file");
     pickle_size := fun _ => 0%N;
     model_dir_name := "models" |}.
End run_terms.

(** ** The analysis of the audio files *)

Section analysis_terms.
Import F64 Combiner Job Engine Worker.

(** [len(audio) / sr] *)
Definition duration (samples : N) (sr : positive) : float :=
  div (of_Z (Z.of_N samples)) (of_Z (Zpos sr)).

(** The length of a file that loads. *)
Definition file_duration (env : Env) (file_path : string) : float :=
  match librosa_load env file_path with
  | Some (samples, sr) => duration samples sr
  | None => zero
  end.

(** The file exists, loads, and is not shorter than two seconds. *)
Definition sound_file (env : Env) (file_path : string) : Prop :=
  path_exists env file_path = true
  /\ is_Some (librosa_load env file_path)
  /\ ltb (file_duration env file_path) (of_Z 2) = false.

(** What stage 1 raises on a file that is not sound. *)
Definition analysis_error (env : Env) (file_path : string) : exn :=
  if negb (path_exists env file_path) then FileNotFoundError file_path
  else match librosa_load env file_path with
       | None => ValueError "Invalid audio file"
       | Some _ => ValueError "Audio file too short"
       end.
End analysis_terms.

(** ** Sample runs *)

Section sample_runs.
Import F64 Combiner Job Engine Worker.

(** Enough steps of the worker of ["job"] for two files at the draft
    tier, and the states they lead to from each sample engine. *)
Definition long_run : list event := replicate 47 (Work "job").

(** An engine whose disk takes 17 bytes of a model and no more, and one
    on which no model file can be opened. *)
Definition full_disk_engine : state :=
  {| training_jobs := ∅; detached := ∅; futures := ∅; model_dir := ∅;
     disk := Full 17; rng := idle_rng; clock := fun n => pretty n; ticks := 0 |}.

Definition read_only_engine : state :=
  {| training_jobs := ∅; detached := ∅; futures := ∅; model_dir := ∅;
     disk := Unopenable; rng := idle_rng; clock := fun n => pretty n; ticks := 0 |}.

(** What [studio] extracts from each file. *)
Definition studio_sample : VoiceCharacteristics :=
  sample (lit 9 10) [of_Z 300; of_Z 700].
End sample_runs.

(** * Properties *)

(** ** Comparisons of doubles *)

Section float_order.
Import F64.

Lemma ltb_leb x y : ltb x y = true -> leb x y = true.
Proof.
  unfold ltb, leb, SFltb, SFleb.
  destruct (SFcompare x y) as [[]|]; congruence.
Qed.

Lemma min_le_bound hi x : le hi hi -> le (Py.min hi x) hi.
Proof.
  intros Hhi. unfold Py.min.
  destruct (ltb x hi) eqn:E; [by apply ltb_leb | done].
Qed.

(** Whatever [x] is (a NaN and the infinities included), the clamp lies
    between its bounds. *)
Lemma clamp_between lo hi x :
  le lo lo -> le hi hi -> le lo hi -> le lo (Py.clamp lo hi x) /\ le (Py.clamp lo hi x) hi.
Proof.
  intros Hlo Hhi Hlohi. unfold Py.clamp, Py.max.
  destruct (ltb lo (Py.min hi x)) eqn:E.
  - split; [by apply ltb_leb | by apply min_le_bound].
  - done.
Qed.
End float_order.

(** ** The quality scorer *)

Section scorer.
Import F64 Combiner Scorer.

Lemma multiplier_of_other quality :
  quality ∉ ["draft"; "standard"; "high"; "premium"]%string ->
  multiplier_of quality = lit 8 10.
Proof.
  intros Hq. unfold multiplier_of, quality_multipliers.
  rewrite !lookup_insert_ne, lookup_empty; [done|..];
    intros <-; apply Hq; set_solver.
Qed.

Lemma validate_model_quality_value
    (profile : gmap string PVal) (quality : string) (g : Rng) (base : float) :
  profile !! "voice_quality_score" = Some (PNum base) ->
  fst (_validate_model_quality profile quality g)
  = Ok (Py.clamp zero one
          (add (mul base (multiplier_of quality)) (fst (perturbation g)))).
Proof.
  intros Hbase. unfold _validate_model_quality. rewrite Hbase.
  cbn [default]. destruct (perturbation g) as [noise g']. reflexivity.
Qed.

Lemma clamp_unit_interval x :
  le zero (Py.clamp zero one x) /\ le (Py.clamp zero one x) one.
Proof. apply (clamp_between zero one x); reflexivity. Qed.

Lemma multiplier_table :
  multiplier_of "draft" = lit 7 10
  /\ multiplier_of "standard" = lit 8 10
  /\ multiplier_of "high" = lit 9 10
  /\ multiplier_of "premium" = lit 95 100.
Proof. vm_compute. auto. Qed.

(** C2.  For a profile that carries a scalar [voice_quality_score] (every
    dict the combiner returns does), the scorer returns
    [clamp(base * multiplier + perturbation, 0, 1)], where the multiplier
    is 0.7, 0.8, 0.9, 0.95 for draft, standard, high, premium and 0.8 for
    any other tier; the value lies in [0, 1] whatever the profile, the
    tier and the variate drawn. *)
Theorem validate_model_quality_clamped
    (profile : gmap string PVal) (quality : string) (g : Rng) (base : float) :
  profile !! "voice_quality_score" = Some (PNum base) ->
  exists s,
    fst (_validate_model_quality profile quality g) = Ok s
    /\ s = Py.clamp zero one
             (add (mul base (multiplier_of quality)) (fst (perturbation g)))
    /\ le zero s /\ le s one
    /\ (multiplier_of "draft" = lit 7 10
        /\ multiplier_of "standard" = lit 8 10
        /\ multiplier_of "high" = lit 9 10
        /\ multiplier_of "premium" = lit 95 100)
    /\ (quality ∉ ["draft"; "standard"; "high"; "premium"]%string ->
        multiplier_of quality = lit 8 10).
Proof.
  intros Hbase. eexists.
  split; [exact (validate_model_quality_value _ _ _ _ Hbase)|].
  split; [reflexivity|].
  split; [exact (proj1 (clamp_unit_interval _))|].
  split; [exact (proj2 (clamp_unit_interval _))|].
  split; [exact multiplier_table|].
  exact (multiplier_of_other quality).
Qed.

Lemma validate_model_quality_clamped_witness :
  exists s, fst (_validate_model_quality sample_profile "premium" sample_rng) = Ok s
            /\ le zero s /\ le s one.
Proof.
  destruct (validate_model_quality_clamped sample_profile "premium" sample_rng (lit 9 10))
    as (s & Hs & _ & H0 & H1 & _); [vm_compute; reflexivity|].
  exists s. auto.
Defined.



End scorer.

(** ** Cancellation *)

Section cancellation.
Import Job Engine.
Open Scope Q_scope.

(** What the registry holds for a job after [job[key] = v]. *)
Lemma write_job_registered st job_id key v job :
  training_jobs st !! job_id = Some job ->
  training_jobs (write_job st job_id key v) !! job_id = Some (<[key := v]> job).
Proof.
  intros Hjob. unfold write_job. rewrite Hjob. cbn. apply lookup_insert_eq.
Qed.

Lemma write_job_other st job_id key v other :
  other <> job_id ->
  training_jobs (write_job st job_id key v) !! other = training_jobs st !! other.
Proof.
  intros Hne. unfold write_job.
  destruct (training_jobs st !! job_id); cbn; [by rewrite lookup_insert_ne|done].
Qed.

Lemma write_job_registered_frame st job_id key v job :
  training_jobs st !! job_id = Some job ->
  let st' := write_job st job_id key v in
  detached st' = detached st /\ futures st' = futures st
  /\ model_dir st' = model_dir st /\ rng st' = rng st /\ ticks st' = ticks st.
Proof. intros Hjob. unfold write_job. rewrite Hjob. cbn. done. Qed.

Lemma cancel_training_known job_id st job :
  training_jobs st !! job_id = Some job ->
  let st' := snd (cancel_training job_id st) in
  fst (cancel_training job_id st) = true
  /\ training_jobs st' !! job_id = Some (cancelled_record job)
  /\ (forall other, other <> job_id ->
        training_jobs st' !! other = training_jobs st !! other)
  /\ detached st' = detached st
  /\ model_dir st' = model_dir st
  /\ futures st' = match job !! "future" with
                   | Some _ => alter future_cancel job_id (futures st)
                   | None => futures st
                   end.
Proof.
  intros Hjob. unfold cancel_training. rewrite Hjob. cbn [fst snd].
  set (st1 := match job !! "future" with
              | Some _ => with_futures st (alter future_cancel job_id (futures st))
              | None => st
              end).
  assert (H1 : training_jobs st1 = training_jobs st) by (subst st1; by destruct (job !! "future")).
  assert (H1d : detached st1 = detached st) by (subst st1; by destruct (job !! "future")).
  assert (H1m : model_dir st1 = model_dir st) by (subst st1; by destruct (job !! "future")).
  assert (Hj1 : training_jobs st1 !! job_id = Some job) by (by rewrite H1).
  pose proof (write_job_registered st1 job_id "status" (JStr "cancelled") job Hj1) as Hj2.
  pose proof (write_job_registered_frame st1 job_id "status" (JStr "cancelled") job Hj1)
    as (Hd2 & Hf2 & Hm2 & _).
  pose proof (write_job_registered _ job_id "progress" (JNum 0) _ Hj2) as Hj3.
  pose proof (write_job_registered_frame _ job_id "progress" (JNum 0) _ Hj2)
    as (Hd3 & Hf3 & Hm3 & _).
  split; [done|]. split; [exact Hj3|]. split.
  { intros other Hne. rewrite !write_job_other by done. by rewrite H1. }
  split; [by rewrite Hd3, Hd2|]. split; [by rewrite Hm3, Hm2|].
  rewrite Hf3, Hf2. subst st1. by destruct (job !! "future").
Qed.

Lemma cancel_training_unknown job_id st :
  training_jobs st !! job_id = None -> cancel_training job_id st = (false, st).
Proof. intros Hnone. unfold cancel_training. by rewrite Hnone. Qed.

(** C4, as stated, fails: [cancel_training] also executes
    [job['progress'] = 0]; a job at progress 10 is left at progress 0. *)
Lemma cancel_training_resets_progress : ~ cancel_flips_status_only.
Proof.
  intros H.
  specialize (H "j"%string (registry_with "j" analyzing_job) analyzing_job eq_refl).
  destruct (cancel_training_known "j" (registry_with "j" analyzing_job) analyzing_job eq_refl)
    as (_ & Hrec & _).
  rewrite Hrec in H.
  apply (f_equal (fun o : option (gmap string JVal) => o ≫= (.!! "progress"))) in H.
  vm_compute in H. discriminate H.
Qed.

(** C4, amended.  For a job in the registry, [cancel_training] sets
    [status] to [cancelled] and [progress] to 0 and leaves every other key
    of the record as it was; the other records, the detached dicts and the
    model directory are untouched, and the only other effect is
    [Future.cancel()] on the job's own future when the record has one. *)
Theorem cancel_training_frame job_id st job :
  training_jobs st !! job_id = Some job ->
  exists job',
    training_jobs (snd (cancel_training job_id st)) !! job_id = Some job'
    /\ job' !! "status" = Some (JStr "cancelled")
    /\ job' !! "progress" = Some (JNum 0)
    /\ (forall key, key <> "status"%string -> key <> "progress"%string ->
          job' !! key = job !! key)
    /\ (forall other, other <> job_id ->
          training_jobs (snd (cancel_training job_id st)) !! other
          = training_jobs st !! other)
    /\ detached (snd (cancel_training job_id st)) = detached st
    /\ model_dir (snd (cancel_training job_id st)) = model_dir st
    /\ (forall other, other <> job_id ->
          futures (snd (cancel_training job_id st)) !! other = futures st !! other).
Proof.
  intros Hjob.
  destruct (cancel_training_known job_id st job Hjob) as (_ & Hrec & Hoth & Hdet & Hmd & Hfut).
  exists (cancelled_record job). unfold cancelled_record.
  split; [exact Hrec|]. split; [by simplify_map_eq|]. split; [by simplify_map_eq|].
  split; [intros key H1 H2; by simplify_map_eq|].
  split; [exact Hoth|]. split; [exact Hdet|]. split; [exact Hmd|].
  intros other Hne. rewrite Hfut.
  destruct (job !! "future"); [by rewrite lookup_alter_ne|done].
Qed.

Lemma cancel_training_frame_witness :
  exists job',
    training_jobs (snd (cancel_training "j" (registry_with "j" analyzing_job))) !! "j"%string
    = Some job'
    /\ job' !! "status" = Some (JStr "cancelled")
    /\ job' !! "progress" = Some (JNum 0).
Proof.
  destruct (cancel_training_frame "j" (registry_with "j" analyzing_job) analyzing_job)
    as (job' & H1 & H2 & H3 & _); [reflexivity|].
  exists job'. auto.
Defined.

(** C5, as stated, fails: [cancel_training] never looks at the status; on
    a completed job it returns true and rewrites the record. *)
Lemma cancel_training_accepts_terminal : ~ cancel_refuses_terminal.
Proof.
  intros H.
  specialize (H "j"%string (registry_with "j" completed_job) completed_job
                "completed"%string eq_refl eq_refl (or_introl eq_refl)).
  apply (f_equal fst) in H.
  destruct (cancel_training_known "j" (registry_with "j" completed_job) completed_job eq_refl)
    as (Htrue & _).
  rewrite Htrue in H. discriminate H.
Qed.

(** C5, amended.  [cancel_training] returns false exactly when the job id
    is not in the registry, and then changes nothing; for every job in the
    registry, terminal or not, it returns true and leaves the record with
    status [cancelled] and progress 0. *)
Theorem cancel_training_result job_id st :
  (fst (cancel_training job_id st) = false <-> training_jobs st !! job_id = None)
  /\ (training_jobs st !! job_id = None -> snd (cancel_training job_id st) = st)
  /\ (forall job, training_jobs st !! job_id = Some job ->
        fst (cancel_training job_id st) = true
        /\ training_jobs (snd (cancel_training job_id st)) !! job_id
           = Some (cancelled_record job)).
Proof.
  split; [|split].
  - destruct (training_jobs st !! job_id) as [job|] eqn:Hjob.
    + destruct (cancel_training_known job_id st job Hjob) as (Htrue & _).
      rewrite Htrue. split; discriminate.
    + by rewrite cancel_training_unknown.
  - intros Hnone. by rewrite cancel_training_unknown.
  - intros job Hjob.
    destruct (cancel_training_known job_id st job Hjob) as (Htrue & Hrec & _). done.
Qed.
End cancellation.

(** ** Deleting a model *)

Section deletion.
Import Job Engine.

Lemma forget_job_absent job_id st :
  training_jobs st !! job_id = None -> forget_job job_id st = st.
Proof. intros H. unfold forget_job. by rewrite H. Qed.

Lemma forget_job_gone job_id st : training_jobs (forget_job job_id st) !! job_id = None.
Proof.
  unfold forget_job. destruct (training_jobs st !! job_id) eqn:H; cbn; [|done].
  apply lookup_delete_eq.
Qed.

Lemma forget_job_model_dir job_id st : model_dir (forget_job job_id st) = model_dir st.
Proof. unfold forget_job. by destruct (training_jobs st !! job_id). Qed.

Lemma delete_voice_model_unknown job_id st :
  model_dir st !! job_id = None -> training_jobs st !! job_id = None ->
  delete_voice_model job_id st = (true, st).
Proof.
  intros Hfile Hjob. unfold delete_voice_model. rewrite Hfile.
  by rewrite forget_job_absent.
Qed.

(** C9, as stated, fails: with neither a model file nor a registry entry
    both [if]s are skipped and the function reaches [return True]. *)
Lemma delete_voice_model_unknown_is_true : ~ delete_unknown_is_false.
Proof.
  intros H. specialize (H "nonexistent"%string empty_engine eq_refl eq_refl).
  rewrite (delete_voice_model_unknown "nonexistent" empty_engine eq_refl eq_refl) in H.
  discriminate H.
Qed.

(** C9, amended.  [delete_voice_model] never raises.  It returns false
    only when removing the model file raises, and then changes nothing.
    Otherwise it returns true, whether or not there was anything to delete:
    afterwards neither the model file nor the registry entry exists, an id
    that had neither leaves the state as it was, and a repeated call
    returns true again and changes nothing. *)
Theorem delete_voice_model_result job_id st :
  (forall f, model_dir st !! job_id = Some f -> locked f = true ->
     delete_voice_model job_id st = (false, st))
  /\ ((forall f, model_dir st !! job_id = Some f -> locked f = false) ->
      let st' := snd (delete_voice_model job_id st) in
      fst (delete_voice_model job_id st) = true
      /\ model_dir st' !! job_id = None
      /\ training_jobs st' !! job_id = None
      /\ delete_voice_model job_id st' = (true, st'))
  /\ (model_dir st !! job_id = None -> training_jobs st !! job_id = None ->
      delete_voice_model job_id st = (true, st)).
Proof.
  split; [|split].
  - intros f Hf Hlocked. unfold delete_voice_model. by rewrite Hf, Hlocked.
  - intros Hunlocked.
    assert (Hres : fst (delete_voice_model job_id st) = true
              /\ model_dir (snd (delete_voice_model job_id st)) !! job_id = None
              /\ training_jobs (snd (delete_voice_model job_id st)) !! job_id = None).
    { unfold delete_voice_model.
      destruct (model_dir st !! job_id) as [f|] eqn:Hf.
      - rewrite (Hunlocked f eq_refl). cbn [fst snd].
        split; [done|]. split; [|apply forget_job_gone].
        rewrite forget_job_model_dir. cbn. apply lookup_delete_eq.
      - cbn [fst snd]. split; [done|]. split; [|apply forget_job_gone].
        by rewrite forget_job_model_dir. }
    destruct Hres as (H1 & H2 & H3). cbn zeta.
    split; [done|]. split; [done|]. split; [done|].
    by apply delete_voice_model_unknown.
  - apply delete_voice_model_unknown.
Qed.
End deletion.

(** ** Listing the stored models *)

Section listing.
Import Job Engine.

(** The summaries of the files that load, in directory order. *)
Lemma collect_models_cons stem f files :
  collect_models ((stem, f) :: files)
  = match read_model stem f with
    | Ok mi => mi :: collect_models files
    | Raise _ => collect_models files
    end.
Proof. unfold collect_models. cbn. by destruct (read_model stem f). Qed.

Lemma string_leb_trans a b c :
  String.leb a b = true -> String.leb b c = true -> String.leb a c = true.
Proof.
  unfold String.leb. intros Hab Hbc.
  destruct (String.compare a b) eqn:Eab; [|clear Hab|discriminate].
  - apply String.compare_eq_iff in Eab. by subst.
  - destruct (String.compare b c) eqn:Ebc; [|clear Hbc|discriminate].
    + apply String.compare_eq_iff in Ebc. subst. by rewrite Eab.
    + assert (Hac : OrdersEx.String_as_OT.lt a c).
      { transitivity b; [exact Eab|exact Ebc]. }
      unfold OrdersEx.String_as_OT.lt in Hac.
      change (String.compare a c = Lt) in Hac. by rewrite Hac.
Qed.

Lemma string_ltb_false_leb a b : String.ltb a b = false -> String.leb b a = true.
Proof.
  unfold String.ltb, String.leb. rewrite (String.compare_antisym a b).
  by destruct (String.compare b a).
Qed.

Lemma string_ltb_leb a b : String.ltb a b = true -> String.leb a b = true.
Proof. unfold String.ltb, String.leb. by destruct (String.compare a b). Qed.

Lemma insert_by_dated x s :
  dated x -> Forall dated s -> StronglySorted not_newer s ->
  exists s', insert_by x s = Ok s' /\ s' ≡ₚ x :: s /\ StronglySorted not_newer s'.
Proof.
  intros [kx Hx] Hs Hsorted.
  induction s as [|e r IH].
  { exists [x]. cbn. repeat split; [done|]. repeat constructor. }
  apply Forall_cons in Hs as [[ke He] Hr].
  apply StronglySorted_inv in Hsorted as [Hsr Hle].
  cbn [insert_by]. rewrite Hx, He. cbn [key_lt].
  destruct (String.ltb kx ke) eqn:Hlt.
  - exists (x :: e :: r). split; [done|]. split; [done|].
    assert (Hxe : not_newer x e).
    { unfold not_newer, not_older. rewrite He, Hx. by apply string_ltb_leb. }
    constructor; [by constructor|].
    constructor; [done|].
    eapply Forall_impl; [exact Hle|].
    intros y Hey. unfold not_newer, not_older in *.
    rewrite Hx. rewrite He in Hey. destruct (mi_created_at y) as [ky|]; [|done].
    rewrite Hx in Hxe. rewrite He in Hxe.
    by eapply string_leb_trans.
  - destruct (IH Hr Hsr) as (r' & Hins & Hperm & Hsorted').
    rewrite Hins. exists (e :: r'). split; [done|].
    split; [by rewrite Hperm; apply Permutation_swap|].
    constructor; [done|].
    rewrite Hperm. constructor; [|done].
    unfold not_newer, not_older. rewrite Hx, He. by apply string_ltb_false_leb.
Qed.

Lemma sorted_by_created_at_dated xs :
  Forall dated xs ->
  exists s, sorted_by_created_at xs = Ok s /\ s ≡ₚ xs /\ StronglySorted not_newer s.
Proof.
  unfold sorted_by_created_at.
  assert (Hgen : forall acc, Forall dated acc -> StronglySorted not_newer acc ->
            Forall dated xs ->
            exists s, fold_left (fun acc x => match acc with
                                              | Raise e => Raise e
                                              | Ok s => insert_by x s
                                              end) xs (Ok acc) = Ok s
                      /\ s ≡ₚ acc ++ xs /\ StronglySorted not_newer s).
  { induction xs as [|x xs IH]; intros acc Hacc Hsorted Hxs.
    - exists acc. by rewrite app_nil_r.
    - apply Forall_cons in Hxs as [Hx Hxs].
      destruct (insert_by_dated x acc Hx Hacc Hsorted) as (acc' & Hins & Hperm & Hsorted').
      cbn [fold_left]. rewrite Hins.
      destruct (IH acc') as (s & Hs & Hp & Hso); [|done|done|].
      + rewrite Hperm. by constructor.
      + exists s. split; [done|]. split; [|done].
        rewrite Hp, Hperm. apply Permutation_middle. }
  intros Hxs.
  destruct (Hgen [] (List.Forall_nil _) (SSorted_nil _) Hxs) as (s & Hs & Hp & Hso).
  by exists s.
Qed.

Lemma StronglySorted_reverse_not_newer s :
  StronglySorted not_newer s -> StronglySorted not_older (reverse s).
Proof.
  induction 1 as [|x s Hs IH Hx]; [apply SSorted_nil|].
  rewrite reverse_cons. apply StronglySorted_app_2; [|done|repeat constructor].
  intros y z Hy Hz. apply list_elem_of_singleton in Hz as ->.
  rewrite elem_of_reverse in Hy. rewrite Forall_forall in Hx. exact (Hx y Hy).
Qed.

(** When every model that loads carries its [created_at], the listing
    succeeds: the files that fail to load are skipped, every other file is
    summarised, newest first. *)
Lemma list_models_of_dated files :
  Forall dated (collect_models files) ->
  exists l, list_models_of files = Ok l
            /\ l ≡ₚ collect_models files
            /\ StronglySorted not_older l.
Proof.
  intros Hd. unfold list_models_of, sorted_newest_first.
  destruct (sorted_by_created_at_dated (reverse (collect_models files)))
    as (s & Hs & Hp & Hso).
  { by apply Forall_reverse. }
  rewrite Hs. exists (reverse s). split; [done|].
  split; [by rewrite reverse_Permutation, Hp, reverse_Permutation|].
  by apply StronglySorted_reverse_not_newer.
Qed.

(** C10 at the failing input.  Both files load, so neither is skipped; the
    summary of the first has [created_at = None], which is present as a key,
    so the default of [x.get('created_at', '')] is not used and [sorted]
    compares [None] with a string: a [TypeError] leaves the function. *)
Theorem list_voice_models_raises_on_undated :
  list_models_of two_model_files
  = Raise (TypeError "'<' not supported between instances")
  /\ list_voice_models two_model_engine
     = Raise (TypeError "'<' not supported between instances").
Proof. split; vm_compute; reflexivity. Qed.
End listing.

(** ** Frequencies are totally ordered *)

Section frequencies.
Import F64.

(** On positive finite numbers [<] compares the exponent, then the
    mantissa. *)
Lemma ltb_frequency m1 e1 m2 e2 :
  ltb (S754_finite false m1 e1) (S754_finite false m2 e2) = true
  <-> (e1 < e2 \/ (e1 = e2 /\ Zpos m1 < Zpos m2))%Z.
Proof.
  unfold ltb, SFltb. cbn [SFcompare].
  destruct (Z.compare_spec e1 e2) as [->|Hlt|Hgt].
  - fold (Pos.compare m1 m2).
    destruct (Pos.compare_spec m1 m2) as [->|Hm|Hm]; split; try done; lia.
  - split; [auto|done].
  - split; [done|lia].
Qed.

Lemma eqb_frequency x y :
  is_frequency x -> is_frequency y -> eqb x y = true <-> x = y.
Proof.
  destruct x as [| | |[] m1 e1]; try done. destruct y as [| | |[] m2 e2]; try done.
  intros _ _. unfold eqb, SFeqb. cbn [SFcompare].
  destruct (Z.compare_spec e1 e2) as [->|Hlt|Hgt].
  - fold (Pos.compare m1 m2).
    destruct (Pos.compare_spec m1 m2) as [->|Hm|Hm]; split; try done;
      intros [= ->]; lia.
  - split; [done|]. intros [= _ ->]. lia.
  - split; [done|]. intros [= _ ->]. lia.
Qed.

Lemma lt_frequency_irrefl x : is_frequency x -> ~ lt x x.
Proof.
  destruct x as [| | |[] m e]; try done. intros _ H.
  apply ltb_frequency in H. lia.
Qed.

Lemma lt_frequency_asym x y : is_frequency x -> is_frequency y -> lt x y -> ~ lt y x.
Proof.
  destruct x as [| | |[] m1 e1]; try done. destruct y as [| | |[] m2 e2]; try done.
  intros _ _ H1 H2. apply ltb_frequency in H1, H2. lia.
Qed.

Lemma lt_frequency_trans x y z :
  is_frequency x -> is_frequency y -> is_frequency z -> lt x y -> lt y z -> lt x z.
Proof.
  destruct x as [| | |[] m1 e1]; try done. destruct y as [| | |[] m2 e2]; try done.
  destruct z as [| | |[] m3 e3]; try done.
  intros _ _ _ H1 H2. apply ltb_frequency in H1, H2. apply ltb_frequency. lia.
Qed.

Lemma lt_frequency_total x y :
  is_frequency x -> is_frequency y -> x <> y -> ltb x y = false -> lt y x.
Proof.
  destruct x as [| | |[] m1 e1]; try done. destruct y as [| | |[] m2 e2]; try done.
  intros _ _ Hne Hnlt. apply ltb_frequency.
  assert (Hn : ~ (e1 < e2 \/ (e1 = e2 /\ Zpos m1 < Zpos m2))%Z).
  { intros H. apply ltb_frequency in H. congruence. }
  destruct (decide (e1 = e2)) as [->|]; [|lia].
  destruct (decide (m1 = m2)) as [->|]; [done|lia].
Qed.
End frequencies.

(** ** [set] and [sorted] on frequencies *)

Section set_sorted.
Import F64.

Lemma contains_frequency s x :
  Forall is_frequency s -> is_frequency x -> Py.contains s x = true <-> x ∈ s.
Proof.
  intros Hs Hx. unfold Py.contains. rewrite existsb_exists. split.
  - intros (e & He & Heq). apply list_elem_of_In in He.
    rewrite Forall_forall in Hs.
    apply eqb_frequency in Heq; [by subst|by apply Hs|done].
  - intros Hin. exists x. split; [by apply list_elem_of_In|].
    by apply eqb_frequency.
Qed.

(** The loop of [set(xs)], from any set built so far. *)
Lemma set_loop_spec xs acc :
  Forall is_frequency acc -> Forall is_frequency xs -> NoDup acc ->
  let s := fold_left (fun s x => if Py.contains s x then s else s ++ [x]) xs acc in
  NoDup s /\ (forall x, x ∈ s <-> x ∈ acc \/ x ∈ xs).
Proof.
  revert acc. induction xs as [|x xs IH]; intros acc Hacc Hxs Hnd; cbn zeta.
  { cbn. split; [done|]. intros y. rewrite elem_of_nil. tauto. }
  apply Forall_cons in Hxs as [Hx Hxs]. cbn [fold_left].
  destruct (Py.contains acc x) eqn:Hc.
  - apply contains_frequency in Hc; [|done..].
    destruct (IH acc Hacc Hxs Hnd) as [Hnd' Hel]. split; [done|].
    intros y. rewrite Hel, elem_of_cons. split; [tauto|].
    intros [?|[->|?]]; tauto.
  - assert (Hnin : x ∉ acc).
    { intros Hin. apply contains_frequency in Hin; [congruence|done..]. }
    destruct (IH (acc ++ [x])) as [Hnd' Hel].
    + apply Forall_app. split; [done|]. by constructor.
    + done.
    + apply NoDup_app. split; [done|]. split; [|apply NoDup_singleton].
      intros y Hy Hy'. apply list_elem_of_singleton in Hy' as ->. done.
    + split; [done|]. intros y.
      rewrite Hel, elem_of_app, list_elem_of_singleton, elem_of_cons. tauto.
Qed.

Lemma set_spec xs :
  Forall is_frequency xs ->
  NoDup (Py.set xs) /\ (forall x, x ∈ Py.set xs <-> x ∈ xs).
Proof.
  intros Hxs.
  destruct (set_loop_spec xs [] (List.Forall_nil _) Hxs (NoDup_nil_2)) as [Hnd Hel].
  split; [exact Hnd|]. intros x. unfold Py.set. rewrite Hel, elem_of_nil. tauto.
Qed.

Lemma insert_Permutation x s : Py.insert x s ≡ₚ x :: s.
Proof.
  induction s as [|e r IH]; cbn; [done|].
  destruct (ltb x e); [done|]. rewrite IH. apply Permutation_swap.
Qed.

Lemma sorted_loop_Permutation xs acc :
  fold_left (fun s x => Py.insert x s) xs acc ≡ₚ acc ++ xs.
Proof.
  revert acc. induction xs as [|x xs IH]; intros acc; cbn.
  - by rewrite app_nil_r.
  - rewrite IH, insert_Permutation. apply Permutation_middle.
Qed.

(** [sorted] rearranges its argument, whatever the values are. *)
Lemma sorted_Permutation xs : Py.sorted xs ≡ₚ xs.
Proof. unfold Py.sorted. by rewrite sorted_loop_Permutation. Qed.

Lemma insert_sorted x s :
  is_frequency x -> Forall is_frequency s -> x ∉ s ->
  StronglySorted lt s -> StronglySorted lt (Py.insert x s).
Proof.
  intros Hx Hs Hnin Hsorted.
  induction s as [|e r IH]; cbn; [repeat constructor|].
  apply Forall_cons in Hs as [He Hr].
  apply StronglySorted_inv in Hsorted as [Hsr Hle].
  apply not_elem_of_cons in Hnin as [Hne Hnin].
  destruct (ltb x e) eqn:Hlt.
  - constructor; [by constructor|].
    constructor; [exact Hlt|].
    rewrite Forall_forall in Hle, Hr. apply Forall_forall. intros y Hy.
    eapply (lt_frequency_trans x e y); [done|done|by apply Hr|exact Hlt|by apply Hle].
  - constructor; [by apply IH|].
    rewrite insert_Permutation. constructor; [|done].
    by apply lt_frequency_total.
Qed.

Lemma sorted_loop_sorted xs acc :
  Forall is_frequency acc -> Forall is_frequency xs -> NoDup (acc ++ xs) ->
  StronglySorted lt acc ->
  StronglySorted lt (fold_left (fun s x => Py.insert x s) xs acc).
Proof.
  revert acc. induction xs as [|x xs IH]; intros acc Hacc Hxs Hnd Hsorted; cbn; [done|].
  apply Forall_cons in Hxs as [Hx Hxs].
  apply NoDup_app in Hnd as (Hnda & Hdisj & Hndx).
  apply NoDup_cons in Hndx as [Hxnin Hndxs].
  apply IH; [| done | | ].
  - rewrite insert_Permutation. by constructor.
  - rewrite insert_Permutation. cbn. apply NoDup_cons. split.
    + rewrite elem_of_app. intros [Hin|Hin]; [|done].
      apply (Hdisj x Hin). by left.
    + apply NoDup_app. split; [done|]. split; [|done].
      intros y Hy Hy'. apply (Hdisj y Hy). by right.
  - apply insert_sorted; [done..| |done].
    intros Hin. apply (Hdisj x Hin). by left.
Qed.

(** On distinct frequencies [sorted] is strictly ascending. *)
Lemma sorted_ascending xs :
  Forall is_frequency xs -> NoDup xs -> StronglySorted lt (Py.sorted xs).
Proof.
  intros Hxs Hnd. apply sorted_loop_sorted; [done|done|done|constructor].
Qed.

Lemma sorted_set_ascending_distinct xs :
  Forall is_frequency xs -> ascending_distinct xs (Py.sorted (Py.set xs)).
Proof.
  intros Hxs. destruct (set_spec xs Hxs) as [Hnd Hel]. split.
  - apply sorted_ascending; [|done].
    apply Forall_forall. intros x Hx. rewrite Forall_forall in Hxs.
    apply Hxs. by apply Hel.
  - intros x. by rewrite sorted_Permutation.
Qed.

Lemma ascending_NoDup u : Forall is_frequency u -> StronglySorted lt u -> NoDup u.
Proof.
  intros Hu Hs. induction Hs as [|x u Hs IH Hx]; [constructor|].
  apply Forall_cons in Hu as [Hfx Hu]. apply NoDup_cons. split; [|by apply IH].
  intros Hin. rewrite Forall_forall in Hx.
  by apply (lt_frequency_irrefl x Hfx), Hx.
Qed.

(** There is one such list. *)
Lemma ascending_distinct_unique xs u1 u2 :
  Forall is_frequency xs ->
  ascending_distinct xs u1 -> ascending_distinct xs u2 -> u1 = u2.
Proof.
  intros Hxs [Hs1 He1] [Hs2 He2].
  assert (Hf1 : Forall is_frequency u1).
  { apply Forall_forall. intros x Hx. rewrite Forall_forall in Hxs. by apply Hxs, He1. }
  assert (Hf2 : Forall is_frequency u2).
  { apply Forall_forall. intros x Hx. rewrite Forall_forall in Hxs. by apply Hxs, He2. }
  apply (StronglySorted_unique_strong lt); [|done|done|].
  - intros x1 x2 Hx1 Hx2 H12 H21. exfalso.
    rewrite Forall_forall in Hf1, Hf2.
    by apply (lt_frequency_asym x1 x2 (Hf1 _ Hx1) (Hf2 _ Hx2)).
  - apply NoDup_Permutation; [by apply ascending_NoDup..|].
    intros x. by rewrite He1, He2.
Qed.
End set_sorted.

(** ** numpy's means *)

Section numpy.
Import F64.

Lemma add_at_comm t x y : Py.add_at t x y = Py.add_at t y x.
Proof.
  unfold Py.add_at. destruct x as [sx|sx| |sx mx ex], y as [sy|sy| |sy my ey];
    try reflexivity; try (by destruct sx, sy).
  cbn [SFadd]. by rewrite (Z.min_comm ex ey), Z.add_comm.
Qed.

Lemma add_comm x y : add x y = add y x.
Proof. exact (add_at_comm Py.float64 x y). Qed.

Lemma add_at_neg_zero_l t x : Py.add_at t neg_zero x = x.
Proof. by destruct x as [[]|[]| |s m e]. Qed.

Lemma add_neg_zero_l x : add neg_zero x = x.
Proof. exact (add_at_neg_zero_l Py.float64 x). Qed.

(** Fewer than eight values are added from left to right. *)
Lemma np_sum_short xs : (length xs < 8)%nat -> Py.np_sum xs = fold_left add xs neg_zero.
Proof.
  intros Hn. unfold Py.np_sum.
  destruct (length xs) as [|fuel] eqn:Hlen; cbn [Py.pairwise_sum]; rewrite Hlen;
    by rewrite (proj2 (Nat.ltb_lt _ _)).
Qed.

(** From eight values on the sum is not the one taken from left to
    right: the mean of 0.1, 0.2, ..., 0.8 is 0.45 as numpy adds them, and
    0.44999999999999996 when they are added in order. *)
Example np_mean_of_eight_scores :
  Py.np_mean eight_scores = S754_finite false 8106479329266893 (-54)
  /\ div (fold_left add eight_scores neg_zero) (of_Z 8)
     = S754_finite false 8106479329266892 (-54).
Proof. split; vm_compute; reflexivity. Qed.

(** The depth of the recursion of the pairwise sum is below the length
    of the array: more fuel than that changes nothing. *)
Lemma pairwise_sum_fuel fuel fuel' xs :
  (length xs <= fuel)%nat -> (length xs <= fuel')%nat ->
  Py.pairwise_sum fuel xs = Py.pairwise_sum fuel' xs.
Proof.
  revert fuel' xs. induction fuel as [|fuel IH]; intros fuel' xs Hf Hf'.
  - apply Nat.le_0_r, nil_length_inv in Hf as ->. by destruct fuel'.
  - destruct fuel' as [|fuel'].
    { apply Nat.le_0_r, nil_length_inv in Hf' as ->. done. }
    cbn [Py.pairwise_sum].
    destruct (Nat.ltb_spec (length xs) 8) as [|H8]; [done|].
    destruct (Nat.leb_spec (length xs) 128) as [|H128]; [done|].
    set (n := length xs) in *.
    assert (n / 2 < n)%nat as Hhalf by (apply Nat.div_lt; lia).
    assert (64 <= n / 2)%nat as H64.
    { apply (Nat.div_le_lower_bound n 2 64); lia. }
    assert ((n / 2) mod 8 < 8)%nat as Hmod by (apply Nat.mod_upper_bound; lia).
    set (n2 := (n / 2 - (n / 2) mod 8)%nat).
    assert (0 < n2 < n)%nat as Hn2 by (unfold n2; lia).
    f_equal; apply IH; rewrite ?length_take, ?length_drop; fold n; lia.
Qed.

Lemma np_mean_pair x y : Py.np_mean [x; y] = Py.np_mean [y; x].
Proof.
  unfold Py.np_mean. rewrite !np_sum_short by (cbn; lia). cbn [fold_left length].
  by rewrite !add_neg_zero_l, (add_comm x y).
Qed.

Lemma promoted_length t a : length (Py.promoted t a) = length (Py.items a).
Proof. unfold Py.promoted. destruct (Py.dtype_of a), t; by rewrite ?length_fmap. Qed.

Lemma np_stack_uniform arrays n :
  arrays <> [] -> Forall (fun a => length (Py.items a) = n) arrays ->
  Py.np_stack arrays = Ok (Py.stacked arrays).
Proof.
  intros Hne Hlen. destruct arrays as [|r rest]; [done|].
  apply Forall_cons in Hlen as [Hr Hrest]. cbn [Py.np_stack].
  rewrite (proj2 (forallb_forall _ rest)); [done|].
  intros r' Hin. apply Nat.eqb_eq. rewrite Forall_forall in Hrest.
  rewrite Hr. apply Hrest. by apply list_elem_of_In.
Qed.

(** [np.stack] succeeds exactly on a non-empty list of arrays of one
    length. *)
Lemma np_stack_ok arrays :
  (exists m, Py.np_stack arrays = Ok m) <-> arrays <> [] /\ same_shape arrays.
Proof.
  split.
  - intros [m Hm]. destruct arrays as [|r rest]; [done|]. split; [done|].
    exists (length (Py.items r)). cbn [Py.np_stack] in Hm.
    destruct (forallb _ rest) eqn:Hall; [|done].
    constructor; [done|]. apply Forall_forall. intros r' Hin.
    rewrite forallb_forall in Hall. apply Nat.eqb_eq, Hall. by apply list_elem_of_In.
  - intros [Hne [n Hn]]. exists (Py.stacked arrays). by apply (np_stack_uniform arrays n).
Qed.

Lemma np_stack_result arrays m : Py.np_stack arrays = Ok m -> m = Py.stacked arrays.
Proof.
  destruct arrays as [|r rest]; [done|]. cbn [Py.np_stack].
  destruct (forallb _ rest); [|done]. by intros [= <-].
Qed.

Lemma stacked_rows_length arrays n :
  Forall (fun a => length (Py.items a) = n) arrays ->
  Forall (fun r => length r = n) (Py.rows (Py.stacked arrays)).
Proof.
  intros H. cbn. apply Forall_fmap. eapply Forall_impl; [exact H|].
  intros a Ha. cbn. by rewrite promoted_length.
Qed.

Lemma add_rows_lookup t rows acc n i :
  length acc = n -> Forall (fun r => length r = n) rows -> (i < n)%nat ->
  fold_left (Py.add_row t) rows acc !! i
  = (fun a => fold_left (Py.add_at t) (column i rows) a) <$> acc !! i.
Proof.
  revert acc. induction rows as [|r rows IH]; intros acc Hacc Hrows Hi; cbn [fold_left].
  { cbn. by destruct (acc !! i). }
  apply Forall_cons in Hrows as [Hr Hrows].
  rewrite IH; [| |done|done].
  - unfold Py.add_row. rewrite lookup_zip_with.
    destruct (acc !! i) as [a|] eqn:Ha; cbn; [|done].
    assert (Hri : r !! i = Some (nth i r zero)).
    { destruct (lookup_lt_is_Some_2 r i) as [y Hy]; [lia|].
      by rewrite (nth_lookup_Some r i zero y Hy). }
    rewrite Hri. cbn. reflexivity.
  - unfold Py.add_row. rewrite length_zip_with. lia.
Qed.

Lemma add_rows_length t rows acc n :
  length acc = n -> Forall (fun r => length r = n) rows ->
  length (fold_left (Py.add_row t) rows acc) = n.
Proof.
  revert acc. induction rows as [|r rows IH]; intros acc Hacc Hrows; cbn [fold_left]; [done|].
  apply Forall_cons in Hrows as [Hr Hrows]. apply IH; [|done].
  unfold Py.add_row. rewrite length_zip_with. lia.
Qed.

(** The mean along axis 0 is, component by component, the mean of the
    column. *)
Lemma np_mean_axis0_spec t rows n :
  rows <> [] -> Forall (fun r => length r = n) rows ->
  let a := Py.np_mean_axis0 {| Py.dtype2 := t; Py.rows := rows |} in
  Py.dtype_of a = t
  /\ length (Py.items a) = n
  /\ forall i, (i < n)%nat -> Py.items a !! i = Some (column_mean t (column i rows)).
Proof.
  intros Hne Hrows. destruct rows as [|r rest]; [done|].
  assert (Hr : length r = n) by (by apply Forall_cons in Hrows as [? _]).
  cbn zeta. unfold Py.np_mean_axis0.
  cbn [Py.rows Py.dtype2 Py.dtype_of Py.items]. rewrite Hr.
  split; [done|]. split.
  - rewrite length_fmap. apply add_rows_length; [apply length_replicate|done].
  - intros i Hi. rewrite list_lookup_fmap.
    rewrite (add_rows_lookup _ _ _ n i); [|apply length_replicate|done|done].
    rewrite lookup_replicate_2 by done. cbn [fmap option_fmap option_map].
    unfold column_mean, column. by rewrite length_fmap.
Qed.

Lemma column_mean_pair t x y : column_mean t [x; y] = column_mean t [y; x].
Proof.
  unfold column_mean. cbn [fold_left length].
  by rewrite !add_at_neg_zero_l, (add_at_comm t x y).
Qed.

Lemma np_mean_axis0_pair t r1 r2 :
  length r1 = length r2 ->
  Py.np_mean_axis0 {| Py.dtype2 := t; Py.rows := [r1; r2] |}
  = Py.np_mean_axis0 {| Py.dtype2 := t; Py.rows := [r2; r1] |}.
Proof.
  intros Hlen.
  destruct (np_mean_axis0_spec t [r1; r2] (length r1)) as (Ht1 & Hl1 & Hi1); [done| |].
  { repeat constructor; done. }
  destruct (np_mean_axis0_spec t [r2; r1] (length r1)) as (Ht2 & Hl2 & Hi2); [done| |].
  { repeat constructor; done. }
  cbn zeta in *.
  destruct (Py.np_mean_axis0 {| Py.dtype2 := t; Py.rows := [r1; r2] |}) as [t1 i1].
  destruct (Py.np_mean_axis0 {| Py.dtype2 := t; Py.rows := [r2; r1] |}) as [t2 i2].
  cbn in *. subst t1 t2. f_equal.
  apply list_eq. intros i. destruct (decide (i < length r1)%nat) as [Hi|Hi].
  - rewrite Hi1, Hi2 by done. f_equal. apply column_mean_pair.
  - rewrite !lookup_ge_None_2; [done|lia..].
Qed.

Lemma result_type_pair t1 t2 : Py.result_type [t1; t2] = Py.result_type [t2; t1].
Proof. by destruct t1, t2. Qed.

Lemma np_mean_axis0_stacked_pair a b :
  length (Py.items a) = length (Py.items b) ->
  Py.np_mean_axis0 (Py.stacked [a; b]) = Py.np_mean_axis0 (Py.stacked [b; a]).
Proof.
  intros Hlen. unfold Py.stacked. cbn [fmap list_fmap].
  rewrite (result_type_pair (Py.dtype_of b) (Py.dtype_of a)).
  apply np_mean_axis0_pair. by rewrite !promoted_length.
Qed.
End numpy.

(** ** The profile combiner *)

Section combiner.
Import F64 Combiner.

Lemma all_formants_frequencies l :
  Forall frequency_formants l -> Forall is_frequency (all_formants l).
Proof.
  intros Hl. unfold all_formants. apply Forall_concat, Forall_fmap.
  eapply Forall_impl; [exact Hl|]. done.
Qed.

Lemma all_formants_Permutation l l' : l ≡ₚ l' -> all_formants l ≡ₚ all_formants l'.
Proof. intros H. unfold all_formants. by rewrite H. Qed.

(** The list handed out for a stack of arrays of length [n]: [n] Python
    floats, the means of the components. *)
Lemma tolist_mean_stacked arrays n :
  arrays <> [] -> Forall (fun a => length (Py.items a) = n) arrays ->
  length (Py.tolist (Py.np_mean_axis0 (Py.stacked arrays))) = n
  /\ forall i, (i < n)%nat ->
       Py.tolist (Py.np_mean_axis0 (Py.stacked arrays)) !! i
       = Some (component_mean i arrays).
Proof.
  intros Hne Hlen. unfold Py.stacked.
  destruct (np_mean_axis0_spec (Py.result_type (Py.dtype_of <$> arrays))
              (Py.promoted (Py.result_type (Py.dtype_of <$> arrays)) <$> arrays) n)
    as (Ht & Hl & Hi).
  { intros H. by apply fmap_nil_inv in H. }
  { exact (stacked_rows_length arrays n Hlen). }
  cbn zeta in *. unfold Py.tolist. rewrite length_fmap, Ht. split; [done|].
  intros i Hlt. rewrite list_lookup_fmap, (Hi i Hlt). done.
Qed.

(** The dict built by the combiner once both stacks are made. *)
Lemma combine_ok l :
  l <> [] ->
  Py.np_stack (mfcc_features <$> l) = Ok (Py.stacked (mfcc_features <$> l)) ->
  Py.np_stack (chroma_features <$> l) = Ok (Py.stacked (chroma_features <$> l)) ->
  exists p,
    _combine_voice_characteristics l = Ok p
    /\ p !! "fundamental_frequency" = Some (PNum (Py.np_mean (fundamental_frequency <$> l)))
    /\ p !! "spectral_centroid" = Some (PNum (Py.np_mean (spectral_centroid <$> l)))
    /\ p !! "spectral_rolloff" = Some (PNum (Py.np_mean (spectral_rolloff <$> l)))
    /\ p !! "zero_crossing_rate" = Some (PNum (Py.np_mean (zero_crossing_rate <$> l)))
    /\ p !! "tempo" = Some (PNum (Py.np_mean (tempo <$> l)))
    /\ p !! "pitch_variance" = Some (PNum (Py.np_mean (pitch_variance <$> l)))
    /\ p !! "voice_quality_score" = Some (PNum (Py.np_mean (voice_quality_score <$> l)))
    /\ p !! "mfcc_features"
       = Some (PVec (Py.tolist (Py.np_mean_axis0 (Py.stacked (mfcc_features <$> l)))))
    /\ p !! "chroma_features"
       = Some (PVec (Py.tolist (Py.np_mean_axis0 (Py.stacked (chroma_features <$> l)))))
    /\ p !! "formants" = Some (PVec (combined_formants l)).
Proof.
  intros Hne Hm Hc. unfold _combine_voice_characteristics.
  destruct l as [|c l]; [done|]. rewrite Hm, Hc.
  eexists. split; [reflexivity|].
  repeat split; by simplify_map_eq.
Qed.

(** C1.  For a non-empty list of samples with 13 MFCC coefficients and 12
    chroma bins, the combiner returns a dict whose seven scalar entries are
    the means of the samples' fields, as [np.mean] takes them (numpy's
    pairwise sum of the values, divided by their number), and whose MFCC and
    chroma entries have 13 and 12 components, each the mean of that
    component over the samples, taken in the dtype of the arrays (float32
    for what the extractor supplies) and handed out as a Python float.
    Its formants are [500, 1500, 2500, 3500] when no sample has a formant;
    otherwise, the formants being frequencies, they are the first four of
    the deduplicated ascending union of the samples' formants. *)
Theorem combine_voice_characteristics_means (l : list VoiceCharacteristics) :
  l <> [] -> Forall fixed_lengths l ->
  exists p mfcc chroma fs,
    _combine_voice_characteristics l = Ok p
    /\ p !! "fundamental_frequency" = Some (PNum (Py.np_mean (fundamental_frequency <$> l)))
    /\ p !! "spectral_centroid" = Some (PNum (Py.np_mean (spectral_centroid <$> l)))
    /\ p !! "spectral_rolloff" = Some (PNum (Py.np_mean (spectral_rolloff <$> l)))
    /\ p !! "zero_crossing_rate" = Some (PNum (Py.np_mean (zero_crossing_rate <$> l)))
    /\ p !! "tempo" = Some (PNum (Py.np_mean (tempo <$> l)))
    /\ p !! "pitch_variance" = Some (PNum (Py.np_mean (pitch_variance <$> l)))
    /\ p !! "voice_quality_score" = Some (PNum (Py.np_mean (voice_quality_score <$> l)))
    /\ p !! "mfcc_features" = Some (PVec mfcc)
    /\ length mfcc = 13%nat
    /\ (forall i, (i < 13)%nat ->
          mfcc !! i = Some (component_mean i (mfcc_features <$> l)))
    /\ p !! "chroma_features" = Some (PVec chroma)
    /\ length chroma = 12%nat
    /\ (forall i, (i < 12)%nat ->
          chroma !! i = Some (component_mean i (chroma_features <$> l)))
    /\ p !! "formants" = Some (PVec fs)
    /\ (all_formants l = [] -> fs = default_formants)
    /\ (all_formants l <> [] -> Forall frequency_formants l ->
          exists u, ascending_distinct (all_formants l) u /\ fs = take 4 u).
Proof.
  intros Hne Hlen.
  assert (Hm : Forall (fun a => length (Py.items a) = 13%nat) (mfcc_features <$> l)).
  { apply Forall_fmap. eapply Forall_impl; [exact Hlen|]. by intros c [? ?]. }
  assert (Hc : Forall (fun a => length (Py.items a) = 12%nat) (chroma_features <$> l)).
  { apply Forall_fmap. eapply Forall_impl; [exact Hlen|]. by intros c [? ?]. }
  assert (Hne' : forall (f : VoiceCharacteristics -> Py.ndarray), f <$> l <> []).
  { intros f H. apply fmap_nil_inv in H. done. }
  destruct (combine_ok l Hne (np_stack_uniform _ _ (Hne' _) Hm)
              (np_stack_uniform _ _ (Hne' _) Hc))
    as (p & Hp & H1 & H2 & H3 & H4 & H5 & H6 & H7 & H8 & H9 & H10).
  destruct (tolist_mean_stacked _ _ (Hne' mfcc_features) Hm) as [Hml Hmi].
  destruct (tolist_mean_stacked _ _ (Hne' chroma_features) Hc) as [Hcl Hci].
  exists p, (Py.tolist (Py.np_mean_axis0 (Py.stacked (mfcc_features <$> l)))),
    (Py.tolist (Py.np_mean_axis0 (Py.stacked (chroma_features <$> l)))),
    (combined_formants l).
  do 8 (split; [assumption|]).
  split; [assumption|]. split; [exact Hml|]. split; [exact Hmi|].
  split; [assumption|]. split; [exact Hcl|]. split; [exact Hci|].
  split; [assumption|]. unfold combined_formants. split.
  - by intros ->.
  - intros Hsome Hfreq. exists (Py.sorted (Py.set (all_formants l))). split.
    + by apply sorted_set_ascending_distinct, all_formants_frequencies.
    + by destruct (all_formants l).
Qed.

Lemma combine_voice_characteristics_means_witness :
  exists p fs,
    _combine_voice_characteristics three_samples = Ok p
    /\ p !! "voice_quality_score"
       = Some (PNum (Py.np_mean (voice_quality_score <$> three_samples)))
    /\ p !! "formants" = Some (PVec fs)
    /\ exists u, ascending_distinct (all_formants three_samples) u /\ fs = take 4 u.
Proof.
  destruct (combine_voice_characteristics_means three_samples)
    as (p & mfcc & chroma & fs & Hp & _ & _ & _ & _ & _ & _ & Hq & _ & _ & _ & _ & _ & _
        & Hf & _ & Hu).
  - discriminate.
  - repeat constructor.
  - exists p, fs. split; [exact Hp|]. split; [exact Hq|]. split; [exact Hf|].
    apply Hu; [discriminate|repeat constructor].
Defined.
End combiner.

(** ** Order of the samples *)

Section sample_order.
Import F64 Combiner.

(** The two means, evaluated: 0.20000000000000004 and 0.19999999999999998. *)
Example quality_of_three_samples :
  quality_of (_combine_voice_characteristics three_samples)
  = Some (PNum (S754_finite false 7205759403792795 (-55)))
  /\ quality_of (_combine_voice_characteristics (reverse three_samples))
     = Some (PNum (S754_finite false 7205759403792793 (-55))).
Proof. split; vm_compute; reflexivity. Qed.

(** C7, as stated, fails: [np.mean] adds three scores in list order and
    binary64 addition is not associative.  With scores 0.1, 0.2, 0.3 the
    combined score is 0.20000000000000004; with the list reversed it is
    0.19999999999999998. *)
Lemma combine_depends_on_order : ~ order_independent.
Proof.
  intros H.
  specialize (H three_samples (reverse three_samples)).
  assert (Heq : quality_of (_combine_voice_characteristics (reverse three_samples))
                = quality_of (_combine_voice_characteristics three_samples)).
  { f_equal. apply H; [discriminate|]. symmetry. apply reverse_Permutation. }
  destruct quality_of_three_samples as [H1 H2].
  rewrite H1, H2 in Heq. discriminate Heq.
Qed.

Lemma combined_formants_Permutation l l' :
  l ≡ₚ l' -> Forall frequency_formants l ->
  combined_formants l' = combined_formants l.
Proof.
  intros Hperm Hfreq. unfold combined_formants.
  pose proof (all_formants_Permutation l l' Hperm) as Hall.
  pose proof (all_formants_frequencies l Hfreq) as Hf.
  assert (Hf' : Forall is_frequency (all_formants l')) by (by rewrite <- Hall).
  destruct (all_formants l) as [|x xs] eqn:E.
  { apply Permutation_nil in Hall. by rewrite Hall. }
  destruct (all_formants l') as [|x' xs'] eqn:E'.
  { symmetry in Hall. by apply Permutation_nil in Hall. }
  f_equal. apply (ascending_distinct_unique (x :: xs)); [done| |].
  - destruct (sorted_set_ascending_distinct (x' :: xs') Hf') as [Hs He].
    split; [done|]. intros y. by rewrite He, Hall.
  - by apply sorted_set_ascending_distinct.
Qed.

Lemma combine_ok_inv l p :
  _combine_voice_characteristics l = Ok p ->
  l <> []
  /\ Py.np_stack (mfcc_features <$> l) = Ok (Py.stacked (mfcc_features <$> l))
  /\ Py.np_stack (chroma_features <$> l) = Ok (Py.stacked (chroma_features <$> l)).
Proof.
  unfold _combine_voice_characteristics. destruct l as [|c l]; [done|].
  destruct (Py.np_stack (mfcc_features <$> c :: l)) as [m|] eqn:Hm; [|done].
  destruct (Py.np_stack (chroma_features <$> c :: l)) as [ch|] eqn:Hc; [|done].
  intros _. apply np_stack_result in Hm as ->. apply np_stack_result in Hc as ->. done.
Qed.

Lemma np_stack_Permutation (rows rows' : list Py.ndarray) :
  rows ≡ₚ rows' -> Py.np_stack rows = Ok (Py.stacked rows) ->
  Py.np_stack rows' = Ok (Py.stacked rows').
Proof.
  intros Hperm Hok.
  destruct (proj1 (np_stack_ok rows)) as [Hne [n Hn]]; [by eexists|].
  apply (np_stack_uniform rows' n).
  - intros ->. by apply Permutation_nil_r in Hperm.
  - by rewrite <- Hperm.
Qed.

Lemma combine_pair a b :
  Forall frequency_formants [a; b] ->
  _combine_voice_characteristics [b; a] = _combine_voice_characteristics [a; b].
Proof.
  intros Hfreq.
  assert (Hform : combined_formants [b; a] = combined_formants [a; b]).
  { apply combined_formants_Permutation; [apply Permutation_swap|done]. }
  unfold _combine_voice_characteristics. rewrite Hform.
  cbn [fmap list_fmap Py.np_stack forallb andb].
  rewrite (np_mean_pair (fundamental_frequency b) (fundamental_frequency a)),
    (np_mean_pair (spectral_centroid b) (spectral_centroid a)),
    (np_mean_pair (spectral_rolloff b) (spectral_rolloff a)),
    (np_mean_pair (zero_crossing_rate b) (zero_crossing_rate a)),
    (np_mean_pair (tempo b) (tempo a)),
    (np_mean_pair (pitch_variance b) (pitch_variance a)),
    (np_mean_pair (voice_quality_score b) (voice_quality_score a)).
  rewrite (Nat.eqb_sym (length (Py.items (mfcc_features a)))
                       (length (Py.items (mfcc_features b)))).
  rewrite (Nat.eqb_sym (length (Py.items (chroma_features a)))
                       (length (Py.items (chroma_features b)))).
  destruct (Nat.eqb_spec (length (Py.items (mfcc_features b)))
                         (length (Py.items (mfcc_features a)))) as [Hm|]; [|done].
  destruct (Nat.eqb_spec (length (Py.items (chroma_features b)))
                         (length (Py.items (chroma_features a)))) as [Hc|]; [|done].
  cbn [andb].
  by rewrite (np_mean_axis0_stacked_pair _ _ Hm), (np_mean_axis0_stacked_pair _ _ Hc).
Qed.

(** C7, amended.  For a non-empty list of samples whose formants are
    frequencies, and any permutation of it: the combined formants are the
    same; the combiner succeeds on the permuted list whenever it does on the
    original, with the same [formants] entry; and for at most two samples
    the whole result is the same.  (The averaged entries of three or more
    samples are sums taken in an order that follows the list, and may
    differ in the last bit.) *)
Theorem combine_order_independent_formants (l l' : list VoiceCharacteristics) :
  l <> [] -> l ≡ₚ l' -> Forall frequency_formants l ->
  combined_formants l' = combined_formants l
  /\ (forall p, _combine_voice_characteristics l = Ok p ->
        exists p', _combine_voice_characteristics l' = Ok p'
                   /\ p' !! "formants" = p !! "formants"
                   /\ p !! "formants" = Some (PVec (combined_formants l)))
  /\ ((length l <= 2)%nat ->
        _combine_voice_characteristics l' = _combine_voice_characteristics l).
Proof.
  intros Hne Hperm Hfreq.
  pose proof (combined_formants_Permutation l l' Hperm Hfreq) as Hform.
  split; [exact Hform|]. split.
  - intros p Hp. destruct (combine_ok_inv l p Hp) as (_ & Hm & Hc).
    assert (Hne' : l' <> []).
    { intros ->. by apply Permutation_nil_r in Hperm. }
    destruct (combine_ok l Hne Hm Hc) as (q & Hq & Hrest).
    assert (q = p) as -> by congruence.
    destruct (combine_ok l' Hne') as (p' & Hp' & Hrest').
    { apply (np_stack_Permutation (mfcc_features <$> l)); [by rewrite Hperm|done]. }
    { apply (np_stack_Permutation (chroma_features <$> l)); [by rewrite Hperm|done]. }
    exists p'. split; [done|].
    destruct Hrest as (_ & _ & _ & _ & _ & _ & _ & _ & _ & Hf).
    destruct Hrest' as (_ & _ & _ & _ & _ & _ & _ & _ & _ & Hf').
    split; [|exact Hf]. by rewrite Hf, Hf', Hform.
  - intros Hlen. destruct l as [|a [|b [|c l]]]; [done| | |cbn in Hlen; lia].
    + apply Permutation_singleton_l in Hperm as ->. done.
    + apply Permutation_length_2_inv in Hperm as [->| ->]; [done|].
      by apply combine_pair.
Qed.

Lemma combine_order_independent_formants_witness :
  combined_formants (reverse three_samples) = combined_formants three_samples.
Proof.
  destruct (combine_order_independent_formants three_samples (reverse three_samples))
    as [H _].
  - discriminate.
  - symmetry. apply reverse_Permutation.
  - repeat constructor.
  - exact H.
Defined.

(** The formants of the three samples: 300, 700 and 2400 Hz. *)
Example combined_formants_three_samples :
  combined_formants three_samples = [of_Z 300; of_Z 700; of_Z 2400].
Proof. vm_compute. reflexivity. Qed.
End sample_order.

(** ** A program logic for the worker *)

Section worker_logic.
Import Job Engine Worker.
Open Scope Q_scope.

Lemma wp_mono {A} (w : W A) (Φ Φ' : A -> view -> Prop) (Ψ Ψ' : exn -> view -> Prop) s :
  (forall a s', Φ a s' -> Φ' a s') -> (forall e s', Ψ e s' -> Ψ' e s') ->
  wp w Φ Ψ s -> wp w Φ' Ψ' s.
Proof.
  intros HΦ HΨ. revert s.
  induction w as [a|e|key v k IH|key k IH|k IH|d k IH|f k IH]; intros s; cbn; auto.
  intros (s' & Hw & Hg & Hk). exists s'. auto.
Qed.

Lemma wp_bind {A B} (m : W A) (f : A -> W B) Φ Ψ s :
  wp m (fun a s' => wp (f a) Φ Ψ s') Ψ s -> wp (m ≫= f) Φ Ψ s.
Proof.
  unfold mbind, W_bind. revert s.
  induction m as [a|e|key v k IH|key k IH|k IH|d k IH|g k IH]; intros s; cbn; auto.
  intros (s' & Hw & Hg & Hk). exists s'. auto.
Qed.

Lemma wp_try_except {A} (m : W A) (h : exn -> W A) Φ Ψ s :
  wp m Φ (fun e s' => wp (h e) Φ Ψ s') s -> wp (try_except m h) Φ Ψ s.
Proof.
  revert s.
  induction m as [a|e|key v k IH|key k IH|k IH|d k IH|g k IH]; intros s; cbn; auto.
  intros (s' & Hw & Hg & Hk). exists s'. auto.
Qed.

Lemma wp_set_item {B} key v (f : unit -> W B) Φ Ψ s s' :
  write_view key v s = Some s' -> guarantee s s' -> wp (f tt) Φ Ψ s' ->
  wp (set_item key v ≫= f) Φ Ψ s.
Proof. intros Hw Hg Hk. apply wp_bind. cbn. exists s'. auto. Qed.

Lemma wp_lift {A B} (r : result A) (f : A -> W B) Φ Ψ s :
  match r with Ok a => wp (f a) Φ Ψ s | Raise e => Ψ e s end ->
  wp (lift r ≫= f) Φ Ψ s.
Proof. intros H. apply wp_bind. by destruct r. Qed.
End worker_logic.

(** ** The worker keeps its guarantee *)

Section worker_safe.
Import Job Engine Worker.
Open Scope Q_scope.

Lemma Qnat_nonneg n : 0 <= Qnat n.
Proof. unfold Qnat, Qle. cbn. lia. Qed.

Lemma Qnat_le a b : (a <= b)%nat -> Qnat a <= Qnat b.
Proof. intros H. unfold Qnat, Qle. cbn. lia. Qed.

Lemma share_nonneg a n : 0 <= 15 * Qnat a / Qnat n.
Proof.
  unfold Qdiv. apply Qmult_le_0_compat.
  - apply Qmult_le_0_compat; [done|apply Qnat_nonneg].
  - apply Qinv_le_0_compat, Qnat_nonneg.
Qed.

Lemma share_le a b n : (a <= b)%nat -> 15 * Qnat a / Qnat n <= 15 * Qnat b / Qnat n.
Proof.
  intros H. unfold Qdiv. apply Qmult_le_compat_r.
  - apply Qmult_le_l; [done|]. by apply Qnat_le.
  - apply Qinv_le_0_compat, Qnat_nonneg.
Qed.

Lemma share_le_all i n : (i <= n)%nat -> 15 * Qnat i / Qnat n <= 15.
Proof.
  intros H. destruct n as [|n].
  - assert (i = 0%nat) as -> by lia. done.
  - apply Qle_trans with (y := 15 * Qnat (S n) / Qnat (S n)); [by apply share_le|].
    assert (Hn : ~ Qnat (S n) == 0).
    { unfold Qnat, Qeq. cbn. lia. }
    apply Qle_lteq. right. field. exact Hn.
Qed.

Lemma share_zero n : 70 + 15 * Qnat 0 / Qnat n == 70.
Proof. unfold Qdiv. change (Qnat 0) with 0. ring. Qed.

Lemma py_min_le_r a b : py_min a b <= b.
Proof.
  unfold py_min, Qltb. destruct (Qle_bool a b) eqn:E; cbn.
  - by apply Qle_bool_iff.
  - apply Qle_refl.
Qed.

Lemma py_min_le_l a b : py_min a b <= a.
Proof.
  unfold py_min, Qltb. destruct (Qle_bool a b) eqn:E; cbn.
  - apply Qle_refl.
  - apply Qlt_le_weak, Qnot_le_lt. intros H. apply Qle_bool_iff in H. congruence.
Qed.

Lemma py_min_glb p a b : p <= a -> p <= b -> p <= py_min a b.
Proof. intros Ha Hb. unfold py_min. by destruct (Qltb b a). Qed.

Lemma iterations_positive quality :
  (0 < default 15 (training_iterations !! quality))%nat.
Proof.
  unfold training_iterations.
  repeat (rewrite lookup_insert; case_decide; [cbn; lia|]).
  rewrite lookup_empty. cbn. lia.
Qed.

Lemma guarantee_refl s : good s -> guarantee s s.
Proof. intros H. split; [apply Qle_refl|done]. Qed.

(** A write to a key the view does not track. *)
Lemma wp_set_other {B} key v (f : unit -> W B) Φ Ψ s :
  write_view key v s = Some s -> good s -> wp (f tt) Φ Ψ s ->
  wp (set_item key v ≫= f) Φ Ψ s.
Proof. intros Hw Hg Hk. eapply wp_set_item; [exact Hw|by apply guarantee_refl|done]. Qed.

Lemma wp_now {B} (f : string -> W B) Φ Ψ s :
  (forall t, wp (f t) Φ Ψ s) -> wp (now ≫= f) Φ Ψ s.
Proof. intros H. apply wp_bind. cbn. done. Qed.

Lemma wp_dump {B} d (f : unit -> W B) Φ Ψ s :
  wp (f tt) Φ Ψ s -> (forall e, Ψ e s) -> wp (dump d ≫= f) Φ Ψ s.
Proof. intros H HΨ. apply wp_bind. cbn. intros [[]|e]; cbn; auto. Qed.

Lemma wp_score {B} g (f : F64.float -> W B) Φ Ψ s :
  (forall x, wp (f x) Φ Ψ s) -> (forall e, Ψ e s) -> wp (score g ≫= f) Φ Ψ s.
Proof. intros H HΨ. apply wp_bind. cbn. intros [x|e]; cbn; auto. Qed.

(** The labels of two successive rows differ, so one record never shows
    two rows. *)
Lemma next_label_differs k :
  (k < 7)%nat -> String.eqb (fst (next_row (S k))) (stage_name k) = false.
Proof. intros H. do 7 (destruct k as [|k]; [reflexivity|]). lia. Qed.

Lemma shows_own_row k : (k < 7)%nat -> shows (next_row k) (stage_name k) (stage_mark k) = true.
Proof. intros H. do 7 (destruct k as [|k]; [reflexivity|]). lia. Qed.

(** Entering stage [k]: [job['current_stage'] = stages[k][0]] and
    [job['progress'] = stages[k][1]], from a record that has shown the [k]
    rows before. *)
Lemma wp_enter_stage {B} k (f : unit -> W B) Φ Ψ status stage progress :
  (k < 7)%nat -> progress <= stage_mark k ->
  status = "training"%string
  \/ (status <> "completed"%string /\ stage_mark k < 100) ->
  wp (f tt) Φ Ψ {| v_status := status; v_stage := stage_name k;
                   v_progress := stage_mark k; v_passed := S k |} ->
  wp (set_item "current_stage" (JStr (stage_name k)) ≫= fun _ =>
      set_item "progress" (JNum (stage_mark k)) ≫= f) Φ Ψ
     {| v_status := status; v_stage := stage; v_progress := progress; v_passed := k |}.
Proof.
  intros Hk Hle Hstatus Hrest.
  assert (Hgood : forall q p, q <= stage_mark k -> good {| v_status := status;
            v_stage := stage_name k; v_progress := q; v_passed := p |}).
  { intros q p Hq. split; cbn.
    - intros H100. destruct Hstatus as [->|[_ Hlt]]; [by left|].
      exfalso. apply (Qlt_not_le _ _ Hlt). by rewrite <- H100.
    - intros ->. destruct Hstatus as [?|[? _]]; done. }
  eapply wp_set_item; [reflexivity| |].
  { split; [apply Qle_refl|]. by apply Hgood. }
  unfold observe at 1.
  eapply wp_set_item; [reflexivity| |].
  { split; [exact Hle|]. apply Hgood, Qle_refl. }
  unfold observe; cbn [v_status v_stage v_progress v_passed].
  destruct (shows (next_row k) (stage_name k) progress) eqn:E.
  - unfold shows at 1. rewrite (next_label_differs k Hk). exact Hrest.
  - rewrite (shows_own_row k Hk). exact Hrest.
Qed.

(** The [except] branch keeps the guarantee from any record. *)
Lemma wp_train_failed e s : wp (train_failed e) top top s.
Proof.
  destruct s as [status stage progress passed]. unfold train_failed.
  assert (Hgood : good {| v_status := "failed"; v_stage := stage;
                          v_progress := progress; v_passed := passed |}).
  { split; cbn; [intros _; right; by right|done]. }
  eapply wp_set_item; [reflexivity|split; [apply Qle_refl|exact Hgood]|].
  eapply wp_set_other; [reflexivity|exact Hgood|].
  apply wp_now. intros t.
  eapply wp_set_other; [reflexivity|exact Hgood|].
  exact I.
Qed.

(** Stage 2, from file [i] on. *)
Lemma wp_extract_all env n files i acc Φ progress :
  progress <= 35 -> progress <= 20 + 15 * Qnat (i + 1) / Qnat n ->
  (forall l q, q <= 35 ->
     Φ l {| v_status := "analyzing"; v_stage := stage_name 1;
            v_progress := q; v_passed := 2 |}) ->
  wp (extract_all env n i files acc) Φ top
     {| v_status := "analyzing"; v_stage := stage_name 1;
        v_progress := progress; v_passed := 2 |}.
Proof.
  revert i acc progress. induction files as [|file_path rest IH];
    intros i acc progress H35 Hshare HΦ; cbn [extract_all].
  { by apply HΦ. }
  apply wp_lift. destruct (load_audio env file_path) as [a|e]; [|exact I].
  apply wp_lift. destruct (extract env file_path) as [c|e]; [|exact I].
  change (stage_mark 1) with 20. change (stage_mark 2) with 35.
  set (q := py_min _ 35).
  assert (Hq35 : q <= 35) by apply py_min_le_r.
  assert (Hqs : q <= 20 + 15 * Qnat (i + 1) / Qnat n).
  { apply Qle_trans with (y := 20 + (35 - 20) * Qnat (i + 1) / Qnat n);
      [apply py_min_le_l|]. apply Qle_lteq. right. unfold Qdiv. ring. }
  assert (Hpq : progress <= q).
  { apply py_min_glb; [|done].
    apply Qle_trans with (y := 20 + 15 * Qnat (i + 1) / Qnat n); [done|].
    apply Qle_lteq. right. unfold Qdiv. ring. }
  clearbody q.
  eapply wp_set_item; [reflexivity| |].
  { split; [exact Hpq|]. split; cbn.
    - intros H100. exfalso. rewrite H100 in Hq35. by apply Qle_not_lt in Hq35.
    - done. }
  unfold observe; cbn [v_status v_stage v_progress v_passed].
  change (shows (next_row 2) (stage_name 1) q) with false. cbn iota.
  apply IH; [done| |done].
  apply Qle_trans with (y := 20 + 15 * Qnat (i + 1) / Qnat n); [done|].
  apply Qplus_le_r. apply share_le. lia.
Qed.

(** Stage 4, from iteration [i] on.  The first iteration sets progress to
    70, which shows the fourth row of the table. *)
Lemma wp_train_iterations iterations remaining i Φ progress passed :
  (0 < iterations)%nat -> (i + remaining = iterations)%nat ->
  progress <= 70 + 15 * Qnat i / Qnat iterations ->
  passed = (match i with O => 3 | S _ => 4 end)%nat ->
  (forall q p, Φ true {| v_status := "training"; v_stage := stage_name 3;
                         v_progress := q; v_passed := p |}) ->
  (forall q, q <= 85 ->
     Φ false {| v_status := "training"; v_stage := stage_name 3;
                v_progress := q; v_passed := 4 |}) ->
  wp (train_iterations iterations remaining i) Φ top
     {| v_status := "training"; v_stage := stage_name 3;
        v_progress := progress; v_passed := passed |}.
Proof.
  intros Hpos. revert i progress passed.
  induction remaining as [|remaining IH]; intros i progress passed Hsum Hp Hpassed Htrue Hfalse;
    cbn [train_iterations].
  { assert (i = iterations) as -> by lia.
    destruct iterations as [|n]; [lia|]. subst passed. apply Hfalse.
    apply Qle_trans with (y := 70 + 15 * Qnat (S n) / Qnat (S n)); [done|].
    change 85 with (70 + 15). apply Qplus_le_r. by apply share_le_all. }
  apply wp_bind. cbn [get_item wp]. intros [v|]; [|exact I].
  destruct (is_cancelled v); [apply Htrue|].
  change (stage_mark 3) with 70. change (stage_mark 4) with 85.
  set (q := 70 + (85 - 70) * Qnat i / Qnat iterations).
  assert (Hq : q == 70 + 15 * Qnat i / Qnat iterations).
  { subst q. unfold Qdiv. ring. }
  assert (Hgood : forall p, good {| v_status := "training"; v_stage := stage_name 3;
                                    v_progress := q; v_passed := p |}).
  { intros p. split; cbn; [intros _; by left|done]. }
  assert (Hshown : (if shows (next_row passed) (stage_name 3) q then S passed else passed)
                   = 4%nat).
  { subst passed. destruct i as [|i].
    - assert (Hs : shows (next_row 3) (stage_name 3) q = true).
      { unfold shows. cbn [fst snd next_row nth stages]. apply andb_true_intro.
        split; [reflexivity|]. apply Qeq_bool_iff. rewrite Hq. symmetry. apply share_zero. }
      by rewrite Hs.
    - reflexivity. }
  clearbody q.
  eapply wp_set_item; [reflexivity| |].
  { split; [|apply Hgood]. cbn.
    apply Qle_trans with (y := 70 + 15 * Qnat i / Qnat iterations); [exact Hp|].
    apply Qle_lteq. right. symmetry. exact Hq. }
  unfold observe; cbn [v_status v_stage v_progress v_passed]. rewrite Hshown.
  eapply wp_set_other; [reflexivity|apply Hgood|].
  apply IH; [lia| |done|done|done].
  apply Qle_trans with (y := 70 + 15 * Qnat i / Qnat iterations).
  - apply Qle_lteq. right. exact Hq.
  - apply Qplus_le_r. apply share_le. lia.
Qed.

(** The whole call keeps the guarantee, from the record
    [start_voice_cloning] creates. *)
Lemma wp_train_voice_model env job_id audio_files voice_name quality language :
  wp (_train_voice_model env job_id audio_files voice_name quality language)
     top top initial_view.
Proof.
  unfold _train_voice_model. apply wp_try_except.
  apply (wp_mono _ top _ top); [done|intros e s _; apply wp_train_failed|].
  unfold train_body, initial_view.
  (* Stage 1 *)
  eapply wp_set_item; [reflexivity|split; [apply Qle_refl|split; cbn; [|done]]|].
  { intros H. discriminate H. }
  apply (wp_enter_stage 0); [lia|done|right; done|].
  apply wp_lift. destruct (analyze env audio_files _) as [total|e]; [|exact I].
  (* Stage 2 *)
  apply (wp_enter_stage 1); [lia|done|right; done|].
  apply wp_bind. change (stage_mark 1) with 20.
  apply wp_extract_all; [done| |].
  { rewrite <- (Qplus_0_r 20) at 1. apply Qplus_le_r, share_nonneg. }
  intros l q Hq.
  (* Stage 3 *)
  apply (wp_enter_stage 2); [lia|exact Hq|right; done|].
  apply wp_lift. destruct (Combiner._combine_voice_characteristics l) as [combined|e];
    [|exact I].
  (* Stage 4 *)
  eapply wp_set_item; [reflexivity|split; [apply Qle_refl|split; cbn; [by left|done]]|].
  eapply wp_set_item; [reflexivity|split; [apply Qle_refl|split; cbn; [by left|done]]|].
  unfold observe; cbn [v_status v_stage v_progress v_passed].
  change (shows (next_row 3) (stage_name 3) (stage_mark 2)) with false. cbn iota.
  apply wp_bind.
  apply wp_train_iterations;
    [apply iterations_positive|lia| |done|intros q' p; exact I|].
  { change (stage_mark 2) with 35.
    apply Qle_trans with (y := 70 + 0); [done|].
    apply Qplus_le_r, share_nonneg. }
  intros q' Hq'. cbn iota.
  (* Stage 5 *)
  apply (wp_enter_stage 4); [lia|exact Hq'|by left|].
  (* Stage 6 *)
  apply (wp_enter_stage 5); [lia|done|by left|].
  apply wp_score; [|done]. intros quality_score.
  (* Stage 7 *)
  apply (wp_enter_stage 6); [lia|done|by left|].
  apply wp_now. intros created_at.
  apply wp_dump; [|done].
  (* Complete job *)
  assert (Hgood : good {| v_status := "completed"; v_stage := stage_name 6;
                          v_progress := stage_mark 6; v_passed := 7 |}).
  { split; cbn; [intros _; right; by left|done]. }
  eapply wp_set_item; [reflexivity|split; [apply Qle_refl|exact Hgood]|].
  eapply wp_set_other; [reflexivity|exact Hgood|].
  eapply wp_set_other; [reflexivity|exact Hgood|].
  eapply wp_set_other; [reflexivity|exact Hgood|].
  apply wp_now. intros completed_at.
  eapply wp_set_other; [reflexivity|exact Hgood|].
  exact I.
Qed.
End worker_safe.

(** ** Runs of the engine *)

Section runs.
Import Job Engine Worker.
Open Scope Q_scope.

Lemma passes_nil h : passes [] h = true.
Proof. by destruct h. Qed.

Lemma passes_tail row rows h : passes (row :: rows) h = true -> passes rows h = true.
Proof.
  revert row rows. induction h as [|job h IH]; intros row rows; cbn; [done|].
  destruct (record_shows row job).
  - intros H. destruct rows as [|row' rows]; [done|].
    destruct (record_shows row' job); [by apply (IH row')|done].
  - intros H. destruct rows as [|row' rows]; [done|].
    destruct (record_shows row' job); [|by apply (IH row)].
    apply (IH row'), (IH row), H.
Qed.

Lemma agrees_status job s : agrees job s -> status_of job = Some (v_status s).
Proof. intros (H & _ & _). unfold status_of. by rewrite H. Qed.

Lemma agrees_stage job s : agrees job s -> stage_of job = Some (v_stage s).
Proof. intros (_ & H & _). unfold stage_of. by rewrite H. Qed.

Lemma agrees_progress job s : agrees job s -> progress_of job = Some (v_progress s).
Proof. intros (_ & _ & H). unfold progress_of. by rewrite H. Qed.

Lemma agrees_write job s key v s' :
  agrees job s -> write_view key v s = Some s' -> agrees (<[key := v]> job) s'.
Proof.
  intros (H1 & H2 & H3). unfold write_view.
  destruct (String.eqb_spec key "status") as [->|Hs].
  { destruct v; intros [= <-]. unfold agrees. cbn. by simplify_map_eq. }
  destruct (String.eqb_spec key "current_stage") as [->|Hc].
  { destruct v; intros [= <-]. unfold agrees, observe. cbn. by simplify_map_eq. }
  destruct (String.eqb_spec key "progress") as [->|Hp].
  { destruct v; intros [= <-]. unfold agrees, observe. cbn. by simplify_map_eq. }
  intros [= <-]. unfold agrees. by simplify_map_eq.
Qed.

(** A write either leaves the count of rows shown, or the new record shows
    the next row. *)
Lemma write_view_passed key v s s' :
  write_view key v s = Some s' ->
  v_passed s' = v_passed s
  \/ (v_passed s' = S (v_passed s)
      /\ shows (next_row (v_passed s)) (v_stage s') (v_progress s') = true).
Proof.
  unfold write_view.
  destruct (String.eqb key "status").
  { destruct v; intros [= <-]; cbn. by left. }
  destruct (String.eqb key "current_stage").
  { destruct v; intros [= <-]; unfold observe; cbn.
    destruct (shows _ _ _) eqn:E; [by right|by left]. }
  destruct (String.eqb key "progress").
  { destruct v; intros [= <-]; unfold observe; cbn.
    destruct (shows _ _ _) eqn:E; [by right|by left]. }
  intros [= <-]. by left.
Qed.

(** *** What a step leaves alone *)

Lemma job_object_write_job st job_id key v other :
  job_object (write_job st job_id key v) other
  = if decide (other = job_id) then insert key v <$> job_object st job_id
    else job_object st other.
Proof.
  unfold write_job, job_object.
  destruct (training_jobs st !! job_id) as [job|] eqn:Hjob; cbn.
  - case_decide as Ho; [subst; by rewrite lookup_insert_eq|].
    by rewrite lookup_insert_ne.
  - case_decide as Ho.
    + subst. rewrite Hjob. by rewrite lookup_alter_eq.
    + by rewrite lookup_alter_ne.
Qed.

Lemma futures_write_job st job_id key v : futures (write_job st job_id key v) = futures st.
Proof. unfold write_job. by destruct (training_jobs st !! job_id). Qed.

Lemma job_object_forget_job st job_id other :
  job_object (forget_job job_id st) other = job_object st other.
Proof.
  unfold forget_job, job_object.
  destruct (training_jobs st !! job_id) as [job|] eqn:Hjob; cbn; [|done].
  destruct (decide (other = job_id)) as [->|Hne].
  - by rewrite lookup_delete_eq, lookup_insert_eq, Hjob.
  - by rewrite lookup_delete_ne, lookup_insert_ne.
Qed.

Lemma futures_forget_job st job_id : futures (forget_job job_id st) = futures st.
Proof. unfold forget_job. by destruct (training_jobs st !! job_id). Qed.

Lemma job_object_delete st job_id other :
  job_object (snd (delete_voice_model job_id st)) other = job_object st other.
Proof.
  unfold delete_voice_model. destruct (model_dir st !! job_id) as [f|]; cbn.
  - destruct (locked f); cbn; [done|]. by rewrite job_object_forget_job.
  - by rewrite job_object_forget_job.
Qed.

Lemma futures_delete st job_id :
  futures (snd (delete_voice_model job_id st)) = futures st.
Proof.
  unfold delete_voice_model. destruct (model_dir st !! job_id) as [f|]; cbn.
  - destruct (locked f); cbn; [done|]. by rewrite futures_forget_job.
  - by rewrite futures_forget_job.
Qed.

Lemma job_object_cancel_other st job_id other :
  other <> job_id ->
  job_object (snd (cancel_training job_id st)) other = job_object st other.
Proof.
  intros Hne. unfold cancel_training.
  destruct (training_jobs st !! job_id) as [job|]; cbn; [|done].
  rewrite !job_object_write_job. rewrite !decide_False by done.
  by destruct (job !! "future").
Qed.

Lemma futures_cancel_other st job_id other :
  other <> job_id ->
  futures (snd (cancel_training job_id st)) !! other = futures st !! other.
Proof.
  intros Hne. unfold cancel_training.
  destruct (training_jobs st !! job_id) as [job|]; cbn; [|done].
  rewrite !futures_write_job.
  destruct (job !! "future"); cbn; [by rewrite lookup_alter_ne|done].
Qed.

Lemma job_object_set_future st job_id f other :
  job_object (set_future st job_id f) other = job_object st other.
Proof. reflexivity. Qed.

Lemma job_object_work_other env st job_id other :
  other <> job_id -> job_object (work env job_id st) other = job_object st other.
Proof.
  intros Hne. unfold work.
  destruct (futures st !! job_id) as [[call|p| |]|]; try done.
  - by destruct (training_jobs st !! job_id).
  - destruct p as [a|e|key v k|key k|k|d k|f k]; try done.
    + rewrite job_object_set_future, job_object_write_job. by rewrite decide_False.
    + unfold write_model. by destruct (disk st).
    + by destruct (f (rng st)).
Qed.

Lemma futures_work_other env st job_id other :
  other <> job_id -> futures (work env job_id st) !! other = futures st !! other.
Proof.
  intros Hne. unfold work.
  destruct (futures st !! job_id) as [[call|p| |]|]; try done.
  - destruct (training_jobs st !! job_id); cbn; by rewrite lookup_insert_ne.
  - destruct p as [a|e|key v k|key k|k|d k|f k]; cbn;
      try (by rewrite lookup_insert_ne).
    + rewrite lookup_insert_ne by done. by rewrite futures_write_job.
    + unfold write_model. destruct (disk st); cbn; by rewrite lookup_insert_ne.
    + destruct (f (rng st)); cbn; by rewrite lookup_insert_ne.
Qed.

(** *** The invariant of a job that is not cancelled *)

Lemma view_step_refl s : view_step s s.
Proof. split; [apply Qle_refl|by left]. Qed.

Lemma tracked_frame job_id st st' s :
  job_object st' job_id = job_object st job_id ->
  futures st' !! job_id = futures st !! job_id ->
  tracked job_id st s -> tracked job_id st' s.
Proof. intros Hj Hf (Ha & Hg & Hw). unfold tracked. rewrite Hj, Hf. done. Qed.

Lemma work_tracked env job_id st s :
  tracked job_id st s ->
  exists s', tracked job_id (work env job_id st) s' /\ view_step s s'.
Proof.
  intros ((job & Hjob & Hagree) & Hgood & Hwp). unfold work.
  destruct (futures st !! job_id) as [[call|p| |]|] eqn:Hfut.
  - exists s. split; [|apply view_step_refl].
    destruct (training_jobs st !! job_id); (split; [by exists job|split; [done|]]);
      cbn; by rewrite lookup_insert_eq.
  - destruct p as [a|e|key v k|key k|k|d k|f k].
    + exists s. split; [|apply view_step_refl].
      split; [by exists job|split; [done|]]. cbn. by rewrite lookup_insert_eq.
    + exists s. split; [|apply view_step_refl].
      split; [by exists job|split; [done|]]. cbn. by rewrite lookup_insert_eq.
    + destruct Hwp as (s' & Hw & [Hle Hgood'] & Hk). exists s'. split.
      * split; [|split; [done|]].
        -- exists (<[key := v]> job). rewrite job_object_set_future, job_object_write_job.
           rewrite decide_True by done. rewrite Hjob. split; [done|].
           by eapply agrees_write.
        -- cbn. by rewrite lookup_insert_eq.
      * split; [done|]. by eapply write_view_passed.
    + exists s. split; [|apply view_step_refl].
      split; [by exists job|split; [done|]]. cbn. rewrite lookup_insert_eq. apply Hwp.
    + exists s. split; [|apply view_step_refl].
      split; [by exists job|split; [done|]]. cbn. rewrite lookup_insert_eq. apply Hwp.
    + exists s. split; [|apply view_step_refl].
      unfold write_model.
      destruct (disk st); (split; [by exists job|split; [done|]]);
        cbn; rewrite lookup_insert_eq; apply Hwp.
    + exists s. split; [|apply view_step_refl].
      destruct (f (rng st)) as [r g] eqn:Hf.
      split; [by exists job|split; [done|]]. cbn. rewrite lookup_insert_eq. apply Hwp.
  - exists s. split; [|apply view_step_refl].
    split; [by exists job|split; [done|]]. by rewrite Hfut.
  - exists s. split; [|apply view_step_refl].
    split; [by exists job|split; [done|]]. by rewrite Hfut.
  - exists s. split; [|apply view_step_refl].
    split; [by exists job|split; [done|]]. by rewrite Hfut.
Qed.

Lemma step_tracked env job_id ev st s :
  ev <> Cancel job_id -> tracked job_id st s ->
  exists s', tracked job_id (step env ev st) s' /\ view_step s s'.
Proof.
  intros Hev Htr. destruct ev as [other|other|other]; cbn [step].
  - destruct (decide (other = job_id)) as [->|Hne]; [by apply work_tracked|].
    exists s. split; [|apply view_step_refl].
    eapply tracked_frame; [| |exact Htr].
    + by apply job_object_work_other.
    + by apply futures_work_other.
  - assert (Hne : job_id <> other) by congruence.
    exists s. split; [|apply view_step_refl].
    eapply tracked_frame; [| |exact Htr].
    + by apply job_object_cancel_other.
    + by apply futures_cancel_other.
  - exists s. split; [|apply view_step_refl].
    eapply tracked_frame; [| |exact Htr].
    + apply job_object_delete.
    + by rewrite futures_delete.
Qed.

Lemma history_cons env job_id ev rest st job :
  job_object st job_id = Some job ->
  history env job_id (ev :: rest) st = job :: history env job_id rest (step env ev st).
Proof. intros H. unfold history. cbn [run omap list_omap]. by rewrite H. Qed.

Lemma history_nil env job_id st job :
  job_object st job_id = Some job -> history env job_id [] st = [job].
Proof. intros H. unfold history. cbn. by rewrite H. Qed.

Lemma drop_stages k : (k < 7)%nat -> drop k stages = next_row k :: drop (S k) stages.
Proof. intros H. do 7 (destruct k as [|k]; [reflexivity|]). lia. Qed.

Lemma drop_stages_all k : (7 <= k)%nat -> drop k stages = [].
Proof. intros H. apply drop_ge. cbn. lia. Qed.

(** Along a schedule that does not cancel the job: the record is there at
    every step, its progress never decreases, it is at 100 only while
    finalizing, and when the run ends completed the record has shown the
    rows of the stage table that were still to come. *)
Lemma run_tracked env job_id schedule : forall st s,
  Cancel job_id ∉ schedule -> tracked job_id st s ->
  exists job h,
    history env job_id schedule st = job :: h
    /\ agrees job s
    /\ length h = length schedule
    /\ progresses (job :: h) = v_progress s :: progresses h
    /\ length (progresses h) = length h
    /\ nondecreasing (v_progress s :: progresses h)
    /\ Forall (full_only_when finalizing) (job :: h)
    /\ (ends_completed (job :: h) -> passes (drop (v_passed s) stages) h = true).
Proof.
  induction schedule as [|ev rest IH]; intros st s Hfree Htr.
  - destruct Htr as ((job & Hjob & Hagree) & Hgood & _).
    exists job, []. rewrite (history_nil _ _ _ _ Hjob).
    split; [done|]. split; [done|]. split; [done|].
    split. { unfold progresses. cbn. by rewrite (agrees_progress _ _ Hagree). }
    split; [done|]. split; [done|]. split.
    + constructor; [|constructor].
      exists (v_status s), (v_progress s).
      split; [by apply agrees_status|]. split; [by apply agrees_progress|].
      apply Hgood.
    + unfold ends_completed. cbn. rewrite (agrees_status _ _ Hagree).
      intros [= Hc]. destruct Hgood as [_ Hp]. rewrite (Hp Hc). reflexivity.
  - apply not_elem_of_cons in Hfree as [Hev Hfree].
    pose proof Htr as ((job & Hjob & Hagree) & Hgood & _).
    destruct (step_tracked env job_id ev st s) as (s' & Htr' & Hle & Hpassed);
      [congruence|done|].
    destruct (IH _ _ Hfree Htr')
      as (job' & h' & Hh & Hagree' & Hlen & Hprog & Hplen & Hmono & Hfull & Hpass).
    exists job, (job' :: h'). rewrite (history_cons _ _ _ _ _ _ Hjob), Hh.
    split; [done|]. split; [done|]. split; [cbn; by rewrite Hlen|].
    split. { unfold progresses. cbn [omap list_omap]. by rewrite (agrees_progress _ _ Hagree). }
    split. { rewrite Hprog. cbn. by rewrite Hplen. }
    split. { rewrite Hprog. cbn [nondecreasing]. split; [exact Hle|exact Hmono]. }
    split.
    + constructor; [|exact Hfull].
      exists (v_status s), (v_progress s).
      split; [by apply agrees_status|]. split; [by apply agrees_progress|].
      apply Hgood.
    + intros Hend.
      assert (Hend' : ends_completed (job' :: h')) by exact Hend.
      specialize (Hpass Hend').
      destruct (decide (v_passed s < 7)%nat) as [Hk|Hk];
        [|rewrite drop_stages_all by lia; apply passes_nil].
      rewrite (drop_stages _ Hk). cbn [passes].
      assert (Hshow : record_shows (next_row (v_passed s)) job'
                      = shows (next_row (v_passed s)) (v_stage s') (v_progress s')).
      { unfold record_shows.
        by rewrite (agrees_stage _ _ Hagree'), (agrees_progress _ _ Hagree'). }
      rewrite Hshow. destruct Hpassed as [Hsame|[Hnext Hhit]].
      * rewrite Hsame, (drop_stages _ Hk) in Hpass.
        destruct (shows _ _ _); [by apply passes_tail in Hpass|done].
      * rewrite Hhit. by rewrite Hnext in Hpass.
Qed.
End runs.

(** ** Progress over the life of a job *)

Section job_progress.
Import Job Engine Worker.
Open Scope Q_scope.

(** The job as [start_voice_cloning] leaves it is tracked from
    [initial_view]. *)
Lemma start_tracked env job_id audio_files voice_name quality language st :
  tracked job_id
    (snd (start_voice_cloning env job_id audio_files voice_name quality language st))
    initial_view.
Proof.
  unfold start_voice_cloning, tracked. cbn [snd].
  split; [|split].
  - eexists. split.
    + unfold job_object. cbn. rewrite lookup_insert_eq. reflexivity.
    + unfold agrees, initial_view. cbn. by simplify_map_eq.
  - split; cbn; [|done]. intros H. discriminate H.
  - cbn. rewrite lookup_insert_eq. apply wp_train_voice_model.
Qed.

(** The worker reaches progress 10; a cancellation request puts it back
    to 0. *)
Example progress_after_cancel :
  progresses (history studio "job" (replicate 4 (Work "job") ++ [Cancel "job"]) submitted)
  = [0; 0; 0; 0; 10; 0].
Proof. vm_compute. reflexivity. Qed.

(** After 34 steps of the worker alone the record is at progress 100 with
    status [training]: the model is not yet written. *)
Example full_progress_while_training :
  (fun job => (status_of job, progress_of job))
    <$> history studio "job" (replicate 34 (Work "job")) submitted !! 34%nat
  = Some (Some "training"%string, Some 100).
Proof. vm_compute. reflexivity. Qed.

(** C3, as stated, fails in both halves: [cancel_training] sets progress
    back to 0, and the worker sets progress to 100 when it enters the last
    stage, before it writes the model and sets the status to [completed]. *)
Lemma progress_reset_and_early_full :
  ~ progress_never_decreases /\ ~ full_only_when_completed.
Proof.
  split.
  - intros H.
    specialize (H studio "job"%string two_files "Alice"%string "draft"%string
                  "en-US"%string empty_engine
                  (replicate 4 (Work "job") ++ [Cancel "job"])).
    fold submitted in H. rewrite progress_after_cancel in H.
    destruct H as (_ & _ & _ & _ & H & _). cbn in H. unfold Qle in H. cbn in H. lia.
  - intros H.
    specialize (H studio "job"%string two_files "Alice"%string "draft"%string
                  "en-US"%string empty_engine (replicate 34 (Work "job"))).
    fold submitted in H.
    pose proof full_progress_while_training as Hat.
    destruct (history studio "job" (replicate 34 (Work "job")) submitted !! 34%nat)
      as [job|] eqn:Hjob; [|discriminate Hat].
    apply (Forall_lookup_1 _ _ _ _ H) in Hjob.
    destruct Hjob as (status & q & Hs & Hq & Himp).
    cbn in Hat. rewrite Hs, Hq in Hat. injection Hat as -> ->.
    specialize (Himp (Qeq_refl _)). discriminate Himp.
Qed.

(** C3, amended.  Over any schedule of worker steps and API calls that
    does not cancel the job, the record exists at every step with a numeric
    progress, the progress never decreases from creation on, and it equals
    100 only from the moment the worker enters the last stage: with status
    [training] until the model is written, then [completed], or [failed]
    when writing the model raises.  (A cancellation request sets progress
    back to 0.) *)
Theorem worker_progress_nondecreasing
    env job_id audio_files voice_name quality language st schedule :
  Cancel job_id ∉ schedule ->
  let h := history env job_id schedule
             (snd (start_voice_cloning env job_id audio_files voice_name quality language st)) in
  length h = S (length schedule)
  /\ length (progresses h) = length h
  /\ nondecreasing (progresses h)
  /\ Forall (full_only_when finalizing) h.
Proof.
  intros Hfree h.
  destruct (run_tracked env job_id schedule _ _ Hfree
              (start_tracked env job_id audio_files voice_name quality language st))
    as (job & h' & Hh & _ & Hlen & Hprog & Hplen & Hmono & Hfull & _).
  subst h. rewrite Hh, Hprog. cbn [length]. rewrite Hplen, Hlen. done.
Qed.

Lemma worker_progress_nondecreasing_witness :
  nondecreasing (progresses (history studio "job" (replicate 40 (Work "job")) submitted)).
Proof.
  apply (worker_progress_nondecreasing studio "job" two_files "Alice" "draft" "en-US"
           empty_engine (replicate 40 (Work "job"))).
  intros Hin. apply elem_of_replicate in Hin as [Hin _]. discriminate Hin.
Defined.
End job_progress.

(** ** The stage table *)

Section stage_table.
Import Job Engine Worker.
Open Scope Q_scope.

(** C6, as stated, fails: the second row of the source's table is
    [("Extracting voice characteristics", 20)], not 35. *)
Lemma stages_differ_from_listed : stages <> listed_stage_table.
Proof. intros H. discriminate H. Qed.

(** C6, amended.  The table has the seven labels with the values 10, 20,
    35, 70, 85, 95, 100: the progress the worker sets when the stage begins
    (for the training stage, at its first iteration).  In every run that is
    not cancelled and ends with status [completed], the record shows the
    seven rows one after the other: at some step the current stage is the
    row's label and the progress is the row's value. *)
Theorem completed_run_passes_stages
    env job_id audio_files voice_name quality language st schedule :
  Cancel job_id ∉ schedule ->
  let h := history env job_id schedule
             (snd (start_voice_cloning env job_id audio_files voice_name quality language st)) in
  ends_completed h ->
  passes stages h = true
  /\ stages = [ ("Analyzing audio quality"%string, 10);
               ("Extracting voice characteristics"%string, 20);
               ("Preprocessing audio data"%string, 35);
               ("Training neural network"%string, 70);
               ("Optimizing voice model"%string, 85);
               ("Validating output quality"%string, 95);
               ("Finalizing model"%string, 100) ].
Proof.
  intros Hfree h Hend. split; [|reflexivity].
  destruct (run_tracked env job_id schedule _ _ Hfree
              (start_tracked env job_id audio_files voice_name quality language st))
    as (job & h' & Hh & _ & _ & _ & _ & _ & _ & Hpass).
  subst h. rewrite Hh in Hend |- *. specialize (Hpass Hend).
  change (drop (v_passed initial_view) stages) with stages in Hpass.
  change stages with (next_row 0 :: drop 1 stages) in Hpass |- * at 1.
  cbn [passes]. destruct (record_shows (next_row 0) job); [|exact Hpass].
  by apply passes_tail in Hpass.
Qed.

Lemma completed_run_passes_stages_witness :
  passes stages (history studio "job" (replicate 40 (Work "job")) submitted) = true.
Proof.
  apply (completed_run_passes_stages studio "job" two_files "Alice" "draft" "en-US"
           empty_engine (replicate 40 (Work "job"))).
  - intros Hin. apply elem_of_replicate in Hin as [Hin _]. discriminate Hin.
  - vm_compute. reflexivity.
Defined.
End stage_table.

(** ** The combiner's errors, the shape of a profile, its score *)

Section combiner_shape.
Import F64 Combiner Scorer.

Lemma set_loop_length xs acc :
  (length acc
   <= length (fold_left (fun s x => if Py.contains s x then s else s ++ [x]) xs acc))%nat.
Proof.
  revert acc. induction xs as [|x xs IH]; intros acc; cbn [fold_left]; [done|].
  etrans; [|apply IH]. destruct (Py.contains acc x); [done|].
  rewrite length_app. lia.
Qed.

Lemma set_nonempty xs : xs <> [] -> Py.set xs <> [].
Proof.
  destruct xs as [|x xs]; [done|]. intros _ Hnil.
  pose proof (set_loop_length xs [x]) as Hlen.
  unfold Py.set in Hnil. cbn [fold_left Py.contains existsb app] in Hnil.
  rewrite Hnil in Hlen. cbn in Hlen. lia.
Qed.

Lemma combined_formants_length l :
  (1 <= length (combined_formants l) <= 4)%nat.
Proof.
  unfold combined_formants. destruct (all_formants l) as [|f fs] eqn:Hall.
  - cbn. lia.
  - rewrite length_take, (Permutation_length (sorted_Permutation _)).
    assert (Py.set (f :: fs) <> []) as Hne by by apply set_nonempty.
    destruct (Py.set (f :: fs)); [done|]. cbn [length]. lia.
Qed.

(** X1.  The combiner raises exactly when the list of samples is empty or
    the MFCC vectors, or the chroma vectors, of the samples do not all have
    one length (then [np.stack] refuses them).  Whatever it raises is a
    [ValueError]; on the empty list it is the one with the message of the
    source. *)
Theorem combine_voice_characteristics_raises (l : list VoiceCharacteristics) :
  _combine_voice_characteristics [] = Raise (ValueError "No voice characteristics to combine")
  /\ ((exists p, _combine_voice_characteristics l = Ok p)
      <-> l <> [] /\ same_shape (mfcc_features <$> l)
          /\ same_shape (chroma_features <$> l))
  /\ (forall e, _combine_voice_characteristics l = Raise e -> exists msg, e = ValueError msg).
Proof.
  split; [reflexivity|]. split; [split|].
  - intros [p Hp]. apply combine_ok_inv in Hp as (Hne & Hm & Hc).
    split; [done|]. split.
    + apply (np_stack_ok (mfcc_features <$> l)). eauto.
    + apply (np_stack_ok (chroma_features <$> l)). eauto.
  - intros (Hne & [n Hm] & [k Hc]).
    destruct (combine_ok l Hne) as (p & Hp & _); [| |by exists p].
    + apply (np_stack_uniform _ n); [|done]. by destruct l.
    + apply (np_stack_uniform _ k); [|done]. by destruct l.
  - intros e. unfold _combine_voice_characteristics.
    destruct l as [|c l]; [intros [= <-]; eauto|].
    unfold Py.np_stack. cbn [fmap list_fmap].
    repeat case_match; intros [= <-]; simplify_eq; eauto.
Qed.

(** X2.  A profile the combiner returns has exactly the ten keys of the
    source, and its [formants] entry holds at least one and at most four
    values, whatever floats the samples carry. *)
Theorem combine_voice_characteristics_shape (l : list VoiceCharacteristics)
    (p : gmap string PVal) :
  _combine_voice_characteristics l = Ok p ->
  dom p = profile_keys
  /\ exists fs, p !! "formants" = Some (PVec fs) /\ (1 <= length fs <= 4)%nat.
Proof.
  intros Hp. split.
  - revert Hp. unfold _combine_voice_characteristics.
    destruct l as [|c l]; [done|].
    destruct (Py.np_stack _) as [m|]; [|done].
    destruct (Py.np_stack _) as [ch|]; [|done].
    intros [= <-]. rewrite !dom_insert_L, dom_empty_L. unfold profile_keys.
    cbn [list_to_set]. set_solver.
  - destruct (combine_ok_inv l p Hp) as (Hne & Hm & Hc).
    destruct (combine_ok l Hne Hm Hc) as (p' & Hp' & H).
    rewrite Hp in Hp'. injection Hp' as <-.
    exists (combined_formants l). split; [apply H|]. apply combined_formants_length.
Qed.

Lemma combine_voice_characteristics_shape_witness :
  exists p, _combine_voice_characteristics three_samples = Ok p
            /\ dom p = profile_keys.
Proof.
  destruct (combine_ok three_samples) as (p & Hp & _); [done|reflexivity|reflexivity|].
  exists p. split; [exact Hp|].
  exact (proj1 (combine_voice_characteristics_shape three_samples p Hp)).
Defined.

Lemma perturbation_advances g : snd (perturbation g) = advance g.
Proof. reflexivity. Qed.

Lemma validate_model_quality_number profile quality g base :
  profile !! "voice_quality_score" = Some (PNum base) ->
  _validate_model_quality profile quality g
  = (Ok (Py.clamp zero one (add (mul base (multiplier_of quality)) (fst (perturbation g)))),
     advance g).
Proof.
  intros Hbase. unfold _validate_model_quality. rewrite Hbase. reflexivity.
Qed.

(** X3.  The scorer never raises on a profile the combiner returned: the
    score is the clamp of (mean quality of the samples) * multiplier +
    noise, the mean being the one [np.mean] takes of the samples' scores
    (numpy's pairwise sum, divided by their number); it lies in [0, 1],
    and the call takes exactly one variate from numpy's generator. *)
Theorem combined_profile_is_scored (l : list VoiceCharacteristics)
    (p : gmap string PVal) (quality : string) (g : Rng) :
  _combine_voice_characteristics l = Ok p ->
  exists s,
    _validate_model_quality p quality g = (Ok s, advance g)
    /\ s = Py.clamp zero one
             (add (mul (Py.np_mean (voice_quality_score <$> l)) (multiplier_of quality))
                  (fst (perturbation g)))
    /\ le zero s /\ le s one.
Proof.
  intros Hp. destruct (combine_ok_inv l p Hp) as (Hne & Hm & Hc).
  destruct (combine_ok l Hne Hm Hc) as (p' & Hp' & H).
  rewrite Hp in Hp'. injection Hp' as <-.
  destruct H as (_ & _ & _ & _ & _ & _ & Hq & _).
  eexists. split; [exact (validate_model_quality_number _ _ _ _ Hq)|].
  split; [reflexivity|]. exact (clamp_unit_interval _).
Qed.

Lemma combined_profile_is_scored_witness :
  exists p s,
    _combine_voice_characteristics three_samples = Ok p
    /\ _validate_model_quality p "high" sample_rng = (Ok s, advance sample_rng)
    /\ le zero s /\ le s one.
Proof.
  destruct (combine_ok three_samples) as (p & Hp & _); [done|reflexivity|reflexivity|].
  destruct (combined_profile_is_scored three_samples p "high" sample_rng Hp)
    as (s & Hs & _ & H0 & H1).
  exists p, s. auto.
Defined.

(** X4.  A profile without a [voice_quality_score] entry is scored as if
    the entry were 0.5, the default of [characteristics.get]: the call
    returns the same score and leaves the same generator as on the profile
    with 0.5 put in, a value in [0, 1], after one draw. *)
Theorem validate_model_quality_missing_score
    (profile : gmap string PVal) (quality : string) (g : Rng) :
  profile !! "voice_quality_score" = None ->
  _validate_model_quality profile quality g
  = _validate_model_quality (<["voice_quality_score" := PNum (lit 5 10)]> profile) quality g
  /\ exists s,
       _validate_model_quality profile quality g = (Ok s, advance g)
       /\ s = Py.clamp zero one
                (add (mul (lit 5 10) (multiplier_of quality)) (fst (perturbation g)))
       /\ le zero s /\ le s one.
Proof.
  intros Hnone.
  assert (_validate_model_quality profile quality g
          = (Ok (Py.clamp zero one
                   (add (mul (lit 5 10) (multiplier_of quality)) (fst (perturbation g)))),
             advance g)) as Hv.
  { unfold _validate_model_quality. rewrite Hnone. reflexivity. }
  split.
  - rewrite Hv. symmetry. apply validate_model_quality_number. by rewrite lookup_insert.
  - eexists. split; [exact Hv|]. split; [reflexivity|]. exact (clamp_unit_interval _).
Qed.

Lemma validate_model_quality_missing_score_witness :
  exists s, _validate_model_quality ∅ "draft" sample_rng = (Ok s, advance sample_rng)
            /\ le zero s /\ le s one.
Proof.
  destruct (validate_model_quality_missing_score ∅ "draft" sample_rng)
    as (_ & s & Hs & _ & H0 & H1); [reflexivity|].
  exists s. auto.
Defined.
End combiner_shape.

(** ** The formant estimator *)

Section audio.
Import F64 Combiner Audio.

Lemma positive_frequency x : finite x -> ltb (of_Z 0) x = true -> is_frequency x.
Proof. destruct x as [[]|[]| |[] m e]; cbn; try done. Qed.

(** X5.  [_estimate_formants] returns at most four values; each is one
    of the peak frequencies it was given and is greater than zero.  When
    the peak frequencies are finite, as those of [np.fft.fftfreq] are,
    every formant returned is a positive finite double: the samples the
    extractor builds meet [frequency_formants]. *)
Theorem estimate_formants_positive (peak_freqs : list float) :
  let fs := _estimate_formants peak_freqs in
  (length fs <= 4)%nat
  /\ (forall f, f ∈ fs -> f ∈ peak_freqs /\ lt (of_Z 0) f)
  /\ (Forall finite peak_freqs -> Forall is_frequency fs).
Proof.
  cbn zeta. unfold _estimate_formants.
  assert (forall f, f ∈ List.filter (fun f => ltb (of_Z 0) f) (take 4 (Py.sorted peak_freqs)) ->
                    f ∈ peak_freqs /\ lt (of_Z 0) f) as Hin.
  { intros f Hf. apply list_elem_of_In, filter_In in Hf as [Hf Hpos].
    split; [|done]. apply list_elem_of_In in Hf.
    apply elem_of_take in Hf as (i & Hf & _). apply list_elem_of_lookup_2 in Hf.
    by rewrite (sorted_Permutation peak_freqs) in Hf. }
  split; [|split].
  - etrans; [apply filter_length_le|]. rewrite length_take. lia.
  - exact Hin.
  - intros Hfin. apply Forall_forall. intros f Hf. apply Hin in Hf as [Hf Hpos].
    apply positive_frequency; [|done]. rewrite Forall_forall in Hfin. by apply Hfin.
Qed.
End audio.

(** ** The estimate of the training time *)

Section estimate.
Import Job Engine.
Open Scope Q_scope.

Lemma base_time_even quality :
  exists k : Z, default 120%Z (base_time !! quality) = (2 * k)%Z /\ (0 <= k)%Z.
Proof.
  unfold base_time.
  destruct (decide (quality = "premium"%string)) as [->|?]; [by exists 300%Z|].
  destruct (decide (quality = "high"%string)) as [->|?]; [by exists 150%Z|].
  destruct (decide (quality = "standard"%string)) as [->|?]; [by exists 60%Z|].
  destruct (decide (quality = "draft"%string)) as [->|?]; [by exists 15%Z|].
  rewrite !lookup_insert_ne, lookup_empty by done. by exists 60%Z.
Qed.

Lemma base_time_other quality :
  quality ∉ ["draft"; "standard"; "high"; "premium"]%string ->
  base_time !! quality = None.
Proof.
  intros Hq. unfold base_time.
  rewrite !lookup_insert_ne, lookup_empty; [done|..]; intros <-; apply Hq; set_solver.
Qed.

(** X6.  The estimate is half the base time of the tier for each file, up
    to six files: [base / 2 * min(num_files, 6)] seconds, so 0 for no file
    and three times the base from six files on.  The base is 30, 120, 300,
    600 seconds for draft, standard, high, premium, and 120 for any other
    tier.  (The products of the source, [num_files * 0.5] and
    [base * file_multiplier], are exact in binary64, so the rationals of the
    model are the floats of the source.) *)
Theorem estimate_training_time_closed_form (num_files : nat) (quality : string) :
  _estimate_training_time num_files quality
  = (default 120 (base_time !! quality) / 2 * Z.min (Z.of_nat num_files) 6)%Z
  /\ (base_time !! "draft" = Some 30%Z /\ base_time !! "standard" = Some 120%Z
      /\ base_time !! "high" = Some 300%Z /\ base_time !! "premium" = Some 600%Z)
  /\ (quality ∉ ["draft"; "standard"; "high"; "premium"]%string ->
      base_time !! quality = None).
Proof.
  split; [|split; [by vm_compute|apply base_time_other]].
  unfold _estimate_training_time.
  destruct (base_time_even quality) as (k & -> & Hk).
  replace (2 * k / 2)%Z with k by (rewrite Z.mul_comm, Z.div_mul; lia).
  set (n := Z.of_nat num_files).
  assert (py_min (inject_Z n * (1 # 2)) 3 == inject_Z (Z.min n 6) * (1 # 2)) as Hmin.
  { unfold py_min, Qltb. destruct (Qle_bool _ _) eqn:Hle; cbn [negb].
    - apply Qle_bool_iff in Hle.
      assert (n <= 6)%Z as Hn.
      { unfold Qle in Hle. cbn in Hle. lia. }
      by rewrite Z.min_l.
    - assert (~ inject_Z n * (1 # 2) <= 3) as Hnle.
      { intros H. apply Qle_bool_iff in H. congruence. }
      assert (6 < n)%Z as Hn.
      { unfold Qle in Hnle. cbn in Hnle. lia. }
      rewrite Z.min_r by lia. reflexivity. }
  assert (inject_Z (2 * k) * py_min (inject_Z n * (1 # 2)) 3 == inject_Z (k * Z.min n 6)) as ->.
  { rewrite Hmin. unfold Qeq. cbn. lia. }
  apply Qfloor_Z.
Qed.
End estimate.

(** ** Reading the status of a job *)

Section status.
Import Job Engine Worker.
Open Scope Q_scope.

Lemma get_training_status_other st st' other :
  training_jobs st' !! other = training_jobs st !! other ->
  get_training_status other st' = get_training_status other st.
Proof. unfold get_training_status. by intros ->. Qed.

(** X7.  [get_training_status] raises [ValueError] for an id that is not
    in the registry.  For a registered job whose [created_at] is a
    [datetime] it returns a dict without the [future] key, with
    [created_at] as ISO text, and with every other key as in the record;
    for a record without [created_at] it returns the record without its
    [future]. *)
Theorem get_training_status_result (job_id : string) (st : state) :
  (training_jobs st !! job_id = None ->
     get_training_status job_id st
     = Raise (ValueError ("Job " +:+ job_id +:+ " not found")))
  /\ (forall job iso,
        training_jobs st !! job_id = Some job ->
        job !! "created_at" = Some (JTime iso) ->
        exists r,
          get_training_status job_id st = Ok r
          /\ r !! "future" = None
          /\ r !! "created_at" = Some (JStr iso)
          /\ forall key, key <> "future"%string -> key <> "created_at"%string ->
               r !! key = job !! key)
  /\ (forall job,
        training_jobs st !! job_id = Some job -> job !! "created_at" = None ->
        get_training_status job_id st = Ok (delete "future" job)).
Proof.
  unfold get_training_status. split; [by intros ->|]. split.
  - intros job iso -> Hat.
    rewrite lookup_delete_ne, Hat by done.
    eexists. split; [done|]. split; [by simplify_map_eq|].
    split; [by simplify_map_eq|].
    intros key Hf Hc. by rewrite lookup_insert_ne, lookup_delete_ne.
  - intros job -> Hat. by rewrite lookup_delete_ne, Hat.
Qed.

(** X9.  After [cancel_training] on a registered job, its status reads
    [cancelled] with progress 0; [created_at] is the ISO text of the
    record's date, there is no [future], and every other key reads as in
    the record before the call.  The status of every other job reads as
    before. *)
Theorem status_after_cancel (job_id : string) (st : state)
    (job : gmap string JVal) (iso : string) :
  training_jobs st !! job_id = Some job ->
  job !! "created_at" = Some (JTime iso) ->
  let st' := snd (cancel_training job_id st) in
  (exists r,
     get_training_status job_id st' = Ok r
     /\ r !! "status" = Some (JStr "cancelled")
     /\ r !! "progress" = Some (JNum 0)
     /\ r !! "created_at" = Some (JStr iso)
     /\ r !! "future" = None
     /\ forall key,
          key ∉ ["status"; "progress"; "created_at"; "future"]%string ->
          r !! key = job !! key)
  /\ (forall other, other <> job_id ->
        get_training_status other st' = get_training_status other st).
Proof.
  intros Hjob Hat. cbn zeta.
  destruct (cancel_training_known job_id st job Hjob) as (_ & Hrec & Hother & _).
  split.
  - unfold get_training_status. rewrite Hrec. unfold cancelled_record.
    rewrite lookup_delete_ne, !lookup_insert_ne, Hat by done.
    eexists. split; [done|].
    split; [by simplify_map_eq|]. split; [by simplify_map_eq|].
    split; [by simplify_map_eq|]. split; [by simplify_map_eq|].
    intros key Hkey.
    rewrite lookup_insert_ne, lookup_delete_ne, !lookup_insert_ne; [done|..];
      intros <-; apply Hkey; set_solver.
  - intros other Hne. apply get_training_status_other. by apply Hother.
Qed.

Lemma status_after_cancel_witness :
  exists r,
    get_training_status "j" (snd (cancel_training "j"
       (registry_with "j" (<["created_at" := JTime "2024-01-01T00:00:00"]> analyzing_job)))) = Ok r
    /\ r !! "status" = Some (JStr "cancelled")
    /\ r !! "progress" = Some (JNum 0).
Proof.
  destruct (status_after_cancel "j"
              (registry_with "j" (<["created_at" := JTime "2024-01-01T00:00:00"]> analyzing_job))
              (<["created_at" := JTime "2024-01-01T00:00:00"]> analyzing_job)
              "2024-01-01T00:00:00")
    as [(r & Hr & Hs & Hp & _) _]; [reflexivity|reflexivity|].
  exists r. auto.
Defined.

Lemma forget_job_other job_id st other :
  other <> job_id ->
  training_jobs (forget_job job_id st) !! other = training_jobs st !! other.
Proof.
  intros Hne. unfold forget_job. destruct (training_jobs st !! job_id); [|done].
  cbn. by rewrite lookup_delete_ne.
Qed.

Lemma delete_voice_model_jobs job_id st :
  training_jobs (snd (delete_voice_model job_id st))
  = if fst (delete_voice_model job_id st) then delete job_id (training_jobs st)
    else training_jobs st.
Proof.
  assert (forall s, training_jobs (forget_job job_id s) = delete job_id (training_jobs s)) as Hf.
  { intros s. unfold forget_job. destruct (training_jobs s !! job_id) eqn:E; [done|].
    by rewrite delete_id. }
  unfold delete_voice_model. destruct (model_dir st !! job_id) as [f|].
  - destruct (locked f); [done|]. cbn [fst snd]. by rewrite Hf.
  - cbn [fst snd]. by rewrite Hf.
Qed.

(** X10.  After a [delete_voice_model] that returned [True] the status of
    the job can no longer be read: [get_training_status] raises
    [ValueError].  After one that returned [False] (the file could not be
    removed) it reads as before.  The status of every other job reads as
    before in both cases. *)
Theorem status_after_delete (job_id : string) (st : state) :
  let st' := snd (delete_voice_model job_id st) in
  (fst (delete_voice_model job_id st) = true ->
     get_training_status job_id st'
     = Raise (ValueError ("Job " +:+ job_id +:+ " not found")))
  /\ (fst (delete_voice_model job_id st) = false ->
        get_training_status job_id st' = get_training_status job_id st)
  /\ (forall other, other <> job_id ->
        get_training_status other st' = get_training_status other st).
Proof.
  cbn zeta. pose proof (delete_voice_model_jobs job_id st) as Hjobs.
  split; [|split].
  - intros Ht. rewrite Ht in Hjobs. unfold get_training_status.
    by rewrite Hjobs, lookup_delete_eq.
  - intros Hf. rewrite Hf in Hjobs. apply get_training_status_other. by rewrite Hjobs.
  - intros other Hne. apply get_training_status_other. rewrite Hjobs.
    destruct (fst _); [|done]. by rewrite lookup_delete_ne.
Qed.

(** X11.  [delete_voice_model] touches nothing but the model file and the
    registry entry of its job: the futures are as before (a worker that is
    running is not stopped), the dict object of every job, the deleted one
    included, is as before (the worker of a deleted job goes on writing to
    it), numpy's generator and the clock are as before, and so are the
    registry entry and the model file of every other job. *)
Theorem delete_voice_model_frame (job_id : string) (st : state) :
  let st' := snd (delete_voice_model job_id st) in
  futures st' = futures st
  /\ rng st' = rng st /\ ticks st' = ticks st
  /\ (forall any, job_object st' any = job_object st any)
  /\ (forall other, other <> job_id ->
        training_jobs st' !! other = training_jobs st !! other
        /\ model_dir st' !! other = model_dir st !! other).
Proof.
  cbn zeta. split; [apply futures_delete|].
  assert (forall s, rng (forget_job job_id s) = rng s
                    /\ ticks (forget_job job_id s) = ticks s) as Hf.
  { intros s. unfold forget_job. by destruct (training_jobs s !! job_id). }
  split; [|split; [|split]].
  - unfold delete_voice_model. destruct (model_dir st !! job_id) as [f|].
    + destruct (locked f); [done|]. cbn [snd]. by rewrite (proj1 (Hf _)).
    + cbn [snd]. apply Hf.
  - unfold delete_voice_model. destruct (model_dir st !! job_id) as [f|].
    + destruct (locked f); [done|]. cbn [snd]. by rewrite (proj2 (Hf _)).
    + cbn [snd]. apply Hf.
  - intros any. apply job_object_delete.
  - intros other Hne. split.
    + rewrite delete_voice_model_jobs. destruct (fst _); [|done]. by rewrite lookup_delete_ne.
    + unfold delete_voice_model. destruct (model_dir st !! job_id) as [f|].
      * destruct (locked f); [done|]. cbn [snd]. rewrite forget_job_model_dir. cbn.
        by rewrite lookup_delete_ne.
      * cbn [snd]. by rewrite forget_job_model_dir.
Qed.
End status.

(** ** What the listing holds *)

Section listing_more.
Import Job Engine.

Lemma read_model_id stem f mi : read_model stem f = Ok mi -> mi_id mi = stem.
Proof.
  unfold read_model, load_voice_model.
  destruct (content f); try done. by intros [= <-].
Qed.

Lemma read_model_dated stem f mi :
  read_model stem f = Ok mi ->
  exists d, content f = ModelDict d /\ mi_created_at mi = md_created_at d.
Proof.
  unfold read_model, load_voice_model.
  destruct (content f) as [| |d]; try done. intros [= <-]. by exists d.
Qed.

Lemma elem_of_collect_models files mi :
  mi ∈ collect_models files
  <-> exists f, (mi_id mi, f) ∈ files /\ read_model (mi_id mi) f = Ok mi.
Proof.
  unfold collect_models. rewrite list_elem_of_omap. split.
  - intros [[stem f] [Hin Hr]].
    destruct (read_model stem f) as [mi'|] eqn:E; [|done]. injection Hr as ->.
    rewrite (read_model_id _ _ _ E). eauto.
  - intros [f [Hin Hr]]. exists (mi_id mi, f). by rewrite Hr.
Qed.




(** X12.  When every model file that unpickles to a dict carries its
    [created_at], [list_voice_models] returns a list: it is sorted newest
    first, and it holds exactly the summaries of the files of the directory
    that load; a file that does not unpickle, or does not hold a dict, is
    left out and does not fail the call. *)
Theorem list_voice_models_newest_first (st : state) :
  (forall stem f d,
     model_dir st !! stem = Some f -> content f = ModelDict d ->
     is_Some (md_created_at d)) ->
  exists l,
    list_voice_models st = Ok l
    /\ StronglySorted not_older l
    /\ forall mi,
         mi ∈ l <-> exists f, model_dir st !! mi_id mi = Some f
                              /\ read_model (mi_id mi) f = Ok mi.
Proof.
  intros Hdated. unfold list_voice_models.
  destruct (list_models_of_dated (map_to_list (model_dir st))) as (l & Hl & Hp & Hs).
  { apply Forall_forall. intros mi Hmi.
    apply elem_of_collect_models in Hmi as (f & Hin & Hr).
    apply elem_of_map_to_list in Hin.
    destruct (read_model_dated _ _ _ Hr) as (d & Hd & Hat).
    unfold dated. rewrite Hat. by eapply Hdated. }
  exists l. split; [done|]. split; [done|].
  intros mi. rewrite Hp, elem_of_collect_models.
  by setoid_rewrite elem_of_map_to_list.
Qed.

Lemma list_voice_models_newest_first_witness :
  exists l, list_voice_models one_model_engine = Ok l /\ StronglySorted not_older l.
Proof.
  destruct (list_voice_models_newest_first one_model_engine) as (l & Hl & Hs & _).
  - intros stem f d Hf Hd. cbn [model_dir one_model_engine] in Hf.
    apply lookup_singleton_Some in Hf as [_ <-].
    injection Hd as <-. by eexists.
  - exists l. auto.
Defined.

(** X13.  On an empty directory [list_voice_models] returns the empty
    list.  On a directory with one file it returns without comparing
    anything: the list is empty if the file does not load as a dict, and
    otherwise holds its one summary, with [Unknown], [en-US], [standard]
    and 0.0 for the entries the dict lacks and [None] for a missing
    [created_at]. *)
Theorem list_voice_models_at_most_one (st : state) :
  (model_dir st = ∅ -> list_voice_models st = Ok [])
  /\ (forall stem f,
        model_dir st = {[ stem := f ]} ->
        list_voice_models st
        = Ok match content f with
             | ModelDict d =>
                 [ {| mi_id := stem;
                      mi_name := default "Unknown"%string (md_voice_name d);
                      mi_language := default "en-US"%string (md_language d);
                      mi_quality := default "standard"%string (md_quality d);
                      mi_quality_score := default F64.zero (md_quality_score d);
                      mi_created_at := md_created_at d;
                      mi_file_size := st_size f |} ]
             | _ => []
             end).
Proof.
  unfold list_voice_models. split.
  - intros ->. by rewrite map_to_list_empty.
  - intros stem f ->. rewrite map_to_list_singleton.
    unfold list_models_of. rewrite collect_models_cons.
    unfold read_model, load_voice_model. by destruct (content f).
Qed.


End listing_more.

(** ** The state a schedule leads to *)

Section final_states.
Import Job Engine Worker.

Lemma final_in_run env schedule : forall st, final env schedule st ∈ run env schedule st.
Proof.
  induction schedule as [|ev rest IH]; intros st; cbn [run final fold_left].
  - by left.
  - right. apply IH.
Qed.

Lemma Forall_final {P : state -> Prop} env schedule st :
  Forall P (run env schedule st) -> P (final env schedule st).
Proof. intros H. rewrite Forall_forall in H. apply H, final_in_run. Qed.

Lemma long_run_undisturbed : undisturbed "job" long_run.
Proof. split; by intros [? _]%elem_of_replicate. Qed.
End final_states.

(** ** Jobs do not touch each other *)

Section isolation.
Import F64 Combiner Job Engine Worker.
Open Scope Q_scope.

Lemma work_other_frame env st job_id other :
  other <> job_id ->
  training_jobs (work env job_id st) !! other = training_jobs st !! other
  /\ model_dir (work env job_id st) !! other = model_dir st !! other.
Proof.
  intros Hne. unfold work.
  destruct (futures st !! job_id) as [[call|p| |]|]; try done.
  - by destruct (training_jobs st !! job_id).
  - destruct p as [a|e|key v k|key k|k|d k|f k]; try done.
    + cbn. split; [by apply write_job_other|].
      unfold write_job. by destruct (training_jobs st !! job_id).
    + unfold write_model. destruct (disk st); [|done|]; cbn; by rewrite lookup_insert_ne.
    + by destruct (f (rng st)).
Qed.

Lemma cancel_other_frame st job_id other :
  other <> job_id ->
  training_jobs (snd (cancel_training job_id st)) !! other = training_jobs st !! other
  /\ model_dir (snd (cancel_training job_id st)) !! other = model_dir st !! other.
Proof.
  intros Hne. destruct (training_jobs st !! job_id) as [job|] eqn:Hjob.
  - destruct (cancel_training_known job_id st job Hjob) as (_ & _ & Ho & _ & Hm & _).
    split; [by apply Ho|by rewrite Hm].
  - by rewrite cancel_training_unknown.
Qed.

Lemma delete_other_frame st job_id other :
  other <> job_id ->
  training_jobs (snd (delete_voice_model job_id st)) !! other = training_jobs st !! other
  /\ model_dir (snd (delete_voice_model job_id st)) !! other = model_dir st !! other.
Proof.
  intros Hne. split.
  - rewrite delete_voice_model_jobs. destruct (fst _); [|done]. by rewrite lookup_delete_ne.
  - unfold delete_voice_model. destruct (model_dir st !! job_id) as [f|].
    + destruct (locked f); [done|]. cbn [snd]. rewrite forget_job_model_dir. cbn.
      by rewrite lookup_delete_ne.
    + cbn [snd]. by rewrite forget_job_model_dir.
Qed.

Lemma step_other_frame env ev st other :
  event_job ev <> other ->
  training_jobs (step env ev st) !! other = training_jobs st !! other
  /\ model_dir (step env ev st) !! other = model_dir st !! other
  /\ futures (step env ev st) !! other = futures st !! other
  /\ job_object (step env ev st) other = job_object st other.
Proof.
  intros Hne. destruct ev as [j|j|j]; cbn [event_job step] in *.
  - destruct (work_other_frame env st j other) as [H1 H2]; [done|].
    split; [done|]. split; [done|].
    split; [by apply futures_work_other|by apply job_object_work_other].
  - destruct (cancel_other_frame st j other) as [H1 H2]; [done|].
    split; [done|]. split; [done|].
    split; [by apply futures_cancel_other|by apply job_object_cancel_other].
  - destruct (delete_other_frame st j other) as [H1 H2]; [done|].
    split; [done|]. split; [done|].
    split; [by rewrite futures_delete|by apply job_object_delete].
Qed.

Lemma write_job_disk st job_id key v : disk (write_job st job_id key v) = disk st.
Proof. unfold write_job. by destruct (training_jobs st !! job_id). Qed.

Lemma forget_job_disk st job_id : disk (forget_job job_id st) = disk st.
Proof. unfold forget_job. by destruct (training_jobs st !! job_id). Qed.

Lemma step_disk env ev st : disk (step env ev st) = disk st.
Proof.
  destruct ev as [j|j|j]; cbn [step].
  - unfold work. destruct (futures st !! j) as [[call|p| |]|]; try done.
    + by destruct (training_jobs st !! j).
    + destruct p as [a|e|key v k|key k|k|d k|f k]; try done.
      * cbn. apply write_job_disk.
      * unfold write_model. destruct (disk st) eqn:E; cbn; by rewrite ?E.
      * by destruct (f (rng st)).
  - unfold cancel_training. destruct (training_jobs st !! j) as [job|]; [|done].
    cbn [snd]. rewrite !write_job_disk. by destruct (job !! "future").
  - unfold delete_voice_model. destruct (model_dir st !! j) as [f|].
    + destruct (locked f); [done|]. cbn [snd]. by rewrite forget_job_disk.
    + cbn [snd]. by rewrite forget_job_disk.
Qed.

Lemma run_other_frame env other schedule st :
  Forall (fun ev => event_job ev <> other) schedule ->
  Forall (fun st' => training_jobs st' !! other = training_jobs st !! other)
         (run env schedule st).
Proof.
  revert st. induction schedule as [|ev rest IH]; intros st Hs; cbn [run].
  { repeat constructor. }
  apply Forall_cons in Hs as [Hev Hrest]. constructor; [done|].
  destruct (step_other_frame env ev st other Hev) as (H1 & _).
  eapply Forall_impl; [exact (IH _ Hrest)|]. intros st' E. by rewrite E, H1.
Qed.

(** X15.  Steps of workers, cancellations and deletions that are all
    about other jobs leave a job alone: in every state of the run its
    registry entry, its model file, its future and the status read for it
    are those of the initial state. *)
Theorem jobs_are_isolated (env : Env) (other : string) (schedule : list event) (st : state) :
  Forall (fun ev => event_job ev <> other) schedule ->
  Forall (fun st' =>
            training_jobs st' !! other = training_jobs st !! other
            /\ model_dir st' !! other = model_dir st !! other
            /\ futures st' !! other = futures st !! other
            /\ get_training_status other st' = get_training_status other st)
         (run env schedule st).
Proof.
  revert st. induction schedule as [|ev rest IH]; intros st Hs; cbn [run].
  { repeat constructor. }
  apply Forall_cons in Hs as [Hev Hrest].
  constructor; [done|].
  destruct (step_other_frame env ev st other Hev) as (H1 & H2 & H3 & _).
  eapply Forall_impl; [exact (IH _ Hrest)|]. intros st' (E1 & E2 & E3 & E4).
  rewrite E1, E2, E3, E4, H1, H2, H3. repeat split. by apply get_training_status_other.
Qed.

Lemma jobs_are_isolated_witness :
  get_training_status "other" (final studio long_run submitted)
  = get_training_status "other" submitted.
Proof.
  assert (Forall (fun ev => event_job ev <> "other"%string) long_run) as H.
  { apply Forall_forall. by intros ev [-> _]%elem_of_replicate. }
  exact (proj2 (proj2 (proj2 (Forall_final _ _ _
           (jobs_are_isolated studio "other" long_run submitted H))))).
Defined.
End isolation.

(** ** The status of a new job *)

Section new_job.
Import F64 Combiner Job Engine Worker.
Open Scope Q_scope.

(** X8.  [start_voice_cloning] returns the id it was given by [uuid4] and
    leaves the worker of the job pending.  As long as that worker has not
    taken a step and nobody cancels or deletes the job, whatever happens
    to other jobs, the status read for it shows the job as submitted:
    status [initializing], progress 0, stage
    [Preparing for training...], the name, tier, language and files of the
    call, the time of the call as ISO text, the estimate of
    [_estimate_training_time], and no [future].  (The executor may start
    the worker at once: a status read after its first steps is another.)
    The status of every other job reads after the call as before. *)
Theorem status_after_start (env : Env) (job_id : string) (audio_files : list string)
    (voice_name quality language : string) (st : state) (schedule : list event) :
  let started := start_voice_cloning env job_id audio_files voice_name quality language st in
  Forall (fun ev => event_job ev <> job_id) schedule ->
  fst started = job_id
  /\ futures (snd started) !! job_id
     = Some (Pending (_train_voice_model env job_id audio_files voice_name quality language))
  /\ Forall (fun st' =>
              exists r,
                get_training_status job_id st' = Ok r
                /\ r !! "id" = Some (JStr job_id)
                /\ r !! "voice_name" = Some (JStr voice_name)
                /\ r !! "quality" = Some (JStr quality)
                /\ r !! "language" = Some (JStr language)
                /\ r !! "status" = Some (JStr "initializing")
                /\ r !! "progress" = Some (JNum 0)
                /\ r !! "current_stage" = Some (JStr "Preparing for training...")
                /\ r !! "created_at" = Some (JStr (clock st (ticks st)))
                /\ r !! "audio_files" = Some (JList audio_files)
                /\ r !! "estimated_duration"
                   = Some (JNum (inject_Z
                                   (_estimate_training_time (length audio_files) quality)))
                /\ r !! "future" = None)
            (run env schedule (snd started))
  /\ (forall other, other <> job_id ->
        get_training_status other (snd started) = get_training_status other st).
Proof.
  cbn zeta. intros Hs. split; [done|]. split.
  { unfold start_voice_cloning. cbn. by rewrite lookup_insert_eq. }
  split.
  - eapply Forall_impl; [exact (run_other_frame env job_id schedule _ Hs)|].
    intros st' Hjobs. unfold get_training_status. rewrite Hjobs.
    unfold start_voice_cloning.
    cbn [snd training_jobs with_futures with_jobs tick].
    rewrite lookup_insert.
    generalize (JNum (inject_Z (_estimate_training_time (length audio_files) quality))).
    intros est. simplify_map_eq. eexists. split; [done|].
    repeat split; by simplify_map_eq.
  - intros other Hne. apply get_training_status_other.
    unfold start_voice_cloning. cbn. by rewrite lookup_insert_ne.
Qed.

Lemma status_after_start_witness :
  exists r,
    get_training_status "job" (final studio [Work "other"; Cancel "other"] submitted) = Ok r
    /\ r !! "status" = Some (JStr "initializing")
    /\ r !! "progress" = Some (JNum 0).
Proof.
  assert (Forall (fun ev => event_job ev <> "job"%string) [Work "other"; Cancel "other"])
    as Hs by (by repeat constructor).
  destruct (status_after_start studio "job" two_files "Alice" "draft" "en-US" empty_engine
              [Work "other"; Cancel "other"] Hs) as (_ & _ & Hrun & _).
  destruct (Forall_final _ _ _ Hrun) as (r & Hr & _ & _ & _ & _ & H1 & H2 & _).
  exists r. auto.
Defined.
End new_job.

(** ** A program logic for whole runs *)

Section ledger_logic.
Import F64 Combiner Job Engine Worker.
Open Scope Q_scope.

Lemma wpl_mono {A} dk Inv (w : W A) (Φ Φ' : A -> ledger -> Prop)
    (Ψ Ψ' : exn -> ledger -> Prop) s :
  (forall a s', Φ a s' -> Φ' a s') -> (forall e s', Ψ e s' -> Ψ' e s') ->
  wpl dk Inv w Φ Ψ s -> wpl dk Inv w Φ' Ψ' s.
Proof.
  intros HΦ HΨ. revert s.
  induction w as [a|e|key v k IH|key k IH|k IH|d k IH|g k IH]; intros s; cbn; auto.
  - intros (s' & Hn & Hi & Hk). exists s'. auto.
  - destruct dk; [intros [Hi Hk]; split; auto|auto|intros [Hi Hk]; split; auto].
Qed.

Lemma wpl_bind {A B} dk Inv (m : W A) (f : A -> W B) Φ Ψ s :
  wpl dk Inv m (fun a s' => wpl dk Inv (f a) Φ Ψ s') Ψ s ->
  wpl dk Inv (m ≫= f) Φ Ψ s.
Proof.
  unfold mbind, W_bind. revert s.
  induction m as [a|e|key v k IH|key k IH|k IH|d k IH|g k IH]; intros s; cbn; auto.
  - intros (s' & Hn & Hi & Hk). exists s'. auto.
  - destruct dk; [intros [Hi Hk]; split; auto|auto|intros [Hi Hk]; split; auto].
Qed.

Lemma wpl_try_except {A} dk Inv (m : W A) (h : exn -> W A) Φ Ψ s :
  wpl dk Inv m Φ (fun e s' => wpl dk Inv (h e) Φ Ψ s') s ->
  wpl dk Inv (try_except m h) Φ Ψ s.
Proof.
  revert s.
  induction m as [a|e|key v k IH|key k IH|k IH|d k IH|g k IH]; intros s; cbn; auto.
  - intros (s' & Hn & Hi & Hk). exists s'. auto.
  - destruct dk; [intros [Hi Hk]; split; auto|auto|intros [Hi Hk]; split; auto].
Qed.

Lemma wpl_set_item {B} dk (Inv : ledger -> Prop) key v (f : unit -> W B) Φ Ψ s s' :
  note key v s = Some s' -> Inv s' -> wpl dk Inv (f tt) Φ Ψ s' ->
  wpl dk Inv (set_item key v ≫= f) Φ Ψ s.
Proof. intros Hn Hi Hk. apply wpl_bind. cbn. exists s'. auto. Qed.

Lemma wpl_lift {A B} dk Inv (r : result A) (f : A -> W B) Φ Ψ s :
  match r with Ok a => wpl dk Inv (f a) Φ Ψ s | Raise e => Ψ e s end ->
  wpl dk Inv (lift r ≫= f) Φ Ψ s.
Proof. intros H. apply wpl_bind. by destruct r. Qed.

Lemma wpl_now {B} dk Inv (f : string -> W B) Φ Ψ s :
  (forall t, wpl dk Inv (f t) Φ Ψ s) -> wpl dk Inv (now ≫= f) Φ Ψ s.
Proof. intros H. apply wpl_bind. cbn. done. Qed.

Lemma keeps_note job s key v s' :
  keeps job s -> note key v s = Some s' -> keeps (<[key := v]> job) s'.
Proof.
  intros (H1 & H2 & H3 & H4 & H5 & H6). unfold note.
  destruct (String.eqb_spec key "status") as [->|N1].
  { destruct v; intros [= <-]. repeat split; by simplify_map_eq. }
  destruct (String.eqb_spec key "progress") as [->|N2].
  { destruct v; intros [= <-]. repeat split; by simplify_map_eq. }
  destruct (String.eqb_spec key "error") as [->|N3].
  { destruct v; intros [= <-]. repeat split; by simplify_map_eq. }
  destruct (String.eqb_spec key "model_path") as [->|N4].
  { destruct v; intros [= <-]. repeat split; by simplify_map_eq. }
  destruct (String.eqb_spec key "quality_score") as [->|N5].
  { destruct v; intros [= <-]. repeat split; by simplify_map_eq. }
  destruct (String.eqb_spec key "total_duration") as [->|N6].
  { destruct v; intros [= <-]. repeat split; by simplify_map_eq. }
  intros [= <-]. repeat split; by rewrite lookup_insert_ne.
Qed.

Lemma note_stored key v s s' : note key v s = Some s' -> l_stored s' = l_stored s.
Proof.
  unfold note. repeat case_match; intros [= <-]; done.
Qed.

Lemma note_torn key v s s' : note key v s = Some s' -> l_torn s' = l_torn s.
Proof.
  unfold note. repeat case_match; intros [= <-]; done.
Qed.

Lemma note_left_on_disk env before key v s s' :
  note key v s = Some s' -> left_on_disk env before s' = left_on_disk env before s.
Proof.
  intros H. unfold left_on_disk. by rewrite (note_stored _ _ _ _ H), (note_torn _ _ _ _ H).
Qed.
End ledger_logic.

Section ledger_runs.
Import F64 Combiner Job Engine Worker.
Open Scope Q_scope.
Context (env : Env) (Inv : ledger -> Prop) (Φ : outcome -> ledger -> Prop)
        (before : option file) (job_id : string).

Lemma followed_frame st st' s :
  training_jobs st' !! job_id = training_jobs st !! job_id ->
  model_dir st' !! job_id = model_dir st !! job_id ->
  futures st' !! job_id = futures st !! job_id ->
  disk st' = disk st ->
  followed env Inv Φ before job_id st s -> followed env Inv Φ before job_id st' s.
Proof. intros Hj Hm Hf Hd. unfold followed. by rewrite Hj, Hm, Hf, Hd. Qed.

Lemma work_followed st s :
  followed env Inv Φ before job_id st s ->
  exists s', followed env Inv Φ before job_id (work env job_id st) s'.
Proof.
  intros ((job & Hjob & Hkeeps) & Hinv & Hdir & Hfut). unfold work.
  destruct (futures st !! job_id) as [[call|p| |]|] eqn:Hf; [| | |done|done].
  - exists s. rewrite Hjob. unfold followed, set_future. cbn.
    rewrite lookup_insert_eq. eauto 10.
  - destruct p as [a|e|key v k|key k|k|d k|f k]; cbn [wpl] in Hfut.
    + exists s. unfold followed, set_future. cbn. rewrite lookup_insert_eq.
      eauto 10.
    + done.
    + destruct Hfut as (s' & Hnote & Hinv' & Hk). exists s'.
      destruct (write_job_registered_frame st job_id key v job Hjob) as (_ & _ & Hm & _).
      unfold followed, set_future. cbn.
      rewrite lookup_insert_eq, (note_left_on_disk _ _ _ _ _ _ Hnote), write_job_disk.
      rewrite (write_job_registered _ _ _ _ _ Hjob).
      cbn zeta in Hm. rewrite Hm.
      split; [eexists; split; [done|by eapply keeps_note]|]. auto.
    + exists s. unfold followed, set_future. cbn. rewrite lookup_insert_eq.
      split; [eauto|]. split; [done|]. split; [done|].
      apply Hfut. intros ->. unfold job_object. rewrite Hjob. cbn. apply Hkeeps.
    + exists s. unfold followed, set_future. cbn. rewrite lookup_insert_eq. eauto 10.
    + unfold write_model. destruct (disk st) as [| |written] eqn:Hdisk.
      * destruct Hfut as [Hinv' Hk]. exists (store d s).
        unfold followed, set_future. cbn. rewrite !lookup_insert_eq, Hdisk.
        split; [by exists job|]. auto.
      * exists s. unfold followed, set_future. cbn. rewrite lookup_insert_eq, Hdisk.
        eauto 10.
      * destruct Hfut as [Hinv' Hk]. exists (tear written s).
        unfold followed, set_future. cbn. rewrite !lookup_insert_eq, Hdisk.
        split; [by exists job|]. auto.
    + specialize (Hfut (rng st)). destruct (f (rng st)) as [r g]. exists s.
      unfold followed, set_future. cbn. rewrite lookup_insert_eq. eauto 10.
  - exists s. unfold followed. rewrite Hf. eauto 10.
Qed.

Lemma step_followed ev st s :
  ev <> Cancel job_id -> ev <> Delete job_id ->
  followed env Inv Φ before job_id st s ->
  exists s', followed env Inv Φ before job_id (step env ev st) s'.
Proof.
  intros Hc Hd Hfol.
  destruct (decide (event_job ev = job_id)) as [Heq|Hne].
  - destruct ev as [j|j|j]; cbn in Heq; subst j; [|done|done].
    by apply (work_followed st s).
  - exists s. destruct (step_other_frame env ev st job_id Hne) as (H1 & H2 & H3 & _).
    eapply followed_frame; [exact H1|exact H2|exact H3|apply step_disk|done].
Qed.

Lemma run_followed schedule : forall st s,
  undisturbed job_id schedule ->
  followed env Inv Φ before job_id st s ->
  Forall (fun st' => exists s', followed env Inv Φ before job_id st' s')
         (run env schedule st).
Proof.
  induction schedule as [|ev rest IH]; intros st s [Hc Hd] Hfol; cbn [run].
  { constructor; [eauto|constructor]. }
  constructor; [eauto|].
  apply not_elem_of_cons in Hc as [Hc Hc'], Hd as [Hd Hd'].
  destruct (step_followed ev st s) as [s' Hs']; [done|done|done|].
  by apply (IH _ s').
Qed.

Lemma start_followed audio_files voice_name quality language st :
  Inv initial_ledger ->
  wpl (disk st) Inv
      (_train_voice_model env job_id audio_files voice_name quality language)
      Φ never initial_ledger ->
  before = model_dir st !! job_id ->
  followed env Inv Φ before job_id
    (snd (start_voice_cloning env job_id audio_files voice_name quality language st))
    initial_ledger.
Proof.
  intros Hinv Hwp ->. unfold followed, start_voice_cloning. cbn.
  rewrite !lookup_insert_eq.
  split; [|done].
  eexists. split; [reflexivity|].
  unfold keeps, initial_ledger. cbn. repeat split; by simplify_map_eq.
Qed.
End ledger_runs.

(** ** The outcome of the worker *)

Section worker_failures.
Import F64 Combiner Job Engine Worker.
Open Scope Q_scope.
Context (env : Env) (job_id : string) (audio_files : list string)
        (voice_name quality language : string) (dk : disk_state).

Lemma analyze_ok_loads files t total :
  analyze env files t = Ok total ->
  forall f, f ∈ files -> exists a, load_audio env f = Ok a.
Proof.
  revert t. induction files as [|f0 rest IH]; intros t; cbn [analyze].
  { intros _ f Hf. by apply elem_of_nil in Hf. }
  destruct (negb (path_exists env f0)); [done|].
  destruct (load_audio env f0) as [[samples sr]|e] eqn:Hload; [|done].
  destruct (ltb _ _); [done|]. intros Hrest f Hf.
  apply elem_of_cons in Hf as [->|Hf]; [eauto|]. by eapply IH.
Qed.

Lemma extracts_unique files cs cs' :
  extracts env files cs -> extracts env files cs' -> cs = cs'.
Proof.
  unfold extracts. intros H. revert cs'.
  induction H as [|f c files cs Hc H IH]; intros cs' H'.
  - by apply Forall2_nil_inv_l in H'.
  - apply Forall2_cons_inv_l in H' as (c' & cs'' & Hc' & H' & ->).
    rewrite Hc in Hc'. injection Hc' as <-. f_equal. by apply IH.
Qed.

Lemma coherent_plain status q :
  status = "initializing"%string /\ q == 0
  \/ status = "analyzing"%string /\ (q == 0 \/ (10 <= q /\ q <= 35))
  \/ status = "training"%string /\ 35 <= q /\ q <= 100
  \/ status = "failed"%string /\ 0 <= q /\ q <= 100 ->
  coherent voice_name quality language (plain status q).
Proof.
  intros H. unfold coherent, plain. cbn.
  assert (0 <= q /\ q <= 100) as [H0 H100].
  { destruct H as [[_ H]|[[_ [H|[H1 H2]]]|[(_ & H1 & H2)|(_ & H1 & H2)]]].
    - rewrite H. done.
    - rewrite H. done.
    - split; [by apply Qle_trans with (y := 10)|by apply Qle_trans with (y := 35)].
    - split; [by apply Qle_trans with (y := 35)|done].
    - done. }
  split.
  { rewrite !elem_of_cons. tauto. }
  split; [done|]. split; [done|].
  split; [intros ->; by destruct H as [[_ ?]|[[[=] _]|[[[=] _]|[[=] _]]]]|].
  split; [intros ->; by destruct H as [[[=] _]|[[_ ?]|[[[=] _]|[[=] _]]]]|].
  split; [intros ->; by destruct H as [[[=] _]|[[[=] _]|[[_ [? _]]|[[=] _]]]]|].
  split; [intros ->; by destruct H as [[[=] _]|[[[=] _]|[[[=] _]|[[=] _]]]]|].
  split; [by intros [? ?]|]. split; [by intros [? ?]|]. split; [done|].
  by intros [? ?].
Qed.

Lemma ending_failed e q torn :
  (forall e', analyze env audio_files (of_Z 0) = Raise e' ->
     e' = e /\ q == 10 /\ torn = None) ->
  (forall total cs,
     analyze env audio_files (of_Z 0) = Ok total -> extracts env audio_files cs ->
     match _combine_voice_characteristics cs with
     | Raise e' => e' = e /\ q == 35 /\ torn = None
     | Ok p =>
         dk <> Writable /\ e = OSError "cannot write model file" /\ q == 100
         /\ torn = torn_by dk
     end) ->
  torn = None \/ torn = torn_by dk ->
  ending env job_id audio_files voice_name quality language dk ReturnedJob
    {| l_status := "failed"; l_progress := q; l_error := Some e; l_model_path := None;
       l_quality_score := None; l_total_duration := None; l_stored := None;
       l_torn := torn |}.
Proof.
  intros Han Hex Htorn. unfold ending, failed_with. cbn.
  split; [done|]. split; [by right|].
  split; [intros _; split; [by eexists|done]|].
  split.
  { intros e' He'. by destruct (Han e' He') as (-> & ? & ->). }
  split; [|done].
  intros total cs Ht Hcs. specialize (Hex total cs Ht Hcs).
  destruct (_combine_voice_characteristics cs) as [p|e'].
  - destruct Hex as (Hdk & -> & ? & ->). by destruct dk.
  - by destruct Hex as (-> & ? & ->).
Qed.

Lemma wpl_train_failed e status q torn Φ Ψ :
  0 <= q -> q <= 100 -> (is_Some torn -> q == 100) ->
  Φ ReturnedJob
    {| l_status := "failed"; l_progress := q; l_error := Some e; l_model_path := None;
       l_quality_score := None; l_total_duration := None; l_stored := None;
       l_torn := torn |} ->
  wpl dk (coherent voice_name quality language) (train_failed e) Φ Ψ
    {| l_status := status; l_progress := q; l_error := None; l_model_path := None;
       l_quality_score := None; l_total_duration := None; l_stored := None;
       l_torn := torn |}.
Proof.
  intros H0 H100 Htorn HΦ. unfold train_failed.
  assert (forall err, coherent voice_name quality language
            {| l_status := "failed"; l_progress := q; l_error := err;
               l_model_path := None; l_quality_score := None;
               l_total_duration := None; l_stored := None; l_torn := torn |}) as Hco.
  { intros err. unfold coherent. cbn.
    split; [rewrite !elem_of_cons; tauto|].
    repeat (split; [done|]). split; [by apply Htorn|by right]. }
  eapply wpl_set_item; [reflexivity|apply Hco|].
  eapply wpl_set_item; [reflexivity|apply Hco|].
  apply wpl_now. intros t.
  eapply wpl_set_item; [reflexivity|apply Hco|].
  exact HΦ.
Qed.
End worker_failures.

Section worker_loops.
Import F64 Combiner Job Engine Worker.
Open Scope Q_scope.
Context (env : Env) (job_id : string) (audio_files : list string)
        (voice_name quality language : string) (dk : disk_state).

(** Stage 2, from file [i] on, for files that load. *)
Lemma wpl_extract_all n files i acc Φ Ψ progress :
  (forall f, f ∈ files -> exists a, load_audio env f = Ok a) ->
  20 <= progress -> progress <= 35 ->
  (forall cs q, extracts env files cs -> 20 <= q -> q <= 35 ->
     Φ (acc ++ cs) (plain "analyzing" q)) ->
  (forall e q, (forall cs, ~ extracts env files cs) -> 20 <= q -> q <= 35 ->
     Ψ e (plain "analyzing" q)) ->
  wpl dk (coherent voice_name quality language)
      (extract_all env n i files acc) Φ Ψ (plain "analyzing" progress).
Proof.
  revert i acc progress Φ Ψ. induction files as [|file_path rest IH];
    intros i acc progress Φ Ψ Hload H20 H35 HΦ HΨ; cbn [extract_all].
  { cbn. rewrite <- (app_nil_r acc). apply HΦ; [constructor|done|done]. }
  apply wpl_lift. destruct (Hload file_path) as [a ->]; [by left|].
  apply wpl_lift. destruct (extract env file_path) as [c|e] eqn:Hc.
  2:{ apply HΨ; [|done|done]. intros cs Hcs.
      apply Forall2_cons_inv_l in Hcs as (c' & cs' & Hc' & _). congruence. }
  change (stage_mark 1) with 20. change (stage_mark 2) with 35.
  set (q := py_min _ 35).
  assert (Hq35 : q <= 35) by apply py_min_le_r.
  assert (Hq20 : 20 <= q).
  { apply py_min_glb; [|done].
    apply Qle_trans with (y := 20 + 15 * Qnat (i + 1) / Qnat n).
    - rewrite <- (Qplus_0_r 20) at 1. apply Qplus_le_r, share_nonneg.
    - apply Qle_lteq. right. unfold Qdiv. ring. }
  clearbody q.
  eapply (wpl_set_item _ _ _ _ _ _ _ _ (plain "analyzing" q)); [reflexivity| |].
  { apply coherent_plain. right. left. split; [done|]. right. split; [|done].
    by apply Qle_trans with (y := 20). }
  apply IH; [|done|done| |].
  - intros f Hf. apply Hload. by right.
  - intros cs q' Hcs. rewrite <- app_assoc. cbn [app]. apply HΦ. by constructor.
  - intros e q' Hno. apply HΨ. intros cs Hcs.
    apply Forall2_cons_inv_l in Hcs as (c' & cs' & _ & Hcs' & _). by apply (Hno cs').
Qed.

(** Stage 4, from iteration [i] on: the record says [training], so the
    loop runs to its end. *)
Lemma wpl_train_iterations iterations remaining i Φ Ψ progress :
  (0 < iterations)%nat -> (i + remaining = iterations)%nat ->
  35 <= progress -> progress <= 85 ->
  (forall q, 35 <= q -> q <= 85 -> Φ false (plain "training" q)) ->
  wpl dk (coherent voice_name quality language)
      (train_iterations iterations remaining i) Φ Ψ (plain "training" progress).
Proof.
  intros Hpos. revert i progress.
  induction remaining as [|remaining IH]; intros i progress Hsum H35 H85 HΦ;
    cbn [train_iterations].
  { by apply HΦ. }
  apply wpl_bind. cbn [get_item wpl]. intros r Hr. rewrite (Hr eq_refl).
  cbn [l_status plain is_cancelled String.eqb Ascii.eqb Bool.eqb].
  change (stage_mark 3) with 70. change (stage_mark 4) with 85.
  set (q := 70 + (85 - 70) * Qnat i / Qnat iterations).
  assert (Hq : q == 70 + 15 * Qnat i / Qnat iterations).
  { subst q. unfold Qdiv. ring. }
  assert (Hq70 : 70 <= q).
  { rewrite Hq. rewrite <- (Qplus_0_r 70) at 1. apply Qplus_le_r, share_nonneg. }
  assert (Hq85 : q <= 85).
  { rewrite Hq. change 85 with (70 + 15). apply Qplus_le_r, share_le_all. lia. }
  clearbody q.
  eapply (wpl_set_item _ _ _ _ _ _ _ _ (plain "training" q)); [reflexivity| |].
  { apply coherent_plain. right. right. left. split; [done|].
    split; [by apply Qle_trans with (y := 70)|by apply Qle_trans with (y := 85)]. }
  eapply (wpl_set_item _ _ _ _ _ _ _ _ (plain "training" q)); [reflexivity| |].
  { apply coherent_plain. right. right. left. split; [done|].
    split; [by apply Qle_trans with (y := 70)|by apply Qle_trans with (y := 85)]. }
  apply IH; [lia| |done|done].
  by apply Qle_trans with (y := 70).
Qed.
End worker_loops.

Section worker_outcome.
Import F64 Combiner Job Engine Worker.
Open Scope Q_scope.
Context (env : Env) (job_id : string) (audio_files : list string)
        (voice_name quality language : string) (dk : disk_state).

Lemma combined_profile_score l p g :
  _combine_voice_characteristics l = Ok p ->
  exists x, fst (Scorer._validate_model_quality p quality g) = Ok x
            /\ le zero x /\ le x one.
Proof.
  intros Hp. destruct (combine_ok_inv l p Hp) as (Hne & Hm & Hc).
  destruct (combine_ok l Hne Hm Hc) as (p' & Hp' & H).
  rewrite Hp in Hp'. injection Hp' as <-.
  destruct H as (_ & _ & _ & _ & _ & _ & Hq & _).
  eexists. split; [exact (validate_model_quality_value _ _ _ _ Hq)|].
  exact (clamp_unit_interval _).
Qed.

Lemma coherent_stored status mp qs td d :
  status = "training"%string \/ status = "completed"%string ->
  written voice_name quality language d ->
  coherent voice_name quality language
    {| l_status := status; l_progress := 100; l_error := None; l_model_path := mp;
       l_quality_score := qs; l_total_duration := td; l_stored := Some d;
       l_torn := None |}.
Proof.
  intros Hs Hd. unfold coherent. cbn.
  split; [rewrite !elem_of_cons; tauto|].
  split; [done|]. split; [done|].
  split; [intros ->; by destruct Hs|].
  split; [intros ->; by destruct Hs|].
  split; [done|]. split; [by intros _; split; [|eexists]|].
  split; [done|]. split; [by intros [? ?]|]. split; [by intros ? [= <-]|].
  by intros [? ?].
Qed.

Lemma coherent_torn written :
  coherent voice_name quality language (unsaved "training" None (Some written)).
Proof.
  unfold coherent, unsaved. cbn.
  split; [rewrite !elem_of_cons; tauto|].
  split; [done|]. split; [done|]. split; [done|]. split; [done|]. split; [done|].
  split; [done|]. split; [by intros [? ?]|]. split; [by intros [? ?]|].
  split; [done|]. intros _. split; [done|]. split; [done|by left].
Qed.

(** The whole call, from the record [start_voice_cloning] creates. *)
Lemma wpl_train_voice_model :
  wpl dk (coherent voice_name quality language)
      (_train_voice_model env job_id audio_files voice_name quality language)
      (ending env job_id audio_files voice_name quality language dk)
      never initial_ledger.
Proof.
  unfold _train_voice_model. apply wpl_try_except.
  unfold train_body. change initial_ledger with (plain "initializing" 0).
  (* Stage 1 *)
  eapply (wpl_set_item _ _ _ _ _ _ _ _ (plain "analyzing" 0)); [reflexivity| |].
  { apply coherent_plain. right. left. split; [done|by left]. }
  eapply (wpl_set_item _ _ _ _ _ _ _ _ (plain "analyzing" 0)); [reflexivity| |].
  { apply coherent_plain. right. left. split; [done|by left]. }
  eapply (wpl_set_item _ _ _ _ _ _ _ _ (plain "analyzing" 10)); [reflexivity| |].
  { apply coherent_plain. right. left. split; [done|by right]. }
  apply wpl_lift. destruct (analyze env audio_files (of_Z 0)) as [total|e] eqn:Han.
  2:{ apply (wpl_train_failed _ _ _ _ e "analyzing" 10 None);
        [done|done|by intros [? ?]|].
      apply ending_failed; [| |by left].
      - intros e'. rewrite Han. by intros [= <-].
      - intros total cs. by rewrite Han. }
  (* Stage 2 *)
  eapply (wpl_set_item _ _ _ _ _ _ _ _ (plain "analyzing" 10)); [reflexivity| |].
  { apply coherent_plain. right. left. split; [done|by right]. }
  eapply (wpl_set_item _ _ _ _ _ _ _ _ (plain "analyzing" 20)); [reflexivity| |].
  { apply coherent_plain. right. left. split; [done|by right]. }
  apply wpl_bind. apply wpl_extract_all; [by eapply analyze_ok_loads|done|done| |].
  2:{ intros e q Hno H20 H35.
      apply (wpl_train_failed _ _ _ _ e "analyzing" q None).
      - by apply Qle_trans with (y := 20).
      - by apply Qle_trans with (y := 35).
      - by intros [? ?].
      - apply ending_failed; [| |by left].
        + intros e'. by rewrite Han.
        + intros total' cs Ht Hcs. by destruct (Hno cs). }
  intros cs q Hcs H20 H35. cbn [app].
  (* Stage 3 *)
  eapply (wpl_set_item _ _ _ _ _ _ _ _ (plain "analyzing" q)); [reflexivity| |].
  { apply coherent_plain. right. left. split; [done|]. right.
    split; [by apply Qle_trans with (y := 20)|done]. }
  eapply (wpl_set_item _ _ _ _ _ _ _ _ (plain "analyzing" 35)); [reflexivity| |].
  { apply coherent_plain. right. left. split; [done|by right]. }
  apply wpl_lift.
  destruct (_combine_voice_characteristics cs) as [p|e] eqn:Hp.
  2:{ apply (wpl_train_failed _ _ _ _ e "analyzing" 35 None);
        [done|done|by intros [? ?]|].
      apply ending_failed; [| |by left].
      - intros e'. by rewrite Han.
      - intros total' cs' Ht Hcs'. rewrite (extracts_unique env _ _ _ Hcs' Hcs), Hp.
        done. }
  (* Stage 4 *)
  eapply (wpl_set_item _ _ _ _ _ _ _ _ (plain "training" 35)); [reflexivity| |].
  { apply coherent_plain. right. right. left. done. }
  eapply (wpl_set_item _ _ _ _ _ _ _ _ (plain "training" 35)); [reflexivity| |].
  { apply coherent_plain. right. right. left. done. }
  apply wpl_bind.
  apply wpl_train_iterations; [apply iterations_positive|lia|done|done|].
  intros q' H35' H85'. cbn iota.
  (* Stage 5 *)
  eapply (wpl_set_item _ _ _ _ _ _ _ _ (plain "training" q')); [reflexivity| |].
  { apply coherent_plain. right. right. left. split; [done|].
    split; [done|by apply Qle_trans with (y := 85)]. }
  eapply (wpl_set_item _ _ _ _ _ _ _ _ (plain "training" 85)); [reflexivity| |].
  { apply coherent_plain. right. right. left. done. }
  (* Stage 6 *)
  eapply (wpl_set_item _ _ _ _ _ _ _ _ (plain "training" 85)); [reflexivity| |].
  { apply coherent_plain. right. right. left. done. }
  eapply (wpl_set_item _ _ _ _ _ _ _ _ (plain "training" 95)); [reflexivity| |].
  { apply coherent_plain. right. right. left. done. }
  apply wpl_bind. cbn [score wpl]. intros g.
  destruct (combined_profile_score cs p g Hp) as (x & Hx & Hx0 & Hx1). rewrite Hx.
  cbn [lift wpl].
  (* Stage 7 *)
  eapply (wpl_set_item _ _ _ _ _ _ _ _ (plain "training" 95)); [reflexivity| |].
  { apply coherent_plain. right. right. left. done. }
  eapply (wpl_set_item _ _ _ _ _ _ _ _ (plain "training" 100)); [reflexivity| |].
  { apply coherent_plain. right. right. left. done. }
  apply wpl_now. intros created_at.
  apply wpl_bind. cbn [dump wpl].
  destruct dk as [| |torn] eqn:Hdisk.
  2:{ cbn [lift wpl].
      apply (wpl_train_failed _ _ _ _ (OSError "cannot write model file")
               "training" 100 None); [done|done|done|].
      apply ending_failed; [| |by left].
      - intros e'. by rewrite Han.
      - intros total' cs' Ht Hcs'. rewrite (extracts_unique env _ _ _ Hcs' Hcs), Hp.
        done. }
  2:{ split; [apply coherent_torn|]. cbn [lift wpl].
      apply (wpl_train_failed _ _ _ _ (OSError "cannot write model file")
               "training" 100 (Some torn)); [done|done|done|].
      apply ending_failed; [| |by right].
      - intros e'. by rewrite Han.
      - intros total' cs' Ht Hcs'. rewrite (extracts_unique env _ _ _ Hcs' Hcs), Hp.
        done. }
  set (d := {| md_voice_name := Some voice_name |}).
  assert (written voice_name quality language d) as Hd.
  { unfold written, d. cbn. repeat (split; [done|]). eauto. }
  split; [by apply coherent_stored; [left|]|].
  cbn [lift wpl store plain l_status l_progress l_error l_model_path l_quality_score
       l_total_duration l_stored l_torn].
  (* Complete job *)
  eapply wpl_set_item; [reflexivity|by apply coherent_stored; [right|]|].
  eapply wpl_set_item; [reflexivity|by apply coherent_stored; [right|]|].
  eapply wpl_set_item; [reflexivity|by apply coherent_stored; [right|]|].
  eapply wpl_set_item; [reflexivity|by apply coherent_stored; [right|]|].
  apply wpl_now. intros completed_at.
  eapply wpl_set_item; [reflexivity|by apply coherent_stored; [right|]|].
  cbn [wpl mret W_ret].
  assert (completed_with env job_id voice_name quality language total p
            {| l_status := "completed"; l_progress := 100; l_error := None;
               l_model_path := Some (model_dir_name env +:+ "/" +:+ job_id +:+ ".pkl");
               l_quality_score := Some x; l_total_duration := Some total;
               l_stored := Some d; l_torn := None |}) as Hdone.
  { unfold completed_with. cbn. repeat (split; [done|]).
    exists x, created_at, g. done. }
  unfold ending. cbn [l_status l_error l_stored l_torn].
  split; [done|]. split; [by left|]. split; [done|]. split; [intros e'; by rewrite Han|].
  split.
  - intros total' cs' Ht Hcs'. rewrite Han in Ht. injection Ht as <-.
    by rewrite (extracts_unique env _ _ _ Hcs' Hcs), Hp.
  - intros _. exists total, cs, p. done.
Qed.
End worker_outcome.

(** ** Jobs that are neither cancelled nor deleted *)

Section whole_runs.
Import F64 Combiner Job Engine Worker.
Open Scope Q_scope.
Context (env : Env) (job_id : string) (audio_files : list string)
        (voice_name quality language : string).

Lemma train_run_followed st schedule :
  undisturbed job_id schedule ->
  Forall (fun st' =>
            exists s,
              followed env (coherent voice_name quality language)
                (ending env job_id audio_files voice_name quality language (disk st))
                (model_dir st !! job_id) job_id st' s)
         (run env schedule
            (snd (start_voice_cloning env job_id audio_files voice_name quality language st))).
Proof.
  intros Hu. eapply run_followed; [done|].
  apply start_followed; [|apply wpl_train_voice_model|done].
  apply coherent_plain. by left.
Qed.

(** X16.  In every state of a run in which the job is neither cancelled
    nor deleted, its record is in the registry with a status among
    [initializing], [analyzing], [training], [completed], [failed] and a
    progress between 0 and 100; the progress is 0 while [initializing], 0
    or between 10 and 35 while [analyzing], at least 35 while [training],
    100 when [completed]; and the record has an [error] entry only when
    its status is [failed]. *)
Theorem undisturbed_job_is_coherent (st : state) (schedule : list event) :
  undisturbed job_id schedule ->
  Forall (fun st' =>
            exists job status q,
              training_jobs st' !! job_id = Some job
              /\ job !! "status" = Some (JStr status)
              /\ job !! "progress" = Some (JNum q)
              /\ status ∈ ["initializing"; "analyzing"; "training"; "completed";
                           "failed"]%string
              /\ 0 <= q /\ q <= 100
              /\ (status = "initializing"%string -> q == 0)
              /\ (status = "analyzing"%string -> q == 0 \/ (10 <= q /\ q <= 35))
              /\ (status = "training"%string -> 35 <= q)
              /\ (status = "completed"%string -> q == 100)
              /\ (is_Some (job !! "error") -> status = "failed"%string))
         (run env schedule
            (snd (start_voice_cloning env job_id audio_files voice_name quality language st))).
Proof.
  intros Hu. eapply Forall_impl; [by apply train_run_followed|].
  intros st' (s & (job & Hjob & Hkeeps) & Hco & _).
  destruct Hkeeps as (Hs & Hq & He & _).
  destruct Hco as (H1 & H2 & H3 & H4 & H5 & H6 & H7 & _ & H9 & _).
  exists job, (l_status s), (l_progress s).
  repeat (split; [done|]). split; [intros H; by apply H7|].
  rewrite He. intros [x Hx]. apply H9. destruct (l_error s); [by eexists|done].
Qed.

(** X17.  In every state of such a run in which the record says
    [completed], the directory holds the model file of the job, and it
    loads: [load_voice_model] returns a dict with the name, the language
    and the tier of the call, version [1.0], a date and a quality score in
    [0, 1]; its summary in a listing carries these and the size of the
    pickled dict. *)
Theorem completed_job_is_stored (st : state) (schedule : list event) :
  undisturbed job_id schedule ->
  Forall (fun st' =>
            forall job,
              training_jobs st' !! job_id = Some job ->
              job !! "status" = Some (JStr "completed") ->
              exists f d x created,
                model_dir st' !! job_id = Some f
                /\ load_voice_model f = Ok (ModelDict d)
                /\ md_voice_name d = Some voice_name
                /\ md_language d = Some language
                /\ md_quality d = Some quality
                /\ md_model_version d = Some "1.0"%string
                /\ md_quality_score d = Some x /\ le zero x /\ le x one
                /\ md_created_at d = Some created
                /\ read_model job_id f
                   = Ok {| mi_id := job_id; mi_name := voice_name;
                           mi_language := language; mi_quality := quality;
                           mi_quality_score := x; mi_created_at := Some created;
                           mi_file_size := pickle_size env d |})
         (run env schedule
            (snd (start_voice_cloning env job_id audio_files voice_name quality language st))).
Proof.
  intros Hu. eapply Forall_impl; [by apply train_run_followed|].
  intros st' (s & (job' & Hjob' & Hkeeps) & Hco & Hdir & _) job Hjob Hstatus.
  rewrite Hjob in Hjob'. injection Hjob' as <-.
  destruct Hkeeps as (Hs & _). rewrite Hstatus in Hs. injection Hs as Hs.
  destruct Hco as (_ & _ & _ & _ & _ & _ & H7 & _ & _ & H10 & _).
  destruct (H7 (eq_sym Hs)) as [_ [d Hd]]. unfold left_on_disk in Hdir.
  rewrite Hd in Hdir.
  destruct (H10 d Hd) as (Hn & Hl & Hq & Hv & [created Hc] & _ & _ & x & Hx & Hx0 & Hx1).
  exists (stored_file env d), d, x, created.
  split; [done|]. split; [done|]. repeat (split; [done|]).
  unfold read_model, load_voice_model, stored_file. cbn.
  by rewrite Hn, Hl, Hq, Hx, Hc.
Qed.

(** X18.  When the worker of such a job has returned, the status is
    [completed] or [failed]: no exception leaves [_train_voice_model], and
    the job is not left [analyzing] or [training].  A failed job has an
    [error] entry, and either the entry of the directory is the one from
    before the call, or the write of the model failed after [open]: then
    the directory holds the file with the bytes that were written, and it
    does not load.  A completed job has no [error] entry; its
    [quality_score], [total_duration] and [model_path] are set, and the
    first two are those of the model stored in its file. *)
Theorem finished_job_completed_or_failed (st : state) (schedule : list event) :
  undisturbed job_id schedule ->
  Forall (fun st' =>
            finished job_id st' ->
            exists job status,
              training_jobs st' !! job_id = Some job
              /\ job !! "status" = Some (JStr status)
              /\ (status = "completed"%string \/ status = "failed"%string)
              /\ (status = "failed"%string ->
                    is_Some (job !! "error")
                    /\ (model_dir st' !! job_id = model_dir st !! job_id
                        \/ exists written f,
                             disk st = Full written
                             /\ model_dir st' !! job_id = Some f
                             /\ st_size f = written
                             /\ load_voice_model f
                                = Raise (ValueError "Invalid voice model")))
              /\ (status = "completed"%string ->
                    job !! "error" = None
                    /\ exists x total f d,
                         job !! "quality_score" = Some (JFloat x)
                         /\ job !! "total_duration" = Some (JFloat total)
                         /\ job !! "model_path"
                            = Some (JStr (model_dir_name env +:+ "/" +:+ job_id +:+ ".pkl"))
                         /\ model_dir st' !! job_id = Some f
                         /\ content f = ModelDict d
                         /\ md_quality_score d = Some x
                         /\ md_training_duration d = Some total))
         (run env schedule
            (snd (start_voice_cloning env job_id audio_files voice_name quality language st))).
Proof.
  intros Hu. eapply Forall_impl; [by apply train_run_followed|].
  intros st' (s & (job & Hjob & Hkeeps) & Hco & Hdir & Hfut) Hfin.
  unfold finished in Hfin. rewrite Hfin in Hfut. destruct Hfut as [o Hend].
  destruct Hend as (_ & Hor & Hfail & _ & _ & Hdone).
  destruct Hkeeps as (Hs & _ & He & Hmp & Hqs & Htd).
  exists job, (l_status s). split; [done|]. split; [done|]. split; [done|]. split.
  - intros Hf. destruct (Hfail Hf) as ([e Herr] & Hst & Htorn).
    unfold left_on_disk in Hdir. rewrite Hst in Hdir.
    split; [rewrite He, Herr; by eexists|].
    destruct Htorn as [Htorn|Htorn]; rewrite Htorn in Hdir; [by left|].
    destruct (disk st) as [| |written]; cbn [torn_by] in Hdir; [by left|by left|].
    right. by exists written, (torn_file written).
  - intros Hc.
    destruct (Hdone Hc) as (total & cs & p & _ & _ & _ & _ & Hcw).
    destruct Hcw as (_ & _ & Herr & _ & Ht & Hm & x & created & g & _ & Hx & Hst).
    unfold left_on_disk in Hdir.
    rewrite Hst in Hdir. split; [by rewrite He, Herr|].
    eexists x, total, _, _. rewrite Hqs, Hx, Htd, Ht, Hmp, Hm.
    repeat (split; [done|]). done.
Qed.

(** X19.  If stage 1 raises on the files of the job (a file is missing,
    does not load, or is shorter than two seconds), then, once the worker
    has returned, the job is [failed], its [error] is that exception, its
    progress is 10, and no model file has been written. *)
Theorem failed_analysis_fails_job (st : state) (schedule : list event) (e : exn) :
  analyze env audio_files (of_Z 0) = Raise e ->
  undisturbed job_id schedule ->
  Forall (fun st' =>
            finished job_id st' ->
            exists job q,
              training_jobs st' !! job_id = Some job
              /\ job !! "status" = Some (JStr "failed")
              /\ job !! "error" = Some (JErr e)
              /\ job !! "progress" = Some (JNum q) /\ q == 10
              /\ model_dir st' !! job_id = model_dir st !! job_id)
         (run env schedule
            (snd (start_voice_cloning env job_id audio_files voice_name quality language st))).
Proof.
  intros Han Hu. eapply Forall_impl; [by apply train_run_followed|].
  intros st' (s & (job & Hjob & Hkeeps) & Hco & Hdir & Hfut) Hfin.
  unfold finished in Hfin. rewrite Hfin in Hfut. destruct Hfut as [o Hend].
  destruct Hend as (_ & _ & _ & Hfail & _).
  destruct (Hfail e Han) as (Hs & He & Hq & Hst & Htn).
  destruct Hkeeps as (Ks & Kq & Ke & _).
  unfold left_on_disk in Hdir.
  rewrite Hst, Htn in Hdir. rewrite Hs in Ks. rewrite He in Ke.
  exists job, (l_progress s). done.
Qed.

(** X20.  Once the worker of such a job has returned, the job is
    [completed] exactly when the model file can be written, stage 1 accepts
    every file, the extractor answers for every file, and the combiner
    accepts what was extracted. *)
Theorem job_completes_exactly_when (st : state) (schedule : list event) :
  undisturbed job_id schedule ->
  Forall (fun st' =>
            finished job_id st' ->
            exists job,
              training_jobs st' !! job_id = Some job
              /\ (job !! "status" = Some (JStr "completed")
                  <-> disk st = Writable
                      /\ exists total cs p,
                           analyze env audio_files (of_Z 0) = Ok total
                           /\ extracts env audio_files cs
                           /\ _combine_voice_characteristics cs = Ok p))
         (run env schedule
            (snd (start_voice_cloning env job_id audio_files voice_name quality language st))).
Proof.
  intros Hu. eapply Forall_impl; [by apply train_run_followed|].
  intros st' (s & (job & Hjob & Hkeeps) & Hco & Hdir & Hfut) Hfin.
  unfold finished in Hfin. rewrite Hfin in Hfut. destruct Hfut as [o Hend].
  destruct Hend as (_ & _ & _ & _ & Hok & Hdone).
  destruct Hkeeps as (Ks & _).
  exists job. split; [done|]. rewrite Ks. split.
  - intros [= Hs]. destruct (Hdone Hs) as (total & cs & p & H1 & H2 & H3 & H4 & _).
    split; [done|]. by exists total, cs, p.
  - intros (Hdisk & total & cs & p & H1 & H2 & H3).
    specialize (Hok total cs H1 H2). rewrite H3, Hdisk in Hok.
    destruct Hok as [-> _]. done.
Qed.

(** X21.  If stage 1 accepts the files with total duration [total], the
    extractor answers [cs] for them, the combiner returns [p] on [cs], and
    the disk can be written, then, once the worker has returned, the job is
    [completed] with progress 100; its [quality_score] is a score of [p] at
    the tier of the call, its [total_duration] is [total], its
    [model_path] is [<model_dir>/<job_id>.pkl], and the file of that name
    holds the dict of the source: name, language, tier, [p], [total], the
    score, the time of writing and version [1.0]. *)
Theorem sound_job_completes (st : state) (schedule : list event)
    (total : float) (cs : list VoiceCharacteristics) (p : gmap string PVal) :
  analyze env audio_files (of_Z 0) = Ok total ->
  extracts env audio_files cs ->
  _combine_voice_characteristics cs = Ok p ->
  disk st = Writable ->
  undisturbed job_id schedule ->
  Forall (fun st' =>
            finished job_id st' ->
            exists job q x created g,
              training_jobs st' !! job_id = Some job
              /\ job !! "status" = Some (JStr "completed")
              /\ job !! "progress" = Some (JNum q) /\ q == 100
              /\ fst (Scorer._validate_model_quality p quality g) = Ok x
              /\ job !! "quality_score" = Some (JFloat x)
              /\ job !! "total_duration" = Some (JFloat total)
              /\ job !! "model_path"
                 = Some (JStr (model_dir_name env +:+ "/" +:+ job_id +:+ ".pkl"))
              /\ model_dir st' !! job_id
                 = Some (stored_file env
                           {| md_voice_name := Some voice_name;
                              md_language := Some language;
                              md_quality := Some quality;
                              md_characteristics := Some p;
                              md_training_duration := Some total;
                              md_quality_score := Some x;
                              md_created_at := Some created;
                              md_model_version := Some "1.0"%string |}))
         (run env schedule
            (snd (start_voice_cloning env job_id audio_files voice_name quality language st))).
Proof.
  intros Han Hcs Hp Hdisk Hu. eapply Forall_impl; [by apply train_run_followed|].
  intros st' (s & (job & Hjob & Hkeeps) & Hco & Hdir & Hfut) Hfin.
  unfold finished in Hfin. rewrite Hfin in Hfut. destruct Hfut as [o Hend].
  destruct Hend as (_ & _ & _ & _ & Hok & _).
  specialize (Hok total cs Han Hcs). rewrite Hp, Hdisk in Hok.
  destruct Hok as (Hs & Hq & _ & _ & Ht & Hm & x & created & g & Hx & Hqs & Hst).
  destruct Hkeeps as (Ks & Kq & _ & Kmp & Kqs & Ktd).
  unfold left_on_disk in Hdir. rewrite Hst in Hdir.
  rewrite Hs in Ks. rewrite Hqs in Kqs. rewrite Ht in Ktd.
  rewrite Hm in Kmp.
  exists job, (l_progress s), x, created, g. done.
Qed.

(** X22.  If everything goes well but the model file cannot be written,
    then, once the worker has returned, the job is [failed] with the
    [OSError] of the write and with progress 100 (progress is set to 100
    before the file is written).  If [open] raised, the entry of the
    directory is the one from before the call.  If the write failed after
    [open], the directory holds a file with the bytes that were written:
    nothing removes it, and it does not load. *)
Theorem unwritable_model_fails_job (st : state) (schedule : list event)
    (total : float) (cs : list VoiceCharacteristics) (p : gmap string PVal) :
  analyze env audio_files (of_Z 0) = Ok total ->
  extracts env audio_files cs ->
  _combine_voice_characteristics cs = Ok p ->
  disk st <> Writable ->
  undisturbed job_id schedule ->
  Forall (fun st' =>
            finished job_id st' ->
            exists job q,
              training_jobs st' !! job_id = Some job
              /\ job !! "status" = Some (JStr "failed")
              /\ job !! "error" = Some (JErr (OSError "cannot write model file"))
              /\ job !! "progress" = Some (JNum q) /\ q == 100
              /\ match disk st with
                 | Full written =>
                     exists f,
                       model_dir st' !! job_id = Some f
                       /\ st_size f = written
                       /\ load_voice_model f = Raise (ValueError "Invalid voice model")
                 | _ => model_dir st' !! job_id = model_dir st !! job_id
                 end)
         (run env schedule
            (snd (start_voice_cloning env job_id audio_files voice_name quality language st))).
Proof.
  intros Han Hcs Hp Hdisk Hu. eapply Forall_impl; [by apply train_run_followed|].
  intros st' (s & (job & Hjob & Hkeeps) & Hco & Hdir & Hfut) Hfin.
  unfold finished in Hfin. rewrite Hfin in Hfut. destruct Hfut as [o Hend].
  destruct Hend as (_ & _ & _ & _ & Hok & _).
  specialize (Hok total cs Han Hcs). rewrite Hp in Hok.
  assert (failed_with (OSError "cannot write model file") 100 (torn_by (disk st)) s) as Hf.
  { by destruct (disk st). }
  destruct Hf as (Hs & He & Hq & Hst & Htn).
  destruct Hkeeps as (Ks & Kq & Ke & _).
  unfold left_on_disk in Hdir.
  rewrite Hst, Htn in Hdir. rewrite Hs in Ks. rewrite He in Ke.
  exists job, (l_progress s). repeat (split; [done|]).
  destruct (disk st) as [| |written]; cbn [torn_by] in Hdir; [done|done|].
  by exists (torn_file written).
Qed.
End whole_runs.

Section whole_run_samples.
Import F64 Combiner Job Engine Worker.
Open Scope Q_scope.

Lemma undisturbed_job_is_coherent_witness :
  exists job status q,
    training_jobs (final studio long_run submitted) !! "job"%string = Some job
    /\ job !! "status" = Some (JStr status)
    /\ job !! "progress" = Some (JNum q)
    /\ 0 <= q /\ q <= 100.
Proof.
  destruct (Forall_final _ _ _
              (undisturbed_job_is_coherent studio "job" two_files "Alice" "draft" "en-US"
                 empty_engine long_run long_run_undisturbed))
    as (job & status & q & H1 & H2 & H3 & _ & H4 & H5 & _).
  exists job, status, q. auto.
Defined.

Lemma completed_job_is_stored_witness :
  exists f d,
    model_dir (final studio long_run submitted) !! "job"%string = Some f
    /\ load_voice_model f = Ok (ModelDict d)
    /\ md_voice_name d = Some "Alice"%string.
Proof.
  assert (training_jobs (final studio long_run submitted) !! "job"%string
          ≫= (.!! "status"%string) = Some (JStr "completed")) as Hstatus.
  { vm_compute. reflexivity. }
  destruct (training_jobs (final studio long_run submitted) !! "job"%string)
    as [job|] eqn:Hjob; [|discriminate Hstatus].
  destruct (Forall_final _ _ _
              (completed_job_is_stored studio "job" two_files "Alice" "draft" "en-US"
                 empty_engine long_run long_run_undisturbed) job Hjob Hstatus)
    as (f & d & x & created & Hf & Hl & Hn & _).
  exists f, d. auto.
Defined.

Lemma finished_job_completed_or_failed_witness :
  exists job status,
    training_jobs (final studio long_run submitted) !! "job"%string = Some job
    /\ job !! "status" = Some (JStr status)
    /\ (status = "completed"%string \/ status = "failed"%string).
Proof.
  destruct (Forall_final _ _ _
              (finished_job_completed_or_failed studio "job" two_files "Alice" "draft"
                 "en-US" empty_engine long_run long_run_undisturbed))
    as (job & status & H1 & H2 & H3 & _); [vm_compute; reflexivity|].
  exists job, status. auto.
Defined.

Lemma failed_analysis_fails_job_witness :
  exists job,
    training_jobs
      (final empty_room long_run
         (snd (start_voice_cloning empty_room "job" two_files "Alice" "draft" "en-US"
                 empty_engine))) !! "job"%string = Some job
    /\ job !! "status" = Some (JStr "failed")
    /\ job !! "error" = Some (JErr (FileNotFoundError "a.wav")).
Proof.
  destruct (Forall_final _ _ _
              (failed_analysis_fails_job empty_room "job" two_files "Alice" "draft" "en-US"
                 empty_engine long_run (FileNotFoundError "a.wav") eq_refl
                 long_run_undisturbed))
    as (job & q & H1 & H2 & H3 & _); [vm_compute; reflexivity|].
  exists job. auto.
Defined.

Lemma job_completes_exactly_when_witness :
  exists job,
    training_jobs (final studio long_run submitted) !! "job"%string = Some job
    /\ (job !! "status" = Some (JStr "completed")
        <-> disk empty_engine = Writable
            /\ exists total cs p,
                 analyze studio two_files (of_Z 0) = Ok total
                 /\ extracts studio two_files cs
                 /\ _combine_voice_characteristics cs = Ok p).
Proof.
  apply (Forall_final _ _ _
           (job_completes_exactly_when studio "job" two_files "Alice" "draft" "en-US"
              empty_engine long_run long_run_undisturbed)).
  vm_compute. reflexivity.
Defined.

Lemma sound_job_completes_witness :
  exists job,
    training_jobs (final studio long_run submitted) !! "job"%string = Some job
    /\ job !! "status" = Some (JStr "completed")
    /\ job !! "total_duration" = Some (JFloat (of_Z 10)).
Proof.
  destruct (combine_ok [studio_sample; studio_sample]) as (p & Hp & _);
    [done|reflexivity|reflexivity|].
  assert (analyze studio two_files (of_Z 0) = Ok (of_Z 10)) as Han.
  { vm_compute. reflexivity. }
  assert (extracts studio two_files [studio_sample; studio_sample]) as Hcs.
  { by repeat constructor. }
  destruct (Forall_final _ _ _
              (sound_job_completes studio "job" two_files "Alice" "draft" "en-US"
                 empty_engine long_run (of_Z 10) [studio_sample; studio_sample] p
                 Han Hcs Hp eq_refl long_run_undisturbed))
    as (job & q & x & created & g & H1 & H2 & _ & _ & _ & _ & H3 & _);
    [vm_compute; reflexivity|].
  exists job. auto.
Defined.

Lemma unwritable_model_fails_job_witness :
  exists job f,
    training_jobs
      (final studio long_run
         (snd (start_voice_cloning studio "job" two_files "Alice" "draft" "en-US"
                 full_disk_engine))) !! "job"%string = Some job
    /\ job !! "status" = Some (JStr "failed")
    /\ job !! "error" = Some (JErr (OSError "cannot write model file"))
    /\ model_dir
         (final studio long_run
            (snd (start_voice_cloning studio "job" two_files "Alice" "draft" "en-US"
                    full_disk_engine))) !! "job"%string = Some f
    /\ st_size f = 17%N
    /\ load_voice_model f = Raise (ValueError "Invalid voice model").
Proof.
  destruct (combine_ok [studio_sample; studio_sample]) as (p & Hp & _);
    [done|reflexivity|reflexivity|].
  assert (analyze studio two_files (of_Z 0) = Ok (of_Z 10)) as Han.
  { vm_compute. reflexivity. }
  assert (extracts studio two_files [studio_sample; studio_sample]) as Hcs.
  { by repeat constructor. }
  assert (disk full_disk_engine <> Writable) as Hdisk by done.
  destruct (Forall_final _ _ _
              (unwritable_model_fails_job studio "job" two_files "Alice" "draft" "en-US"
                 full_disk_engine long_run (of_Z 10) [studio_sample; studio_sample] p
                 Han Hcs Hp Hdisk long_run_undisturbed))
    as (job & q & H1 & H2 & H3 & _ & _ & f & H4 & H5 & H6); [vm_compute; reflexivity|].
  exists job, f. auto 10.
Defined.
End whole_run_samples.

Section empty_submission.
Import F64 Combiner Job Engine Worker.
Open Scope Q_scope.

(** X23.  A job submitted with no audio file passes stages 1 and 2 with
    nothing to do and fails in stage 3: once its worker has returned, the
    job is [failed] with [ValueError("No voice characteristics to
    combine")] and progress 35, and no model file has been written. *)
Theorem empty_submission_fails (env : Env) (job_id voice_name quality language : string)
    (st : state) (schedule : list event) :
  undisturbed job_id schedule ->
  Forall (fun st' =>
            finished job_id st' ->
            exists job q,
              training_jobs st' !! job_id = Some job
              /\ job !! "status" = Some (JStr "failed")
              /\ job !! "error"
                 = Some (JErr (ValueError "No voice characteristics to combine"))
              /\ job !! "progress" = Some (JNum q) /\ q == 35
              /\ model_dir st' !! job_id = model_dir st !! job_id)
         (run env schedule
            (snd (start_voice_cloning env job_id [] voice_name quality language st))).
Proof.
  intros Hu. eapply Forall_impl; [by apply train_run_followed|].
  intros st' (s & (job & Hjob & Hkeeps) & Hco & Hdir & Hfut) Hfin.
  unfold finished in Hfin. rewrite Hfin in Hfut. destruct Hfut as [o Hend].
  destruct Hend as (_ & _ & _ & _ & Hok & _).
  specialize (Hok (of_Z 0) [] eq_refl (List.Forall2_nil _)). cbn in Hok.
  destruct Hok as (Hs & He & Hq & Hst & Htn).
  destruct Hkeeps as (Ks & Kq & Ke & _).
  unfold left_on_disk in Hdir.
  rewrite Hst, Htn in Hdir. rewrite Hs in Ks. rewrite He in Ke.
  exists job, (l_progress s). done.
Qed.

Lemma empty_submission_fails_witness :
  exists job,
    training_jobs
      (final studio long_run
         (snd (start_voice_cloning studio "job" [] "Alice" "draft" "en-US" empty_engine)))
      !! "job"%string = Some job
    /\ job !! "status" = Some (JStr "failed")
    /\ job !! "error" = Some (JErr (ValueError "No voice characteristics to combine")).
Proof.
  destruct (Forall_final _ _ _
              (empty_submission_fails studio "job" "Alice" "draft" "en-US" empty_engine
                 long_run long_run_undisturbed))
    as (job & q & H1 & H2 & H3 & _); [vm_compute; reflexivity|].
  exists job. auto.
Defined.
End empty_submission.

(** ** Every job ends *)

Section liveness.
Import F64 Combiner Job Engine Worker.

Lemma halts_within_mono {A} (w : W A) n m :
  (n <= m)%nat -> halts_within w n -> halts_within w m.
Proof.
  revert n m. induction w as [a|e|key v k IH|key k IH|k IH|d k IH|g k IH];
    intros n m Hnm; cbn; [done|done|..];
    (destruct n as [|n]; [done|]); (destruct m as [|m]; [lia|]);
    try (intros H r; eapply (IH r n m); [lia|apply H]).
  apply IH. lia.
Qed.

Lemma halts_within_bind {A B} (m : W A) (f : A -> W B) a b :
  halts_within m a -> (forall x, halts_within (f x) b) ->
  halts_within (m ≫= f) (a + b).
Proof.
  unfold mbind, W_bind. revert a.
  induction m as [x|e|key v k IH|key k IH|k IH|d k IH|g k IH]; intros a; cbn.
  - intros _ Hf. eapply halts_within_mono; [|apply Hf]. lia.
  - done.
  - destruct a as [|a]; [done|]. cbn. intros Hk Hf. by apply IH.
  - destruct a as [|a]; [done|]. cbn. intros Hk Hf r. by apply IH.
  - destruct a as [|a]; [done|]. cbn. intros Hk Hf r. by apply IH.
  - destruct a as [|a]; [done|]. cbn. intros Hk Hf r. by apply IH.
  - destruct a as [|a]; [done|]. cbn. intros Hk Hf r. by apply IH.
Qed.

Lemma halts_within_try_except {A} (m : W A) (h : exn -> W A) a b :
  halts_within m a -> (forall e, halts_within (h e) b) ->
  halts_within (try_except m h) (a + b).
Proof.
  revert a.
  induction m as [x|e|key v k IH|key k IH|k IH|d k IH|g k IH]; intros a; cbn.
  - done.
  - intros _ Hf. eapply halts_within_mono; [|apply Hf]. lia.
  - destruct a as [|a]; [done|]. cbn. intros Hk Hf. by apply IH.
  - destruct a as [|a]; [done|]. cbn. intros Hk Hf r. by apply IH.
  - destruct a as [|a]; [done|]. cbn. intros Hk Hf r. by apply IH.
  - destruct a as [|a]; [done|]. cbn. intros Hk Hf r. by apply IH.
  - destruct a as [|a]; [done|]. cbn. intros Hk Hf r. by apply IH.
Qed.

Lemma halts_within_lift {A} (r : result A) : halts_within (lift r) 0.
Proof. by destruct r. Qed.

Lemma halts_within_set_item key v : halts_within (set_item key v) 1.
Proof. done. Qed.

Lemma halts_within_extract_all env n i files acc :
  halts_within (extract_all env n i files acc) (length files).
Proof.
  revert i acc. induction files as [|f rest IH]; intros i acc; cbn [extract_all length].
  { done. }
  apply (halts_within_bind _ _ 0 (S (length rest))); [apply halts_within_lift|].
  intros _. apply (halts_within_bind _ _ 0 (S (length rest))); [apply halts_within_lift|].
  intros c. apply (halts_within_bind _ _ 1 (length rest)); [done|].
  intros _. apply IH.
Qed.

Lemma halts_within_train_iterations iterations remaining i :
  halts_within (train_iterations iterations remaining i) (3 * remaining).
Proof.
  revert i. induction remaining as [|remaining IH]; intros i; cbn [train_iterations].
  { done. }
  replace (3 * S remaining)%nat with (1 + (2 + 3 * remaining))%nat by lia.
  apply halts_within_bind; [done|]. intros [v|]; [|done].
  destruct (is_cancelled v); [done|].
  apply (halts_within_bind _ _ 1 (1 + 3 * remaining)); [done|]. intros _.
  apply (halts_within_bind _ _ 1 (3 * remaining)); [done|]. intros _.
  apply IH.
Qed.

Lemma halts_within_train_failed e : halts_within (train_failed e) 4.
Proof. done. Qed.

Lemma halts_within_score f : halts_within (score f) 1.
Proof. cbn. by intros []. Qed.

Lemma halts_within_dump d : halts_within (dump d) 1.
Proof. cbn. by intros []. Qed.

Lemma halts_within_train_voice_model env job_id audio_files voice_name quality language :
  halts_within (_train_voice_model env job_id audio_files voice_name quality language)
    (length audio_files + 3 * default 15%nat (training_iterations !! quality) + 28)%nat.
Proof.
  unfold _train_voice_model.
  set (n := length audio_files). set (it := default 15%nat (training_iterations !! quality)).
  replace (n + 3 * it + 28)%nat with ((n + 3 * it + 24) + 4)%nat by lia.
  apply halts_within_try_except; [|intros e; apply halts_within_train_failed].
  unfold train_body.
  replace (n + 3 * it + 24)%nat
    with (1 + (1 + (1 + (0 + (1 + (1 + (n + (1 + (1 + (0 + (1 + (1 + (3 * it + 15)))))))))))))%nat
    by lia.
  repeat (apply halts_within_bind; [done|intros _]).
  apply halts_within_bind; [apply halts_within_lift|intros total].
  repeat (apply halts_within_bind; [done|intros _]).
  apply halts_within_bind; [apply halts_within_extract_all|intros cs].
  repeat (apply halts_within_bind; [done|intros _]).
  apply halts_within_bind; [apply halts_within_lift|intros p].
  repeat (apply halts_within_bind; [done|intros _]).
  apply halts_within_bind; [apply halts_within_train_iterations|intros [|]]; [done|].
  change 15%nat with (1 + (1 + (1 + (1 + (1 + (1 + (1 + (1 + (1 + 6)))))))))%nat.
  repeat (apply halts_within_bind; [done|intros _]).
  apply halts_within_bind; [apply halts_within_score|intros x].
  repeat (apply halts_within_bind; [done|intros _]).
  apply halts_within_bind; [done|intros t].
  apply halts_within_bind; [apply halts_within_dump|intros _].
  change 6%nat with (1 + (1 + (1 + (1 + (1 + (1 + 0))))))%nat.
  repeat (apply halts_within_bind; [done|intros _]).
  apply halts_within_bind; [done|intros t'].
  apply halts_within_bind; [done|intros _].
  done.
Qed.

Lemma due_mono f n m : (n <= m)%nat -> due f n -> due f m.
Proof.
  intros Hnm. destruct f as [[w|w| |]|]; cbn; try done.
  - intros (k & Hk & Hle). exists k. split; [done|lia].
  - intros (k & Hk & Hle). exists k. split; [done|lia].
Qed.

Lemma due_work env job_id st n :
  due (futures st !! job_id) n ->
  due (futures (work env job_id st) !! job_id) (pred n).
Proof.
  unfold work. destruct (futures st !! job_id) as [[w|w| |]|] eqn:Hf; cbn [due].
  - intros (m & Hm & Hle).
    destruct (training_jobs st !! job_id); cbn; rewrite lookup_insert_eq; cbn; [|done].
    exists m. split; [done|lia].
  - intros (m & Hm & Hle).
    destruct w as [a|e|key v k|key k|k|d k|f k]; cbn in Hm |- *;
      try (rewrite lookup_insert_eq; cbn; done);
      (destruct m as [|m]; [done|]).
    + rewrite lookup_insert_eq. cbn. exists m. split; [done|lia].
    + rewrite lookup_insert_eq. cbn. exists m. split; [apply Hm|lia].
    + rewrite lookup_insert_eq. cbn. exists m. split; [apply Hm|lia].
    + unfold write_model. destruct (disk st); cbn; rewrite lookup_insert_eq; cbn;
        (exists m; split; [apply Hm|lia]).
    + destruct (f (rng st)) as [r g]. cbn. rewrite lookup_insert_eq. cbn.
      exists m. split; [apply Hm|lia].
  - intros _. by rewrite Hf.
  - intros _. by rewrite Hf.
  - done.
Qed.

Lemma due_cancel job_id st n :
  due (futures st !! job_id) n ->
  due (futures (snd (cancel_training job_id st)) !! job_id) n.
Proof.
  destruct (training_jobs st !! job_id) as [job|] eqn:Hjob.
  - destruct (cancel_training_known job_id st job Hjob) as (_ & _ & _ & _ & _ & Hf).
    cbn zeta in Hf. rewrite Hf. destruct (job !! "future"); [|done].
    rewrite lookup_alter_eq. by destruct (futures st !! job_id) as [[w|w| |]|].
  - by rewrite cancel_training_unknown.
Qed.

Lemma due_step env job_id ev st n :
  due (futures st !! job_id) n ->
  due (futures (step env ev st) !! job_id)
      (match ev with
       | Work j => if String.eqb j job_id then pred n else n
       | _ => n
       end).
Proof.
  intros Hdue. destruct (decide (event_job ev = job_id)) as [Heq|Hne].
  - destruct ev as [j|j|j]; cbn in Heq; subst j; cbn [step].
    + rewrite String.eqb_refl. by apply due_work.
    + by apply due_cancel.
    + by rewrite futures_delete.
  - destruct (step_other_frame env ev st job_id Hne) as (_ & _ & -> & _).
    destruct ev as [j|j|j]; [|done|done].
    cbn in Hne. by destruct (String.eqb_spec j job_id).
Qed.

Lemma due_final env job_id schedule : forall st n,
  due (futures st !! job_id) n -> (n <= works job_id schedule)%nat ->
  ended job_id (final env schedule st).
Proof.
  induction schedule as [|ev rest IH]; intros st n Hdue Hn.
  - cbn in Hn. assert (n = 0)%nat as -> by lia. unfold ended, final. cbn.
    destruct (futures st !! job_id) as [[w|w| |]|]; cbn in Hdue; try done;
      try (destruct Hdue as (m & _ & ?); lia); auto.
  - cbn [final fold_left]. eapply IH; [by apply due_step|].
    unfold works in *. cbn [List.filter] in Hn.
    destruct ev as [j|j|j]; [|done|done].
    destruct (String.eqb j job_id); [|done]. cbn [length] in Hn. lia.
Qed.

Lemma iterations_at_most quality :
  (default 15 (training_iterations !! quality) <= 50)%nat.
Proof.
  unfold training_iterations.
  destruct (decide (quality = "premium"%string)) as [->|?]; [vm_compute; lia|].
  destruct (decide (quality = "high"%string)) as [->|?]; [vm_compute; lia|].
  destruct (decide (quality = "standard"%string)) as [->|?]; [vm_compute; lia|].
  destruct (decide (quality = "draft"%string)) as [->|?]; [vm_compute; lia|].
  rewrite !lookup_insert_ne, lookup_empty by done. cbn. lia.
Qed.

(** X24.  Every submitted job ends: in any schedule that gives the thread
    of the job [len(audio_files) + 3 * iterations + 30] steps, whatever
    else happens in between, the future of the job has returned or was
    cancelled before it started.  The number of training iterations is that
    of the tier, at most 50. *)
Theorem submitted_job_ends (env : Env) (job_id : string) (audio_files : list string)
    (voice_name quality language : string) (st : state) (schedule : list event) :
  (length audio_files + 3 * default 15 (training_iterations !! quality) + 30
   <= works job_id schedule)%nat ->
  ended job_id
    (final env schedule
       (snd (start_voice_cloning env job_id audio_files voice_name quality language st)))
  /\ (default 15 (training_iterations !! quality) <= 50)%nat.
Proof.
  intros Hn. split; [|apply iterations_at_most].
  eapply due_final; [|exact Hn].
  unfold start_voice_cloning. cbn. rewrite lookup_insert_eq. cbn.
  eexists. split; [apply halts_within_train_voice_model|lia].
Qed.

Lemma submitted_job_ends_witness : ended "job" (final studio long_run submitted).
Proof.
  refine (proj1 (submitted_job_ends studio "job" two_files "Alice" "draft" "en-US"
                   empty_engine long_run _)).
  vm_compute. lia.
Defined.
End liveness.

(** ** The analysis stage *)

Section analysis.
Import F64 Combiner Job Engine Worker.

Lemma sound_file_dec env f : sound_file env f \/ ~ sound_file env f.
Proof.
  unfold sound_file. destruct (path_exists env f); [|right; by intros [? _]].
  destruct (librosa_load env f) as [a|]; [|right; by intros (_ & [? ?] & _)].
  destruct (ltb _ _); [right; by intros (_ & _ & ?)|left]. by split; [|split; [eexists|]].
Qed.

Lemma analyze_sound env f rest t :
  sound_file env f ->
  analyze env (f :: rest) t = analyze env rest (add t (file_duration env f)).
Proof.
  unfold sound_file, file_duration, load_audio. intros (He & [[samples sr] Hl] & Hd).
  cbn [analyze]. unfold load_audio. rewrite He, Hl in *. cbn [negb].
  unfold duration in Hd. by rewrite Hd.
Qed.

Lemma analyze_unsound env f rest t :
  ~ sound_file env f -> analyze env (f :: rest) t = Raise (analysis_error env f).
Proof.
  unfold sound_file, file_duration, analysis_error, load_audio. intros Hns.
  cbn [analyze]. unfold load_audio.
  destruct (path_exists env f); cbn [negb]; [|done].
  destruct (librosa_load env f) as [[samples sr]|]; [|done].
  unfold duration in Hns.
  destruct (ltb _ _) eqn:Hd; [done|]. exfalso. apply Hns. by split; [|split; [eexists|]].
Qed.

(** X25.  Stage 1 accepts a list of files exactly when every file exists,
    loads, and is not shorter than two seconds; it then returns the sum of
    their durations, added in order.  Otherwise the first file that is not
    so decides the exception: [FileNotFoundError] if it does not exist,
    [ValueError] if it does not load or is too short; the files after it
    are not looked at. *)
Theorem analyze_first_unsound_file (env : Env) (files : list string) (t : float) :
  (Forall (sound_file env) files ->
   analyze env files t = Ok (fold_left add (file_duration env <$> files) t))
  /\ (forall pre f post,
        files = pre ++ f :: post -> Forall (sound_file env) pre -> ~ sound_file env f ->
        analyze env files t = Raise (analysis_error env f))
  /\ (forall total, analyze env files t = Ok total -> Forall (sound_file env) files)
  /\ (forall e, analyze env files t = Raise e ->
        exists pre f post,
          files = pre ++ f :: post /\ Forall (sound_file env) pre
          /\ ~ sound_file env f /\ e = analysis_error env f).
Proof.
  revert t. induction files as [|f0 rest IH]; intros t.
  { split; [done|]. split; [by intros [|? ?] ? ? ?|].
    split; [by constructor|done]. }
  destruct (IH (add t (file_duration env f0))) as (IH1 & IH2 & IH3 & IH4).
  destruct (sound_file_dec env f0) as [Hs|Hns].
  - rewrite (analyze_sound env f0 rest t Hs). split; [|split; [|split]].
    + intros Hall. apply Forall_cons in Hall as [_ Hall]. by apply IH1.
    + intros [|f' pre] f post Heq Hpre Hf.
      * cbn in Heq. injection Heq as <- <-. done.
      * cbn in Heq. injection Heq as <- ->. apply Forall_cons in Hpre as [_ Hpre].
        by eapply IH2.
    + intros total Ht. constructor; [done|by eapply IH3].
    + intros e He. destruct (IH4 e He) as (pre & f & post & -> & Hpre & Hf & ->).
      exists (f0 :: pre), f, post. split; [done|]. split; [by constructor|done].
  - rewrite (analyze_unsound env f0 rest t Hns). split; [|split; [|split]].
    + intros Hall. by apply Forall_cons in Hall as [? _].
    + intros [|f' pre] f post Heq Hpre Hf.
      * cbn in Heq. by injection Heq as <- <-.
      * cbn in Heq. injection Heq as <- ->. by apply Forall_cons in Hpre as [? _].
    + done.
    + intros e [= <-]. exists [], f0, rest. split; [done|]. split; [constructor|done].
Qed.
End analysis.

(** ** Cancelling before the worker starts *)

Section early_cancel.
Import F64 Combiner Job Engine Worker.
Open Scope Q_scope.

(** X26.  A job cancelled before its worker has taken a step never runs:
    [cancel_training] returns [True], and in every state of every schedule
    that follows the future is cancelled, the record reads [cancelled] with
    progress 0, and the model file of the job is the one the directory had
    before the call, or is gone. *)
Theorem cancelled_before_start_never_runs (env : Env) (job_id : string)
    (audio_files : list string) (voice_name quality language : string)
    (st : state) (schedule : list event) :
  let started := snd (start_voice_cloning env job_id audio_files voice_name quality language st) in
  fst (cancel_training job_id started) = true
  /\ Forall (fun st' =>
               futures st' !! job_id = Some Cancelled
               /\ (exists job,
                     job_object st' job_id = Some job
                     /\ job !! "status" = Some (JStr "cancelled")
                     /\ job !! "progress" = Some (JNum 0))
               /\ (model_dir st' !! job_id = model_dir st !! job_id
                   \/ model_dir st' !! job_id = None))
            (run env schedule (snd (cancel_training job_id started))).
Proof.
  cbn zeta.
  set (started := snd (start_voice_cloning env job_id audio_files voice_name quality language st)).
  assert (exists job, training_jobs started !! job_id = Some job
                      /\ is_Some (job !! "future")
                      /\ futures started !! job_id
                         = Some (Pending (_train_voice_model env job_id audio_files
                                            voice_name quality language))
                      /\ model_dir started = model_dir st) as (job & Hjob & Hfk & Hfut & Hmd).
  { unfold started, start_voice_cloning. cbn. rewrite !lookup_insert_eq.
    eexists. split; [done|]. split; [|done]. rewrite lookup_insert_eq. by eexists. }
  destruct (cancel_training_known job_id started job Hjob) as (Hret & Hrec & _ & _ & Hm & Hf).
  split; [done|].
  set (P := fun st' : state =>
              futures st' !! job_id = Some Cancelled
              /\ (exists job, job_object st' job_id = Some job
                    /\ job !! "status" = Some (JStr "cancelled")
                    /\ job !! "progress" = Some (JNum 0))
              /\ (model_dir st' !! job_id = model_dir st !! job_id
                  \/ model_dir st' !! job_id = None)).
  assert (forall ev st', P st' -> P (step env ev st')) as Hstep.
  { intros ev st' (Hc & (j & Hj & Hs & Hp) & Hd).
    destruct (decide (event_job ev = job_id)) as [Heq|Hne].
    - destruct ev as [i|i|i]; cbn in Heq; subst i; cbn [step].
      + unfold work. rewrite Hc. unfold P. eauto 10.
      + destruct (training_jobs st' !! job_id) as [j'|] eqn:Hj'.
        * destruct (cancel_training_known job_id st' j' Hj')
            as (_ & Hrec' & _ & _ & Hm' & Hf').
          cbn zeta in *. split; [|split].
          -- rewrite Hf'. destruct (j' !! "future"); [|done].
             by rewrite lookup_alter_eq, Hc.
          -- unfold job_object. rewrite Hrec'. eexists. split; [done|].
             unfold cancelled_record. by simplify_map_eq.
          -- by rewrite Hm'.
        * rewrite cancel_training_unknown by done. unfold P. eauto 10.
      + split; [by rewrite futures_delete|]. split; [rewrite job_object_delete; eauto|].
        unfold delete_voice_model. destruct (model_dir st' !! job_id) as [f|] eqn:Hf'.
        * destruct (locked f); cbn [snd]; [by rewrite Hf' in *|].
          rewrite forget_job_model_dir. cbn. right. apply lookup_delete_eq.
        * cbn [snd]. rewrite forget_job_model_dir. by rewrite Hf' in *.
    - destruct (step_other_frame env ev st' job_id Hne) as (_ & H2 & H3 & H4).
      unfold P. rewrite H2, H3, H4. eauto 10. }
  assert (P (snd (cancel_training job_id started))) as Hstart.
  { cbn zeta in *. split; [|split].
    - rewrite Hf. destruct Hfk as [v ->]. by rewrite lookup_alter_eq, Hfut.
    - unfold job_object. rewrite Hrec. eexists. split; [done|].
      unfold cancelled_record. by simplify_map_eq.
    - left. by rewrite Hm, Hmd. }
  clear -Hstep Hstart. revert Hstart. generalize (snd (cancel_training job_id started)).
  induction schedule as [|ev rest IH]; intros s Hs; cbn [run].
  - by constructor.
  - constructor; [done|]. apply IH. by apply Hstep.
Qed.
End early_cancel.
